(** * The submission server: repository synchronizer and notification dispatcher

    A shallow embedding of the two deployments of the server,
    [src/api/server.py] (module [ApiServer]) and [src/server.py] (module
    [Server]), and the properties of the request handler, the repository
    synchronizer and the notification dispatcher.

    The program talks to three collaborators that are not part of it: the
    code-hosting service (PyGithub), the evaluation endpoint (requests /
    httpx) and the clock.  They are an interface here ([Env]); the program
    is written once against that interface, in a state-and-exception monad
    that also records every call it makes.  [sim] is an executable instance
    of the interface: an in-memory account with fault injection, an endpoint
    that answers from a script and a scripted clock.

    Python [str] and [bytes] are both [string] (a list of 8-bit characters):
    a text is its UTF-8 encoding, so [str.encode] is the identity and
    [bytes.decode] is the identity on well-formed UTF-8 and raises on
    anything else.  Python [int] is [Z].  [logging] calls are left out. *)

From stdpp Require Import gmap strings list pretty.
From Stdlib Require Import ZArith Ascii String.

Local Open Scope string_scope.
Local Open Scope list_scope.
Local Open Scope Z_scope.

(** ** Data model (pydantic models, identical in both files) *)

Record Attachment := {
  filename : string;
  content : string;
  mime_type : option string;
}.

Record RequestPayload := {
  email : string;
  secret : string;
  task : string;
  round : Z;
  nonce : string;
  brief : string;
  checks : list string;
  evaluation_url : string;
  attachments : list Attachment;
}.

(** The dictionary [eval_payload] built by [handle_request]. *)
Record EvalPayload := {
  ep_email : string;
  ep_task : string;
  ep_round : Z;
  ep_nonce : string;
  ep_repo_url : string;
  ep_commit_sha : string;
  ep_pages_url : string;
}.

(** ** Exceptions and results *)

Inductive exn :=
| RuntimeError (msg : string)
| BinasciiError
| GithubException (status : Z)
| RequestException
| IndexError
| UnicodeDecodeError.

Inductive result (A : Type) :=
| Ok (a : A)
| Raised (e : exn).
Arguments Ok {A} a.
Arguments Raised {A} e.

Definition is_ok {A} (r : result A) : bool :=
  match r with Ok _ => true | Raised _ => false end.

(** The newline character of the Python literals. *)
Definition nl : string := String "010"%char "".

(** Python's [str(n)] / [f"{n}"] for an [int]. *)
Definition str_of_int (n : Z) : string := pretty n.

(** ** [base64.b64decode]

    [base64.b64decode(s)] with its default [validate=False] is
    [binascii.a2b_base64] in non-strict mode: characters outside the
    alphabet are skipped, a complete pad sequence ends the input, and a
    quad left open at the end of the input is an error. *)

Definition table_a2b_base64 (c : ascii) : option Z :=
  let n := Z.of_N (N_of_ascii c) in
  if (65 <=? n) && (n <=? 90) then Some (n - 65)
  else if (97 <=? n) && (n <=? 122) then Some (n - 71)
  else if (48 <=? n) && (n <=? 57) then Some (n + 4)
  else if n =? 43 then Some 62
  else if n =? 47 then Some 63
  else None.

Definition BASE64_PAD : ascii := "="%char.

(** An [unsigned char] assignment. *)
Definition uchar (n : Z) : ascii := ascii_of_N (Z.to_N (Z.land n 255)).

Fixpoint a2b_base64_loop (data : string) (quad_pos leftchar pads : Z)
    (bin_data : string) : result string :=
  match data with
  | EmptyString =>
      if quad_pos =? 0 then Ok bin_data else Raised BinasciiError
  | String this_ch rest =>
      if Ascii.eqb this_ch BASE64_PAD then
        if (2 <=? quad_pos) && (4 <=? quad_pos + (pads + 1)) then Ok bin_data
        else
          a2b_base64_loop rest quad_pos leftchar
            (if 2 <=? quad_pos then pads + 1 else pads) bin_data
      else
        match table_a2b_base64 this_ch with
        | None => a2b_base64_loop rest quad_pos leftchar pads bin_data
        | Some v =>
            if quad_pos =? 0 then a2b_base64_loop rest 1 v 0 bin_data
            else if quad_pos =? 1 then
              a2b_base64_loop rest 2 (Z.land v 15) 0
                (bin_data +:+ String (uchar (Z.lor (Z.shiftl leftchar 2) (Z.shiftr v 4))) "")
            else if quad_pos =? 2 then
              a2b_base64_loop rest 3 (Z.land v 3) 0
                (bin_data +:+ String (uchar (Z.lor (Z.shiftl leftchar 4) (Z.shiftr v 2))) "")
            else
              a2b_base64_loop rest 0 0 0
                (bin_data +:+ String (uchar (Z.lor (Z.shiftl leftchar 6) v)) "")
        end
  end.

Definition b64decode (s : string) : result string :=
  a2b_base64_loop s 0 0 0 "".

(** ** [bytes.decode]

    [b.decode()] is the strict UTF-8 decoder: it accepts the well-formed
    byte sequences of the Unicode standard (no overlong form, no surrogate,
    nothing above U+10FFFF, no truncated sequence) and raises
    [UnicodeDecodeError] on anything else. *)

Definition byte_value (c : ascii) : Z := Z.of_N (N_of_ascii c).

Definition in_range (lo hi : Z) (c : ascii) : bool :=
  (lo <=? byte_value c) && (byte_value c <=? hi).

Fixpoint utf8_valid (s : string) : bool :=
  match s with
  | EmptyString => true
  | String b0 s1 =>
      if in_range 0 127 b0 then utf8_valid s1
      else
        match s1 with
        | EmptyString => false
        | String b1 s2 =>
            if in_range 194 223 b0 then in_range 128 191 b1 && utf8_valid s2
            else
              match s2 with
              | EmptyString => false
              | String b2 s3 =>
                  if in_range 224 239 b0 then
                    (if byte_value b0 =? 224 then in_range 160 191 b1
                     else if byte_value b0 =? 237 then in_range 128 159 b1
                     else in_range 128 191 b1)
                    && in_range 128 191 b2 && utf8_valid s3
                  else
                    match s3 with
                    | EmptyString => false
                    | String b3 s4 =>
                        if in_range 240 244 b0 then
                          (if byte_value b0 =? 240 then in_range 144 191 b1
                           else if byte_value b0 =? 244 then in_range 128 143 b1
                           else in_range 128 191 b1)
                          && in_range 128 191 b2 && in_range 128 191 b3
                          && utf8_valid s4
                        else false
                    end
              end
        end
  end.

Definition bytes_decode (b : string) : result string :=
  if utf8_valid b then Ok b else Raised UnicodeDecodeError.

(** ** The collaborators *)

(** A [github.Repository] object, as far as the program reads it. *)
Record Repository := {
  repo_name : string;
  html_url : string;
}.

(** A [github.ContentFile] object. *)
Record ContentFile := {
  cf_path : string;
  cf_sha : string;
  decoded_content : string;
}.

(** The arguments of a POST as the program passes them: [requests.post(url,
    json=..., headers=...)] and [httpx.AsyncClient(timeout=...).post(url,
    json=...)]. *)
Record request := {
  req_url : string;
  req_json : EvalPayload;
  req_headers : list (string * string);
  req_timeout : option Z;
}.

(** Both HTTP libraries send a [json=] body as [application/json] unless
    the caller's headers say otherwise. *)
Definition content_type (r : request) : string :=
  match List.find (fun h => String.eqb (fst h) "Content-Type") (req_headers r) with
  | Some h => snd h
  | None => "application/json"
  end.

Class Env (W : Type) := {
  github_login : W -> string;
  github_get_repo : string -> W -> W * result Repository;
  github_create_repo : string -> bool -> W -> W * result Repository;
  github_get_contents : Repository -> string -> W -> W * result ContentFile;
  github_update_file :
    Repository -> string -> string -> string -> string -> W -> W * result unit;
  github_create_file :
    Repository -> string -> string -> string -> W -> W * result unit;
  github_get_commits : Repository -> W -> W * result (list string);
  clock_utcnow : W -> W * string;
  net_post : request -> W -> W * result Z;
  time_sleep : Z -> W -> W;
}.

(** ** Calls, traces and the monad of the program *)

Inductive call :=
| GetRepo (name : string)
| CreateRepo (name : string) (private : bool)
| GetContents (repo path : string)
| UpdateFile (repo path message data sha : string)
| CreateFile (repo path message data : string)
| GetCommits (repo : string)
| Post (r : request)
| Sleep (secs : Z).

Record event := Event { ev_call : call; ev_ok : bool }.

(** A coroutine handed to [asyncio.create_task]. *)
Inductive coroutine :=
| PostEvaluationAsync (url : string) (payload : EvalPayload).

Record state (W : Type) := State {
  world : W;
  trace : list event;
  pending : list coroutine;
}.
Arguments State {W} _ _ _.
Arguments world {W} _.
Arguments trace {W} _.
Arguments pending {W} _.

Definition M (W A : Type) : Type := state W -> state W * result A.

Definition ret {W A} (a : A) : M W A := fun s => (s, Ok a).

Definition raise {W A} (e : exn) : M W A := fun s => (s, Raised e).

Definition bind {W A B} (m : M W A) (k : A -> M W B) : M W B :=
  fun s =>
    match m s with
    | (s', Ok a) => k a s'
    | (s', Raised e) => (s', Raised e)
    end.

(** [try: body  except: handler], with a bare [except] (or [except
    Exception]): whatever [body] raises is caught. *)
Definition try_except {W A} (body handler : M W A) : M W A :=
  fun s =>
    match body s with
    | (s', Ok a) => (s', Ok a)
    | (s', Raised _) => handler s'
    end.

Definition lift {W A} (r : result A) : M W A := fun s => (s, r).

Declare Scope prog_scope.
Delimit Scope prog_scope with prog.
Notation "x <- m ;; k" := (bind m (fun x => k))
  (at level 100, m at next level, right associativity) : prog_scope.
Notation "m ;;; k" := (bind m (fun _ => k))
  (at level 100, right associativity) : prog_scope.
Local Open Scope prog_scope.

Section Primitives.
Context {W : Type} `{Env W}.

(** A call to a collaborator: it acts on the world and is recorded with
    its outcome. *)
Definition perform {A} (c : call) (op : W -> W * result A) : M W A :=
  fun s =>
    let '(w, r) := op (world s) in
    (State w (trace s ++ [Event c (is_ok r)]) (pending s), r).

Definition get_repo (name : string) : M W Repository :=
  perform (GetRepo name) (github_get_repo name).

Definition create_repo (name : string) (private : bool) : M W Repository :=
  perform (CreateRepo name private) (github_create_repo name private).

Definition get_contents (repo : Repository) (path : string) : M W ContentFile :=
  perform (GetContents (repo_name repo) path) (github_get_contents repo path).

Definition update_file (repo : Repository) (path message data sha : string) : M W unit :=
  perform (UpdateFile (repo_name repo) path message data sha)
    (github_update_file repo path message data sha).

Definition create_file (repo : Repository) (path message data : string) : M W unit :=
  perform (CreateFile (repo_name repo) path message data)
    (github_create_file repo path message data).

Definition get_commits (repo : Repository) : M W (list string) :=
  perform (GetCommits (repo_name repo)) (github_get_commits repo).

Definition post (r : request) : M W Z :=
  perform (Post r) (net_post r).

Definition sleep (secs : Z) : M W unit :=
  perform (Sleep secs) (fun w => (time_sleep secs w, Ok tt)).

(** [datetime.utcnow().isoformat()] *)
Definition utcnow_isoformat : M W string :=
  fun s =>
    let '(w, ts) := clock_utcnow (world s) in
    (State w (trace s) (pending s), Ok ts).

Definition login : M W string :=
  fun s => (s, Ok (github_login (world s))).

(** [asyncio.create_task(c)]: the coroutine is queued, not run. *)
Definition create_task (c : coroutine) : M W unit :=
  fun s => (State (world s) (trace s) (pending s ++ [c]), Ok tt).
End Primitives.

(** ** The repository synchronizer: the lines both files share

    [init_or_update_repo] is the same text in [src/api/server.py] (lines
    51-98) and [src/server.py] (lines 56-100) except for the README block
    and the log messages.  The shared blocks are defined once, in source
    order; each module below puts its own README block between them. *)

Section Synchronizer.
Context {W : Type} `{Env W}.

(** [user = g.get_user()] makes no request; the [try] around
    [user.get_repo] has a bare [except]. *)
Definition resolve_repo (task_name : string) (round_index : Z) : M W Repository :=
  try_except
    (get_repo task_name)
    (if round_index =? 1 then create_repo task_name false
     else raise (RuntimeError ("Repo " +:+ task_name +:+ " does not exist for round "
                               +:+ str_of_int round_index))).

(** The body of [for attach in attachments]. *)
Definition upsert_attachment (repo : Repository) (attach : Attachment) : M W unit :=
  data <- lift (b64decode (content attach));;
  try_except
    (repo_file <- get_contents repo (filename attach);;
     update_file repo (cf_path repo_file) ("Update " +:+ filename attach) data
       (cf_sha repo_file))
    (create_file repo (filename attach) ("Add " +:+ filename attach) data).

Fixpoint upsert_attachments (repo : Repository) (attachments : list Attachment)
    : M W unit :=
  match attachments with
  | [] => ret tt
  | attach :: rest =>
      upsert_attachment repo attach;;;
      upsert_attachments repo rest
  end.

Definition add_license (repo : Repository) (round_index : Z) : M W unit :=
  if round_index =? 1 then
    let license_text := "MIT License" +:+ nl +:+ nl +:+ "Copyright (c) ..." in
    try_except
      (create_file repo "LICENSE" "Add MIT License" license_text)
      (ret tt)
  else ret tt.

(** [repo.get_commits()[0].sha], [pages_url] and the returned triple. *)
Definition sync_result (repo : Repository) (task_name : string)
    : M W (string * string * string) :=
  commits <- get_commits repo;;
  commit_sha <- match commits with
                | sha :: _ => ret sha
                | [] => raise IndexError
                end;;
  user_login <- login;;
  let pages_url := "https://" +:+ user_login +:+ ".github.io/" +:+ task_name +:+ "/" in
  ret (html_url repo, commit_sha, pages_url).

(** A [try] block that rebinds a local variable half way is split at the
    rebinding: [try_then m handler k] runs [m] under the handler and goes
    on with [k], which installs the handler again for what follows. *)
Definition try_then {A B} (m : M W A) (handler : M W B) (k : A -> M W B) : M W B :=
  fun s =>
    match m s with
    | (s', Ok a) => k a s'
    | (s', Raised _) => handler s'
    end.
End Synchronizer.

(** What the web framework does with a handler: a returned dictionary is a
    JSON response with status 200, an exception that leaves the handler is
    a 500 response. *)
Inductive http_response :=
| JSONResponse (status_code : Z) (body : list (string * string))
| InternalServerError (status_code : Z).

Definition route {W} (handler : M W (list (string * string)))
    : state W -> state W * http_response :=
  fun s =>
    match handler s with
    | (s', Ok d) => (s', JSONResponse 200 d)
    | (s', Raised _) => (s', InternalServerError 500)
    end.

(** ** [src/api/server.py] *)

Module ApiServer.

Record config := {
  GITHUB_TOKEN : string;
  SECRET_FORM : string;
}.

(** Lines 19-24, run when the module is imported. *)
Definition startup (environ : gmap string string) : result config :=
  match environ !! "GITHUB_TOKEN" with
  | None | Some EmptyString =>
      Raised (RuntimeError "Set the GITHUB_TOKEN environment variable in Vercel")
  | Some token =>
      Ok {| GITHUB_TOKEN := token;
            SECRET_FORM := default "Ojal2" (environ !! "SECRET_FORM") |}
  end.

Section Program.
Context {W : Type} `{Env W}.

(** Lines 74-84.  [readme_text] is rebound inside the [try], after
    [decoded_content.decode()] and before [update_file]: the handler appends
    to whatever it holds when the [try] fails, the title if the lookup or
    the decoding failed, the extended text if the update did. *)
Definition update_readme (repo : Repository) (task_name : string)
    (round_index : Z) (brief : string) : M W unit :=
  let readme_text := "# " +:+ task_name +:+ nl +:+ nl in
  let handler (readme_text : string) : M W unit :=
    now <- utcnow_isoformat;;
    let readme_text :=
      readme_text +:+ nl +:+ nl +:+ "## Round " +:+ str_of_int round_index
        +:+ " Updates" +:+ nl +:+ brief +:+ nl +:+ "Updated: " +:+ now in
    create_file repo "README.md"
      ("Add README Round " +:+ str_of_int round_index) readme_text in
  try_then (get_contents repo "README.md") (handler readme_text)
    (fun readme_file =>
       try_then (lift (bytes_decode (decoded_content readme_file)))
         (handler readme_text)
         (fun existing_readme =>
            now <- utcnow_isoformat;;
            let readme_text :=
              existing_readme +:+ nl +:+ nl +:+ "## Round " +:+ str_of_int round_index
                +:+ " Updates" +:+ nl +:+ brief +:+ nl +:+ "Updated: " +:+ now in
            try_except
              (update_file repo (cf_path readme_file)
                 ("Update README for Round " +:+ str_of_int round_index)
                 readme_text (cf_sha readme_file))
              (handler readme_text))).

Definition init_or_update_repo (task_name : string) (round_index : Z)
    (brief : string) (attachments : list Attachment)
    : M W (string * string * string) :=
  repo <- resolve_repo task_name round_index;;
  upsert_attachments repo attachments;;;
  update_readme repo task_name round_index brief;;;
  add_license repo round_index;;;
  sync_result repo task_name.

(** Lines 103-117: [for _ in range(max_retries)], with [delay] carried
    from one iteration to the next. *)
Fixpoint post_evaluation_loop (iterations : nat) (url : string)
    (payload : EvalPayload) (delay : Z) : M W bool :=
  match iterations with
  | O => ret false
  | S iterations' =>
      accepted <-
        try_except
          (status_code <-
             post {| req_url := url;
                     req_json := payload;
                     req_headers := [("Content-Type", "application/json")];
                     req_timeout := None |};;
           ret (status_code =? 200))
          (ret false);;
      if accepted : bool then ret true
      else
        sleep delay;;;
        post_evaluation_loop iterations' url payload (delay * 2)
  end.

Definition post_evaluation (url : string) (payload : EvalPayload)
    (max_retries : Z) : M W bool :=
  post_evaluation_loop (Z.to_nat max_retries) url payload 1.

(** Lines 127-151, from the validated [payload] on. *)
Definition handle_request (cfg : config) (payload : RequestPayload)
    : M W (list (string * string)) :=
  if negb (String.eqb (secret payload) (SECRET_FORM cfg)) then
    ret [("error", "Invalid secret")]
  else
    synced <-
      init_or_update_repo (task payload) (round payload) (brief payload)
        (attachments payload);;
    let '(repo_url, commit_sha, pages_url) := synced in
    let eval_payload :=
      {| ep_email := email payload;
         ep_task := task payload;
         ep_round := round payload;
         ep_nonce := nonce payload;
         ep_repo_url := repo_url;
         ep_commit_sha := commit_sha;
         ep_pages_url := pages_url |} in
    post_evaluation (evaluation_url payload) eval_payload 5;;;
    ret [("status", "ok"); ("repo_url", repo_url);
         ("commit_sha", commit_sha); ("pages_url", pages_url)].
End Program.

End ApiServer.

(** ** [src/server.py] *)

Module Server.

Record config := {
  GITHUB_TOKEN : string;
}.

(** Line 21. *)
Definition VALID_SECRET : string := "Ojal2".

(** Lines 17-22. *)
Definition startup (environ : gmap string string) : result config :=
  match environ !! "GITHUB_TOKEN" with
  | None | Some EmptyString =>
      Raised (RuntimeError "Set the GITHUB_TOKEN environment variable")
  | Some token => Ok {| GITHUB_TOKEN := token |}
  end.

Section Program.
Context {W : Type} `{Env W}.

(** Lines 79-87. *)
Definition update_readme (repo : Repository) (task_name : string)
    (brief : string) : M W unit :=
  now <- utcnow_isoformat;;
  let readme_content :=
    "# " +:+ task_name +:+ nl +:+ nl +:+ "Brief:" +:+ nl +:+ brief +:+ nl +:+ nl
      +:+ "Updated: " +:+ now in
  try_except
    (readme_file <- get_contents repo "README.md";;
     update_file repo (cf_path readme_file) "Update README.md" readme_content
       (cf_sha readme_file))
    (create_file repo "README.md" "Add README.md" readme_content).

Definition init_or_update_repo (task_name : string) (round_index : Z)
    (brief : string) (attachments : list Attachment)
    : M W (string * string * string) :=
  repo <- resolve_repo task_name round_index;;
  upsert_attachments repo attachments;;;
  update_readme repo task_name brief;;;
  add_license repo round_index;;;
  sync_result repo task_name.

(** Lines 105-114: one attempt under [except Exception]. *)
Definition post_evaluation_async (url : string) (payload : EvalPayload)
    : M W unit :=
  try_except
    (status_code <-
       post {| req_url := url;
               req_json := payload;
               req_headers := [];
               req_timeout := Some 10 |};;
     ret tt)
    (ret tt).

(** Lines 120-152, from the validated [payload] on. *)
Definition handle_request (payload : RequestPayload)
    : M W (list (string * string)) :=
  if negb (String.eqb (secret payload) VALID_SECRET) then
    ret [("error", "Invalid secret")]
  else
    synced <-
      init_or_update_repo (task payload) (round payload) (brief payload)
        (attachments payload);;
    let '(repo_url, commit_sha, pages_url) := synced in
    let eval_payload :=
      {| ep_email := email payload;
         ep_task := task payload;
         ep_round := round payload;
         ep_nonce := nonce payload;
         ep_repo_url := repo_url;
         ep_commit_sha := commit_sha;
         ep_pages_url := pages_url |} in
    create_task (PostEvaluationAsync (evaluation_url payload) eval_payload);;;
    ret [("status", "ok"); ("repo_url", repo_url);
         ("commit_sha", commit_sha); ("pages_url", pages_url);
         ("message", "Repo updated! Evaluation POST sent in background.")].

(** The event loop runs the queued coroutines after the handler has
    returned. *)
Definition run_coroutine (c : coroutine) : M W unit :=
  match c with
  | PostEvaluationAsync url payload => post_evaluation_async url payload
  end.

Fixpoint run_coroutines (cs : list coroutine) : M W unit :=
  match cs with
  | [] => ret tt
  | c :: rest => run_coroutine c;;; run_coroutines rest
  end.

Definition run_pending : M W unit :=
  fun s => run_coroutines (pending s) (State (world s) (trace s) []).
End Program.

End Server.

(** ** The two deployments side by side *)

Inductive deployment :=
| VercelApi (cfg : ApiServer.config)
| LocalServer (cfg : Server.config).

Inductive program := api_server_py | server_py.

(** Importing the module: the configuration read at start-up. *)
Definition start (p : program) (environ : gmap string string) : result deployment :=
  match p with
  | api_server_py =>
      match ApiServer.startup environ with
      | Ok cfg => Ok (VercelApi cfg)
      | Raised e => Raised e
      end
  | server_py =>
      match Server.startup environ with
      | Ok cfg => Ok (LocalServer cfg)
      | Raised e => Raised e
      end
  end.

(** The value the handler compares [payload.secret] with. *)
Definition configured_secret (d : deployment) : string :=
  match d with
  | VercelApi cfg => ApiServer.SECRET_FORM cfg
  | LocalServer _ => Server.VALID_SECRET
  end.

Definition handle_request {W} `{Env W} (d : deployment) (payload : RequestPayload)
    : M W (list (string * string)) :=
  match d with
  | VercelApi cfg => ApiServer.handle_request cfg payload
  | LocalServer _ => Server.handle_request payload
  end.

Definition init_or_update_repo {W} `{Env W} (p : program) (task_name : string)
    (round_index : Z) (brief : string) (attachments : list Attachment)
    : M W (string * string * string) :=
  match p with
  | api_server_py => ApiServer.init_or_update_repo task_name round_index brief attachments
  | server_py => Server.init_or_update_repo task_name round_index brief attachments
  end.

Definition program_of (d : deployment) : program :=
  match d with
  | VercelApi _ => api_server_py
  | LocalServer _ => server_py
  end.

(** ** A simulated world

    An account of the hosting service held in memory.  A repository is its
    visibility, its files by path and its commits, newest first.  The
    version token of a file ([ContentFile.sha]) stands for its content hash
    and is the content itself.  An update needs the file to exist with the
    token given; a create needs the path to be free.

    [sim_faults] schedules what happens around the next calls to the
    hosting service, one entry per call: nothing, a transient failure of the
    call, or another client deleting a file just before the call is served.
    When the schedule is empty every call is served normally. *)

Record commit := {
  c_sha : string;
  c_message : string;
  c_path : string;
  c_data : string;
}.

Record sim_repo := {
  sr_private : bool;
  sr_files : gmap string string;
  sr_commits : list commit;
}.

Inductive fault :=
| NoFault
| Transient
| ConcurrentDelete (repo path : string).

Record sim := Sim {
  sim_login : string;
  sim_repos : gmap string sim_repo;
  sim_faults : list fault;
  sim_clock : list string;
  sim_endpoint : list (result Z);
  sim_slept : Z;
}.

Definition with_repos (w : sim) (repos : gmap string sim_repo) : sim :=
  Sim (sim_login w) repos (sim_faults w) (sim_clock w) (sim_endpoint w) (sim_slept w).

Definition with_faults (w : sim) (faults : list fault) : sim :=
  Sim (sim_login w) (sim_repos w) faults (sim_clock w) (sim_endpoint w) (sim_slept w).

Definition blob_sha (data : string) : string := data.

Definition sim_handle (w : sim) (name : string) : Repository :=
  {| repo_name := name;
     html_url := "https://github.com/" +:+ sim_login w +:+ "/" +:+ name |}.

Definition commit_to (r : sim_repo) (message path data : string) : sim_repo :=
  {| sr_private := sr_private r;
     sr_files := <[path := data]> (sr_files r);
     sr_commits :=
       {| c_sha := "c" +:+ pretty (List.length (sr_commits r));
          c_message := message; c_path := path; c_data := data |}
       :: sr_commits r |}.

Definition remove_file (path : string) (r : sim_repo) : sim_repo :=
  {| sr_private := sr_private r;
     sr_files := delete path (sr_files r);
     sr_commits := sr_commits r |}.

Definition serve_get_repo (name : string) (w : sim) : sim * result Repository :=
  match sim_repos w !! name with
  | Some _ => (w, Ok (sim_handle w name))
  | None => (w, Raised (GithubException 404))
  end.

Definition serve_create_repo (name : string) (private : bool) (w : sim)
    : sim * result Repository :=
  match sim_repos w !! name with
  | Some _ => (w, Raised (GithubException 422))
  | None =>
      (with_repos w
         (<[name := {| sr_private := private; sr_files := ∅; sr_commits := [] |}]>
            (sim_repos w)),
       Ok (sim_handle w name))
  end.

Definition serve_get_contents (repo : Repository) (path : string) (w : sim)
    : sim * result ContentFile :=
  match sim_repos w !! repo_name repo with
  | None => (w, Raised (GithubException 404))
  | Some r =>
      match sr_files r !! path with
      | None => (w, Raised (GithubException 404))
      | Some data =>
          (w, Ok {| cf_path := path; cf_sha := blob_sha data; decoded_content := data |})
      end
  end.

Definition serve_update_file (repo : Repository) (path message data sha : string)
    (w : sim) : sim * result unit :=
  match sim_repos w !! repo_name repo with
  | None => (w, Raised (GithubException 404))
  | Some r =>
      match sr_files r !! path with
      | None => (w, Raised (GithubException 404))
      | Some old =>
          if String.eqb sha (blob_sha old) then
            (with_repos w (<[repo_name repo := commit_to r message path data]> (sim_repos w)),
             Ok tt)
          else (w, Raised (GithubException 409))
      end
  end.

Definition serve_create_file (repo : Repository) (path message data : string)
    (w : sim) : sim * result unit :=
  match sim_repos w !! repo_name repo with
  | None => (w, Raised (GithubException 404))
  | Some r =>
      match sr_files r !! path with
      | Some _ => (w, Raised (GithubException 422))
      | None =>
          (with_repos w (<[repo_name repo := commit_to r message path data]> (sim_repos w)),
           Ok tt)
      end
  end.

Definition serve_get_commits (repo : Repository) (w : sim) : sim * result (list string) :=
  match sim_repos w !! repo_name repo with
  | None => (w, Raised (GithubException 404))
  | Some r => (w, Ok (c_sha <$> sr_commits r))
  end.

(** One call to the hosting service, under the fault schedule. *)
Definition hosted {A} (serve : sim -> sim * result A) (w : sim) : sim * result A :=
  match sim_faults w with
  | [] => serve w
  | NoFault :: faults => serve (with_faults w faults)
  | Transient :: faults => (with_faults w faults, Raised (GithubException 502))
  | ConcurrentDelete repo path :: faults =>
      serve (with_repos (with_faults w faults)
               (alter (remove_file path) repo (sim_repos w)))
  end.

#[export] Instance sim_env : Env sim := {|
  github_login := sim_login;
  github_get_repo name := hosted (serve_get_repo name);
  github_create_repo name private := hosted (serve_create_repo name private);
  github_get_contents repo path := hosted (serve_get_contents repo path);
  github_update_file repo path message data sha :=
    hosted (serve_update_file repo path message data sha);
  github_create_file repo path message data :=
    hosted (serve_create_file repo path message data);
  github_get_commits repo := hosted (serve_get_commits repo);
  clock_utcnow w :=
    match sim_clock w with
    | [] => (w, "1970-01-01T00:00:00")
    | now :: later =>
        (Sim (sim_login w) (sim_repos w) (sim_faults w) later (sim_endpoint w) (sim_slept w),
         now)
    end;
  net_post _ w :=
    match sim_endpoint w with
    | [] => (w, Raised RequestException)
    | outcome :: later =>
        (Sim (sim_login w) (sim_repos w) (sim_faults w) (sim_clock w) later (sim_slept w),
         outcome)
    end;
  time_sleep secs w :=
    Sim (sim_login w) (sim_repos w) (sim_faults w) (sim_clock w) (sim_endpoint w)
      (sim_slept w + secs);
|}.

(** The files of a repository of the account, if it exists. *)
Definition files_of (w : sim) (name : string) : option (gmap string string) :=
  sr_files <$> (sim_repos w !! name).

(** ** Reading traces *)

Definition is_mutation (c : call) : bool :=
  match c with
  | CreateRepo _ _ | UpdateFile _ _ _ _ _ | CreateFile _ _ _ _ => true
  | _ => false
  end.

Definition is_hosting (c : call) : bool :=
  match c with
  | Post _ | Sleep _ => false
  | _ => true
  end.

Definition sleeps (t : list event) : list Z :=
  omap (fun ev => match ev_call ev with Sleep secs => Some secs | _ => None end) t.

Definition posts (t : list event) : list request :=
  omap (fun ev => match ev_call ev with Post r => Some r | _ => None end) t.

Definition sum_Z (l : list Z) : Z := foldr Z.add 0 l.

(** An attempt of the blocking dispatcher counts as delivered when the POST
    came back, with status 200. *)
Definition delivered (outcome : result Z) : bool :=
  match outcome with
  | Ok status_code => status_code =? 200
  | Raised _ => false
  end.

(** The delays of [n] failed attempts in a row, starting from [delay]. *)
Fixpoint doubling (n : nat) (delay : Z) : list Z :=
  match n with
  | O => []
  | S n' => delay :: doubling n' (delay * 2)
  end.

(** The README block of either program. *)
Definition update_readme {W} `{Env W} (p : program) (repo : Repository)
    (task_name : string) (round_index : Z) (brief : string) : M W unit :=
  match p with
  | api_server_py => ApiServer.update_readme repo task_name round_index brief
  | server_py => Server.update_readme repo task_name brief
  end.

(** The request [post_evaluation] passes to [requests.post] (line 107). *)
Definition blocking_request (url : string) (payload : EvalPayload) : request :=
  {| req_url := url; req_json := payload;
     req_headers := [("Content-Type", "application/json")];
     req_timeout := None |}.

(** *** What the synchronizer leaves in a repository of the simulated account *)

(** The bytes of an attachment whose content decodes. *)
Definition decoded (attach : Attachment) : string :=
  match b64decode (content attach) with
  | Ok data => data
  | Raised _ => ""
  end.

Definition decodable (attach : Attachment) : Prop :=
  is_ok (b64decode (content attach)) = true.

(** The commit one pass of the loop body adds for [attach]. *)
Definition upserted (r : sim_repo) (attach : Attachment) : sim_repo :=
  commit_to r
    ((if sr_files r !! filename attach is Some _ then "Update " else "Add ")
       +:+ filename attach)
    (filename attach) (decoded attach).

(** The two calls one pass of the loop body makes when nothing fails. *)
Definition upsert_calls (name : string) (r : sim_repo) (attach : Attachment) : list event :=
  match sr_files r !! filename attach with
  | Some old =>
      [Event (GetContents name (filename attach)) true;
       Event (UpdateFile name (filename attach) ("Update " +:+ filename attach)
                (decoded attach) (blob_sha old)) true]
  | None =>
      [Event (GetContents name (filename attach)) false;
       Event (CreateFile name (filename attach) ("Add " +:+ filename attach)
                (decoded attach)) true]
  end.

(** [s'] is [s] with repository [name] of the account replaced by [r'], no
    fault scheduled, and the rest of the account as it was. *)
Definition evolves (name : string) (r' : sim_repo) (s s' : state sim) : Prop :=
  sim_faults (world s') = [] /\
  sim_repos (world s') = <[name := r']> (sim_repos (world s)) /\
  sim_login (world s') = sim_login (world s) /\
  pending s' = pending s.

(** *** What one pass of the loop body can look like

    The calls of one pass for an attachment that decodes to [data], with
    their outcomes, and how the pass ends.  The lookup and the update sit
    under the bare [except]; the create call is the handler. *)
Inductive upsert_pass (name : string) (attach : Attachment) (data : string)
    : list event -> result unit -> Prop :=
| pass_updated (path sha : string) :
    upsert_pass name attach data
      [Event (GetContents name (filename attach)) true;
       Event (UpdateFile name path ("Update " +:+ filename attach) data sha) true]
      (Ok tt)
| pass_update_failed_created (path sha : string) :
    upsert_pass name attach data
      [Event (GetContents name (filename attach)) true;
       Event (UpdateFile name path ("Update " +:+ filename attach) data sha) false;
       Event (CreateFile name (filename attach) ("Add " +:+ filename attach) data) true]
      (Ok tt)
| pass_update_failed_create_failed (path sha : string) (e : exn) :
    upsert_pass name attach data
      [Event (GetContents name (filename attach)) true;
       Event (UpdateFile name path ("Update " +:+ filename attach) data sha) false;
       Event (CreateFile name (filename attach) ("Add " +:+ filename attach) data) false]
      (Raised e)
| pass_created :
    upsert_pass name attach data
      [Event (GetContents name (filename attach)) false;
       Event (CreateFile name (filename attach) ("Add " +:+ filename attach) data) true]
      (Ok tt)
| pass_create_failed (e : exn) :
    upsert_pass name attach data
      [Event (GetContents name (filename attach)) false;
       Event (CreateFile name (filename attach) ("Add " +:+ filename attach) data) false]
      (Raised e).

Definition update_failed (ev : event) : bool :=
  match ev_call ev with
  | UpdateFile _ _ _ _ _ => negb (ev_ok ev)
  | _ => false
  end.

Definition create_failed (ev : event) : bool :=
  match ev_call ev with
  | CreateFile _ _ _ _ => negb (ev_ok ev)
  | _ => false
  end.

(** *** Scenarios *)

Definition index_html : Attachment :=
  {| filename := "index.html"; content := "PGgxPmhpPC9oMT4="; mime_type := None |}.

Definition style_css : Attachment :=
  {| filename := "style.css"; content := "Ym9keXt9"; mime_type := Some "text/css" |}.

(** Three base64 characters and no padding: [b64decode] raises. *)
Definition broken_bin : Attachment :=
  {| filename := "broken.bin"; content := "abc"; mime_type := None |}.

Definition submission (secret_sent : string) (round_index : Z)
    (files : list Attachment) : RequestPayload :=
  {| email := "student@example.com"; secret := secret_sent; task := "demo";
     round := round_index; nonce := "n-1"; brief := "initial";
     checks := ["has index"]; evaluation_url := "https://eval.example.com/notify";
     attachments := files |}.

Definition notification : EvalPayload :=
  {| ep_email := "student@example.com"; ep_task := "demo"; ep_round := 1;
     ep_nonce := "n-1"; ep_repo_url := "https://github.com/octo/demo";
     ep_commit_sha := "c2"; ep_pages_url := "https://octo.github.io/demo/" |}.

(** An account without repositories; the endpoint fails five times. *)
Definition octo_empty : sim :=
  Sim "octo" ∅ [] ["2025-01-01T00:00:00"; "2025-01-02T00:00:00"]
    [Ok 500; Ok 404; Raised RequestException; Ok 201; Ok 503; Ok 200] 0.

Definition demo_repo : sim_repo :=
  {| sr_private := false;
     sr_files := <["README.md" := "# demo"]> {["index.html" := "<h1>old</h1>"]};
     sr_commits :=
       [{| c_sha := "c1"; c_message := "Add README.md"; c_path := "README.md";
           c_data := "# demo" |};
        {| c_sha := "c0"; c_message := "Add index.html"; c_path := "index.html";
           c_data := "<h1>old</h1>" |}] |}.

(** The account after a first round. *)
Definition octo_demo : sim :=
  Sim "octo" {["demo" := demo_repo]} [] ["2025-01-03T00:00:00"] [Ok 200] 0.

(** The same account when another client deletes index.html between the
    synchronizer's lookup of that file (its second call) and its update
    (its third). *)
Definition octo_demo_race : sim :=
  Sim "octo" {["demo" := demo_repo]}
    [NoFault; NoFault; ConcurrentDelete "demo" "index.html"]
    ["2025-01-03T00:00:00"] [Ok 200] 0.

(** The same account when the third call to the hosting service, the
    update of index.html, fails in transit. *)
Definition octo_demo_flaky : sim :=
  Sim "octo" {["demo" := demo_repo]} [NoFault; NoFault; Transient]
    ["2025-01-03T00:00:00"] [Ok 200] 0.

Definition demo_handle : Repository := sim_handle octo_demo "demo".

Definition api_config : ApiServer.config :=
  {| ApiServer.GITHUB_TOKEN := "ghp_token"; ApiServer.SECRET_FORM := "form-secret" |}.

Definition server_config : Server.config := {| Server.GITHUB_TOKEN := "ghp_token" |}.

(** The calls of [n] failed attempts in a row of the blocking dispatcher. *)
Fixpoint failed_attempts (n : nat) (rq : request) (delay : Z) : list call :=
  match n with
  | O => []
  | S n' => Post rq :: Sleep delay :: failed_attempts n' rq (delay * 2)
  end.

(** *** Reading computations and inputs *)

(** A computation that talks to the hosting service only: whatever it does,
    the calls it adds are calls to the hosting service and it queues no
    coroutine. *)
Definition hosting_only {W A} (m : M W A) : Prop :=
  forall s s' r, m s = (s', r) ->
    pending s' = pending s /\
    exists new, trace s' = trace s ++ new /\
                Forall (fun ev => is_hosting (ev_call ev) = true) new.

(** A character the decoder skips: neither in the base64 alphabet nor the
    pad character. *)
Definition b64_foreign (c : ascii) : bool :=
  negb (Ascii.eqb c BASE64_PAD) &&
  match table_a2b_base64 c with Some _ => false | None => true end.

Fixpoint all_foreign (s : string) : bool :=
  match s with
  | EmptyString => true
  | String c rest => b64_foreign c && all_foreign rest
  end.

(** The text of the LICENSE file (line 88 / line 91). *)
Definition license_text : string :=
  "MIT License" +:+ nl +:+ nl +:+ "Copyright (c) ...".

(** What the LICENSE block leaves of a repository of the simulated
    account. *)
Definition licensed (round_index : Z) (r : sim_repo) : sim_repo :=
  if round_index =? 1 then
    match sr_files r !! "LICENSE" with
    | Some _ => r
    | None => commit_to r "Add MIT License" "LICENSE" license_text
    end
  else r.

(** The dictionary [eval_payload] of a submission and a synchronization
    result (lines 140-148 / 132-140). *)
Definition eval_payload_of (payload : RequestPayload)
    (synced : string * string * string) : EvalPayload :=
  {| ep_email := email payload;
     ep_task := task payload;
     ep_round := round payload;
     ep_nonce := nonce payload;
     ep_repo_url := synced.1.1;
     ep_commit_sha := synced.1.2;
     ep_pages_url := synced.2 |}.

(** The demo account when its first answer is lost in transit. *)
Definition octo_demo_lost_lookup : sim :=
  Sim "octo" {["demo" := demo_repo]} [Transient] ["2025-01-03T00:00:00"] [Ok 200] 0.

(** The demo account with a clock that has two readings left and an
    endpoint that accepts on the third attempt. *)
Definition octo_demo_two_rounds : sim :=
  Sim "octo" {["demo" := demo_repo]} []
    ["2025-01-03T00:00:00"; "2025-01-04T00:00:00"]
    [Ok 503; Raised RequestException; Ok 200; Ok 200] 0.

(** The demo account when the second call to the hosting service, here the
    update of README.md, is lost in transit. *)
Definition octo_demo_lost_update : sim :=
  Sim "octo" {["demo" := demo_repo]} [NoFault; Transient]
    ["2025-01-03T00:00:00"; "2025-01-04T00:00:00"] [Ok 200] 0.

(** Content with no base64 character in it. *)
Definition garbage_txt : Attachment :=
  {| filename := "notes.txt"; content := "!!! ??? ..."; mime_type := None |}.

(** README.md of a repository of the simulated account, when there is one,
    is text: [bytes.decode] accepts it. *)
Definition readme_is_text (r : sim_repo) : Prop :=
  forall existing, sr_files r !! "README.md" = Some existing -> utf8_valid existing = true.

(** Only [src/api/server.py] decodes README.md. *)
Definition readme_decodes (p : program) (r : sim_repo) : Prop :=
  p = api_server_py -> readme_is_text r.

(** A README.md that is no text: the byte 0xC3 with nothing after it. *)
Definition torn_readme : string := String (ascii_of_N 195) "".

Definition torn_repo : sim_repo :=
  {| sr_private := false;
     sr_files := {["README.md" := torn_readme]};
     sr_commits :=
       [{| c_sha := "c0"; c_message := "Add README.md"; c_path := "README.md";
           c_data := torn_readme |}] |}.

Definition octo_torn : sim :=
  Sim "octo" {["demo" := torn_repo]} [] ["2025-01-03T00:00:00"] [Ok 200] 0.

(** An attachment named README.md whose content decodes to the byte 0xFF. *)
Definition torn_readme_md : Attachment :=
  {| filename := "README.md"; content := "/w=="; mime_type := None |}.

(** * Properties *)

(** ** The monad and the recorded calls *)

Section Traces.
Context {W : Type} `{Env W}.

Lemma perform_spec {A} (c : call) (op : W -> W * result A) (s : state W) :
  perform c op s =
    (State (op (world s)).1 (trace s ++ [Event c (is_ok (op (world s)).2)]) (pending s),
     (op (world s)).2).
Proof. unfold perform. destruct (op (world s)); reflexivity. Qed.

Lemma perform_trace {A} (c : call) (op : W -> W * result A) (s s' : state W) r :
  perform c op s = (s', r) ->
  trace s' = trace s ++ [Event c (is_ok r)] /\ pending s' = pending s.
Proof. rewrite perform_spec. intros [= <- <-]. split; reflexivity. Qed.

Lemma utcnow_spec (s : state W) :
  utcnow_isoformat s =
    (State (clock_utcnow (world s)).1 (trace s) (pending s),
     Ok (clock_utcnow (world s)).2).
Proof. unfold utcnow_isoformat. destruct (clock_utcnow (world s)); reflexivity. Qed.

Lemma state_eta (s : state W) : State (world s) (trace s) (pending s) = s.
Proof. destruct s; reflexivity. Qed.
End Traces.

Lemma posts_app (t1 t2 : list event) : posts (t1 ++ t2) = posts t1 ++ posts t2.
Proof. unfold posts. apply omap_app. Qed.

Lemma sleeps_app (t1 t2 : list event) : sleeps (t1 ++ t2) = sleeps t1 ++ sleeps t2.
Proof. unfold sleeps. apply omap_app. Qed.

(** ** The request handler *)

(** C1. A submission whose secret differs from the configured value is
    answered with the dictionary [{"error": "Invalid secret"}] under status
    200, in both deployments, and the state is the one the handler started
    from: the world is untouched, no call to the hosting service or to the
    evaluation endpoint has been recorded and no coroutine has been
    queued. *)
Theorem invalid_secret_no_side_effects {W : Type} `{Env W}
    (d : deployment) (payload : RequestPayload) (s : state W) :
  secret payload <> configured_secret d ->
  route (handle_request d payload) s =
    (s, JSONResponse 200 [("error", "Invalid secret")]).
Proof.
  intros Hsecret. apply String.eqb_neq in Hsecret.
  unfold route, handle_request.
  destruct d as [cfg|cfg]; simpl in Hsecret.
  - unfold ApiServer.handle_request. rewrite Hsecret. reflexivity.
  - unfold Server.handle_request. rewrite Hsecret. reflexivity.
Qed.

(** ** Start-up configuration *)

Lemma start_needs_token (p : program) (environ : gmap string string) :
  environ !! "GITHUB_TOKEN" = None ->
  exists msg, start p environ = Raised (RuntimeError msg).
Proof.
  intros Htoken. destruct p; unfold start, ApiServer.startup, Server.startup;
    rewrite Htoken; eauto.
Qed.

Lemma start_rejects_empty_token (p : program) (environ : gmap string string) :
  environ !! "GITHUB_TOKEN" = Some "" ->
  exists msg, start p environ = Raised (RuntimeError msg).
Proof.
  intros Htoken. destruct p; unfold start, ApiServer.startup, Server.startup;
    rewrite Htoken; eauto.
Qed.

(** C9, as amended.  Both programs refuse to start when [GITHUB_TOKEN] is
    not in the environment.  When they start, [src/api/server.py] compares
    submissions with the environment's [SECRET_FORM], or with ["Ojal2"]
    when that variable is unset; [src/server.py] compares them with the
    constant ["Ojal2"] whatever the environment holds. *)
Theorem startup_configuration (p : program) (environ : gmap string string) :
  (environ !! "GITHUB_TOKEN" = None ->
   exists msg, start p environ = Raised (RuntimeError msg)) /\
  (forall d, start p environ = Ok d ->
     is_Some (environ !! "GITHUB_TOKEN") /\
     configured_secret d =
       match p with
       | api_server_py => default "Ojal2" (environ !! "SECRET_FORM")
       | server_py => "Ojal2"
       end).
Proof.
  split; [apply start_needs_token|].
  intros d. destruct p; unfold start, ApiServer.startup, Server.startup;
    destruct (environ !! "GITHUB_TOKEN") as [[|c token]|]; try discriminate;
    intros [= <-]; split; eauto.
Qed.

(** C9 fails for [src/server.py]: with the token and a production secret in
    the environment it still validates against ["Ojal2"], and no variable
    of the environment, with any fallback, determines its secret. *)
Lemma server_py_secret_not_from_environment :
  (exists d,
     start server_py
       (<["GITHUB_TOKEN" := "ghp_token"]>
          (<["SECRET_FORM" := "prod-secret"]>
             (<["VALID_SECRET" := "prod-secret"]> ∅))) = Ok d /\
     configured_secret d = "Ojal2" /\
     configured_secret d <> "prod-secret") /\
  ~ (exists var fallback : string,
       forall environ d, start server_py environ = Ok d ->
         configured_secret d = default fallback (environ !! var)).
Proof.
  split.
  - eexists. split; [vm_compute; reflexivity|]. split; [reflexivity|discriminate].
  - intros (var & fallback & Hread).
    specialize (Hread (<[var := "x"]> {["GITHUB_TOKEN" := "x"]})
                      (LocalServer {| Server.GITHUB_TOKEN := "x" |})).
    rewrite lookup_insert_eq in Hread. simpl in Hread.
    assert (Hgo : start server_py (<[var := "x"]> {["GITHUB_TOKEN" := "x"]}) =
                  Ok (LocalServer {| Server.GITHUB_TOKEN := "x" |})).
    { unfold start, Server.startup.
      destruct (decide (var = "GITHUB_TOKEN")) as [->|Hne].
      - rewrite lookup_insert_eq. reflexivity.
      - rewrite lookup_insert_ne by done. rewrite lookup_singleton_eq. reflexivity. }
    specialize (Hread Hgo). discriminate.
Qed.

(** ** The notification dispatcher *)

Section Dispatcher.
Context {W : Type} `{Env W}.

(** One iteration of the loop of the blocking dispatcher.  The attempt
    ends the delivery exactly when the POST comes back with status 200;
    after any other outcome the dispatcher sleeps [delay] seconds and goes
    on with twice the delay. *)
Lemma post_evaluation_iteration (n : nat) (url : string)
    (payload : EvalPayload) (delay : Z) (s : state W) :
  ApiServer.post_evaluation_loop (S n) url payload delay s =
    if delivered (net_post (blocking_request url payload) (world s)).2 then
      (State (net_post (blocking_request url payload) (world s)).1
         (trace s ++ [Event (Post (blocking_request url payload))
                        (is_ok (net_post (blocking_request url payload) (world s)).2)])
         (pending s),
       Ok true)
    else
      ApiServer.post_evaluation_loop n url payload (delay * 2)
        (State (time_sleep delay (net_post (blocking_request url payload) (world s)).1)
           ((trace s ++ [Event (Post (blocking_request url payload))
                           (is_ok (net_post (blocking_request url payload) (world s)).2)])
              ++ [Event (Sleep delay) true])
           (pending s)).
Proof.
  simpl. unfold bind, try_except, post, sleep, ret. rewrite perform_spec.
  fold (blocking_request url payload).
  destruct (net_post (blocking_request url payload) (world s)) as [w1 [status|e]]; simpl.
  - destruct (status =? 200); reflexivity.
  - reflexivity.
Qed.

(** Whatever the collaborators do, the blocking dispatcher returns a
    boolean; every request it sends carries the explicit JSON content type
    and no timeout. *)
Lemma post_evaluation_loop_requests (n : nat) :
  forall (url : string) (payload : EvalPayload) (delay : Z) (s : state W),
  exists s' b new,
    ApiServer.post_evaluation_loop n url payload delay s = (s', Ok b) /\
    trace s' = trace s ++ new /\
    Forall (fun rq => req_timeout rq = None /\
                      content_type rq = "application/json" /\
                      req_url rq = url /\ req_json rq = payload) (posts new) /\
    (n <> O -> posts new <> []).
Proof.
  induction n as [|n IH]; intros url payload delay s.
  - exists s, false, []. simpl. rewrite app_nil_r. repeat split; [constructor|done].
  - rewrite post_evaluation_iteration.
    destruct (delivered _).
    + eexists _, true, [_]. simpl. repeat split; [repeat constructor|done].
    + edestruct IH as (s' & b & new & Hrun & Htrace & Hall & _).
      eexists s', b, (_ :: _ :: new). rewrite Hrun. split; [reflexivity|].
      rewrite Htrace. simpl. rewrite <- !app_assoc. simpl.
      split; [reflexivity|]. split; [|done].
      constructor; [repeat split|exact Hall].
Qed.

(** The blocking dispatcher never raises. *)
Lemma post_evaluation_returns (url : string) (payload : EvalPayload)
    (max_retries : Z) (s : state W) :
  exists b, (ApiServer.post_evaluation url payload max_retries s).2 = Ok b.
Proof.
  unfold ApiServer.post_evaluation.
  destruct (post_evaluation_loop_requests (Z.to_nat max_retries) url payload 1 s)
    as (s' & b & new & Hrun & _).
  exists b. rewrite Hrun. reflexivity.
Qed.

(** The fire-and-forget dispatcher sends one request, with a timeout of
    ten seconds, and never raises. *)
Lemma post_evaluation_async_request (url : string) (payload : EvalPayload)
    (s : state W) :
  exists s' rq ok,
    Server.post_evaluation_async url payload s = (s', Ok tt) /\
    trace s' = trace s ++ [Event (Post rq) ok] /\
    req_timeout rq = Some 10 /\
    content_type rq = "application/json" /\
    req_url rq = url /\ req_json rq = payload.
Proof.
  unfold Server.post_evaluation_async, try_except, bind, post, ret.
  rewrite perform_spec.
  destruct (net_post _ (world s)) as [w1 [status|e]]; simpl;
    eexists _, _, _; repeat split.
Qed.
End Dispatcher.

(** C8, evaluated on the code.  The blocking dispatcher of
    [src/api/server.py] sends at least one request when it is allowed an
    attempt, and each request it sends has the JSON content type but no
    timeout at all; the fire-and-forget dispatcher of [src/server.py] sends
    its one request with the JSON content type and a timeout of ten
    seconds. *)
Theorem dispatcher_requests {W : Type} `{Env W}
    (url : string) (payload : EvalPayload) (max_retries : Z) (s : state W) :
  0 < max_retries ->
  (exists s' b new rq rest,
     ApiServer.post_evaluation url payload max_retries s = (s', Ok b) /\
     trace s' = trace s ++ new /\
     posts new = rq :: rest /\
     Forall (fun rq => content_type rq = "application/json" /\ req_timeout rq = None)
       (rq :: rest)) /\
  (exists s' rq ok,
     Server.post_evaluation_async url payload s = (s', Ok tt) /\
     trace s' = trace s ++ [Event (Post rq) ok] /\
     content_type rq = "application/json" /\ req_timeout rq = Some 10).
Proof.
  intros Hpos. split.
  - unfold ApiServer.post_evaluation.
    destruct (post_evaluation_loop_requests (Z.to_nat max_retries) url payload 1 s)
      as (s' & b & new & Hrun & Htrace & Hall & Hsome).
    destruct (posts new) as [|rq rest] eqn:Hposts.
    + exfalso. apply Hsome; [lia|reflexivity].
    + exists s', b, new, rq, rest. repeat split; try assumption.
      eapply Forall_impl; [exact Hall|]. intros rq' (? & ? & _). done.
  - destruct (post_evaluation_async_request url payload s)
      as (s' & rq & ok & Hrun & Htrace & Htimeout & Htype & _).
    exists s', rq, ok. done.
Qed.

(** *** The backoff of the blocking dispatcher, on the simulated endpoint *)

Lemma sim_post_outcome (rq : request) (w : sim) :
  (net_post rq w).2 = default (Raised RequestException) (head (sim_endpoint w)) /\
  sim_endpoint (net_post rq w).1 = tail (sim_endpoint w) /\
  sim_slept (net_post rq w).1 = sim_slept w.
Proof. simpl. destruct (sim_endpoint w) as [|outcome later] eqn:E; simpl; rewrite ?E; done. Qed.

(** As long as the attempts fail, each of them is followed by a sleep, the
    last one too: [n] failures cost the [n] delays [delay], [2 * delay],
    ... *)
Lemma post_evaluation_loop_all_failing (n : nat) :
  forall (url : string) (payload : EvalPayload) (delay : Z) (s : state sim),
  Forall (fun outcome => delivered outcome = false) (take n (sim_endpoint (world s))) ->
  exists s' new,
    ApiServer.post_evaluation_loop n url payload delay s = (s', Ok false) /\
    trace s' = trace s ++ new /\
    ev_call <$> new = failed_attempts n (blocking_request url payload) delay /\
    sim_slept (world s') = sim_slept (world s) + sum_Z (doubling n delay) /\
    sim_endpoint (world s') = drop n (sim_endpoint (world s)).
Proof.
  induction n as [|n IH]; intros url payload delay s Hfail.
  - exists s, []. simpl. rewrite app_nil_r, Z.add_0_r. done.
  - rewrite post_evaluation_iteration.
    set (rq := blocking_request url payload) in *.
    destruct (sim_post_outcome rq (world s)) as (Hout & Hrest & Hslept).
    destruct (net_post rq (world s)) as [w1 outcome]. simpl in Hout, Hrest, Hslept.
    assert (Hhead : delivered outcome = false).
    { rewrite Hout. destruct (sim_endpoint (world s)) as [|o os]; [reflexivity|].
      simpl in *. by inversion Hfail. }
    cbn [fst snd]. rewrite Hhead.
    edestruct (IH url payload (delay * 2))
      as (s' & new & Hrun & Htrace & Hcalls & Htotal & Hleft);
      [|exists s', (Event (Post rq) (is_ok outcome) :: Event (Sleep delay) true :: new);
        split; [exact Hrun|]].
    + simpl. rewrite Hrest.
      destruct (sim_endpoint (world s)) as [|o os]; simpl in *.
      * rewrite take_nil. constructor.
      * by inversion Hfail.
    + cbn [world trace] in *.
      split; [rewrite Htrace, <- !app_assoc; reflexivity|].
      split; [rewrite !fmap_cons, Hcalls; reflexivity|].
      rewrite Htotal, Hleft. simpl. rewrite Hrest, Hslept.
      split; [lia|].
      destruct (sim_endpoint (world s)); simpl; [by rewrite drop_nil|reflexivity].
Qed.

Lemma sleeps_of_calls (new : list event) :
  sleeps new =
    omap (fun c => match c with Sleep secs => Some secs | _ => None end) (ev_call <$> new).
Proof.
  induction new as [|[c ok] rest IH]; [reflexivity|].
  unfold sleeps in *. destruct c; cbn [omap list_omap fmap list_fmap ev_call];
    first [exact IH | f_equal; exact IH].
Qed.

Lemma posts_of_calls (new : list event) :
  posts new =
    omap (fun c => match c with Post rq => Some rq | _ => None end) (ev_call <$> new).
Proof.
  induction new as [|[c ok] rest IH]; [reflexivity|].
  unfold posts in *. destruct c; cbn [omap list_omap fmap list_fmap ev_call];
    first [exact IH | f_equal; exact IH].
Qed.

(** C3, evaluated on the code.  When the first five answers of the
    endpoint are failures (a status other than 200, or no answer at all),
    [post_evaluation] with its default of five attempts returns [False]
    without raising.  Its calls are five POSTs, each followed by a sleep,
    the last one too: five sleeps of 1, 2, 4, 8 and 16 seconds, 31 seconds
    in all, of which 16 come after the final attempt. *)
Theorem post_evaluation_five_failures (url : string) (payload : EvalPayload)
    (s : state sim) :
  Forall (fun outcome => delivered outcome = false) (take 5 (sim_endpoint (world s))) ->
  exists s' new,
    ApiServer.post_evaluation url payload 5 s = (s', Ok false) /\
    trace s' = trace s ++ new /\
    ev_call <$> new =
      [Post (blocking_request url payload); Sleep 1;
       Post (blocking_request url payload); Sleep 2;
       Post (blocking_request url payload); Sleep 4;
       Post (blocking_request url payload); Sleep 8;
       Post (blocking_request url payload); Sleep 16] /\
    sleeps new = [1; 2; 4; 8; 16] /\
    List.length (posts new) = 5%nat /\
    sim_slept (world s') = sim_slept (world s) + 31.
Proof.
  intros Hfail. unfold ApiServer.post_evaluation.
  destruct (post_evaluation_loop_all_failing (Z.to_nat 5) url payload 1 s Hfail)
    as (s' & new & Hrun & Htrace & Hcalls & Htotal & _).
  exists s', new. split; [exact Hrun|]. split; [exact Htrace|]. split; [exact Hcalls|].
  split; [rewrite sleeps_of_calls, Hcalls; reflexivity|].
  split; [rewrite posts_of_calls, Hcalls; reflexivity|exact Htotal].
Qed.

(** ** The synchronizer's calls, for any collaborators *)

Section SynchronizerCalls.
Context {W : Type} `{Env W}.

(** Any failure of the lookup counts as a missing repository: in round 1
    the next call is [create_repo] with [private=False], in any other round
    the [RuntimeError] is raised with no further call. *)
Lemma resolve_repo_calls (task_name : string) (round_index : Z) (s : state W) :
  resolve_repo task_name round_index s =
    match github_get_repo task_name (world s) with
    | (w1, Ok repo) =>
        (State w1 (trace s ++ [Event (GetRepo task_name) true]) (pending s), Ok repo)
    | (w1, Raised _) =>
        if round_index =? 1 then
          create_repo task_name false
            (State w1 (trace s ++ [Event (GetRepo task_name) false]) (pending s))
        else
          (State w1 (trace s ++ [Event (GetRepo task_name) false]) (pending s),
           Raised (RuntimeError ("Repo " +:+ task_name +:+ " does not exist for round "
                                 +:+ str_of_int round_index)))
    end.
Proof.
  unfold resolve_repo, try_except, get_repo. rewrite perform_spec.
  destruct (github_get_repo task_name (world s)) as [w1 [repo|e]]; cbn [fst snd is_ok].
  - reflexivity.
  - destruct (round_index =? 1); reflexivity.
Qed.

(** The text the README block of [src/api/server.py] writes when nothing
    fails after the lookup and the decoding: the existing text and the
    round section in an update, the title and the round section in a
    create. *)
Lemma api_update_readme_calls (repo : Repository) (task_name : string)
    (round_index : Z) (brief : string) (s s' : state W) :
  ApiServer.update_readme repo task_name round_index brief s = (s', Ok tt) ->
  (forall ev, ev ∈ drop (List.length (trace s)) (trace s') ->
              update_failed ev = false) ->
  exists now,
    let round_section :=
      nl +:+ nl +:+ "## Round " +:+ str_of_int round_index +:+ " Updates" +:+ nl
        +:+ brief +:+ nl +:+ "Updated: " +:+ now in
    (exists readme_file,
       utf8_valid (decoded_content readme_file) = true /\
       trace s' = trace s ++
         [Event (GetContents (repo_name repo) "README.md") true;
          Event (UpdateFile (repo_name repo) (cf_path readme_file)
                   ("Update README for Round " +:+ str_of_int round_index)
                   (decoded_content readme_file +:+ round_section)
                   (cf_sha readme_file)) true]) \/
    (exists found,
       trace s' = trace s ++
         [Event (GetContents (repo_name repo) "README.md") found;
          Event (CreateFile (repo_name repo) "README.md"
                   ("Add README Round " +:+ str_of_int round_index)
                   (("# " +:+ task_name +:+ nl +:+ nl) +:+ round_section)) true]).
Proof.
  unfold ApiServer.update_readme, try_then, get_contents. rewrite perform_spec.
  destruct (github_get_contents repo "README.md" (world s)) as [w1 [readme_file|e]];
    cbn [fst snd is_ok].
  - unfold lift, bytes_decode.
    destruct (utf8_valid (decoded_content readme_file)) eqn:Hvalid.
    + unfold bind at 1. rewrite utcnow_spec. cbn [world trace pending].
      destruct (clock_utcnow w1) as [w2 now]. cbn [fst snd].
      unfold try_except, update_file. rewrite perform_spec. cbn [world trace pending].
      destruct (github_update_file repo (cf_path readme_file) _ _ (cf_sha readme_file) w2)
        as [w3 [[]|e]]; cbn [fst snd is_ok].
      * intros [= <-] _. exists now. left. exists readme_file. split; [exact Hvalid|].
        cbn [trace]. rewrite <- app_assoc. reflexivity.
      * unfold bind. rewrite utcnow_spec. cbn [world trace pending].
        destruct (clock_utcnow w3) as [w4 now']. cbn [fst snd].
        unfold create_file. rewrite perform_spec. cbn [world trace pending].
        destruct (github_create_file repo "README.md" _ _ w4) as [w5 [[]|e']];
          cbn [fst snd is_ok]; [|discriminate].
        intros [= <-] Hnone. exfalso. cbn [trace] in Hnone.
        specialize (Hnone (Event (UpdateFile (repo_name repo) (cf_path readme_file)
          ("Update README for Round " +:+ str_of_int round_index)
          (decoded_content readme_file +:+ nl +:+ nl +:+ "## Round "
             +:+ str_of_int round_index +:+ " Updates" +:+ nl +:+ brief +:+ nl
             +:+ "Updated: " +:+ now)
          (cf_sha readme_file)) false)).
        rewrite <- !app_assoc, drop_app_length in Hnone.
        assert (Hfailed : true = false); [|discriminate Hfailed].
        apply Hnone. apply list_elem_of_further, list_elem_of_here.
    + unfold bind. rewrite utcnow_spec. cbn [world trace pending].
      destruct (clock_utcnow w1) as [w2 now]. cbn [fst snd].
      unfold create_file. rewrite perform_spec. cbn [world trace pending].
      destruct (github_create_file repo "README.md" _ _ w2) as [w3 [[]|e']];
        cbn [fst snd is_ok]; [|discriminate].
      intros [= <-] _. exists now. right. exists true.
      cbn [trace]. rewrite <- app_assoc. reflexivity.
  - unfold bind. rewrite utcnow_spec. cbn [world trace pending].
    destruct (clock_utcnow w1) as [w2 now]. cbn [fst snd].
    unfold create_file. rewrite perform_spec. cbn [world trace pending].
    destruct (github_create_file repo "README.md" _ _ w2) as [w3 [[]|e']];
      cbn [fst snd is_ok]; [|discriminate].
    intros [= <-] _. exists now. right. exists false.
    cbn [trace]. rewrite <- app_assoc. reflexivity.
Qed.

(** The text the README block of [src/server.py] writes, in an update and
    in a create alike. *)
Lemma server_update_readme_calls (repo : Repository) (task_name : string)
    (brief : string) (s s' : state W) (outcome : result unit) :
  Server.update_readme repo task_name brief s = (s', outcome) ->
  exists now,
    let readme_content :=
      "# " +:+ task_name +:+ nl +:+ nl +:+ "Brief:" +:+ nl +:+ brief +:+ nl +:+ nl
        +:+ "Updated: " +:+ now in
    forall ev, ev ∈ drop (List.length (trace s)) (trace s') ->
      match ev_call ev with
      | UpdateFile _ _ message data _ =>
          message = "Update README.md" /\ data = readme_content
      | CreateFile _ path message data =>
          path = "README.md" /\ message = "Add README.md" /\ data = readme_content
      | GetContents _ path => path = "README.md"
      | _ => False
      end.
Proof.
  unfold Server.update_readme. unfold bind at 1. rewrite utcnow_spec.
  destruct (clock_utcnow (world s)) as [w1 now]. cbn [fst snd].
  unfold try_except, bind, get_contents, update_file, create_file.
  rewrite !perform_spec. cbn [world trace pending].
  destruct (github_get_contents repo "README.md" w1) as [w2 [readme_file|e]];
    cbn [fst snd is_ok].
  - rewrite ?perform_spec. cbn [world trace pending].
    destruct (github_update_file repo (cf_path readme_file) _ _ (cf_sha readme_file) w2)
      as [w3 [[]|e]]; cbn [fst snd is_ok].
    + intros [= <- <-]. exists now. cbn [trace].
      rewrite <- !app_assoc, drop_app_length. intros ev Hin.
      repeat (apply elem_of_cons in Hin as [->|Hin]; [cbn; done|]).
      by apply elem_of_nil in Hin.
    + rewrite ?perform_spec. cbn [world trace pending].
      destruct (github_create_file repo "README.md" _ _ w3) as [w4 [[]|e']];
        cbn [fst snd is_ok]; intros [= <- <-]; exists now; cbn [trace];
        rewrite <- !app_assoc, drop_app_length; intros ev Hin;
        repeat (apply elem_of_cons in Hin as [->|Hin]; [cbn; done|]);
        by apply elem_of_nil in Hin.
  - rewrite ?perform_spec. cbn [world trace pending].
    destruct (github_create_file repo "README.md" _ _ w2) as [w4 [[]|e']];
      cbn [fst snd is_ok]; intros [= <- <-]; exists now; cbn [trace];
      rewrite <- !app_assoc, drop_app_length; intros ev Hin;
      repeat (apply elem_of_cons in Hin as [->|Hin]; [cbn; done|]);
      by apply elem_of_nil in Hin.
Qed.
End SynchronizerCalls.

(** ** The hosting service of the simulated world, without faults *)

Lemma hosted_quiet {A} (serve : sim -> sim * result A) (w : sim) :
  sim_faults w = [] -> hosted serve w = serve w.
Proof. unfold hosted. intros ->. reflexivity. Qed.

Lemma with_repos_with_repos (w : sim) (m1 m2 : gmap string sim_repo) :
  with_repos (with_repos w m1) m2 = with_repos w m2.
Proof. reflexivity. Qed.

Lemma with_repos_id (w : sim) : with_repos w (sim_repos w) = w.
Proof. destruct w; reflexivity. Qed.

Section QuietSim.
Variable s : state sim.
Hypothesis Hquiet : sim_faults (world s) = [].

Lemma get_repo_quiet (name : string) :
  get_repo name s =
    match sim_repos (world s) !! name with
    | Some _ =>
        (State (world s) (trace s ++ [Event (GetRepo name) true]) (pending s),
         Ok (sim_handle (world s) name))
    | None =>
        (State (world s) (trace s ++ [Event (GetRepo name) false]) (pending s),
         Raised (GithubException 404))
    end.
Proof.
  unfold get_repo. rewrite perform_spec. simpl. rewrite hosted_quiet by done.
  unfold serve_get_repo. destruct (sim_repos (world s) !! name); reflexivity.
Qed.

Lemma create_repo_quiet (name : string) (private : bool) :
  sim_repos (world s) !! name = None ->
  create_repo name private s =
    (State
       (with_repos (world s)
          (<[name := {| sr_private := private; sr_files := ∅; sr_commits := [] |}]>
             (sim_repos (world s))))
       (trace s ++ [Event (CreateRepo name private) true]) (pending s),
     Ok (sim_handle (world s) name)).
Proof.
  intros Hnone. unfold create_repo. rewrite perform_spec. simpl.
  rewrite hosted_quiet by done. unfold serve_create_repo. rewrite Hnone. reflexivity.
Qed.

Lemma get_contents_quiet (repo : Repository) (path : string) (r : sim_repo) :
  sim_repos (world s) !! repo_name repo = Some r ->
  get_contents repo path s =
    match sr_files r !! path with
    | Some data =>
        (State (world s) (trace s ++ [Event (GetContents (repo_name repo) path) true])
           (pending s),
         Ok {| cf_path := path; cf_sha := blob_sha data; decoded_content := data |})
    | None =>
        (State (world s) (trace s ++ [Event (GetContents (repo_name repo) path) false])
           (pending s),
         Raised (GithubException 404))
    end.
Proof.
  intros Hrepo. unfold get_contents. rewrite perform_spec. simpl.
  rewrite hosted_quiet by done. unfold serve_get_contents. rewrite Hrepo.
  destruct (sr_files r !! path); reflexivity.
Qed.

Lemma update_file_quiet (repo : Repository) (path message data : string)
    (r : sim_repo) (old : string) :
  sim_repos (world s) !! repo_name repo = Some r ->
  sr_files r !! path = Some old ->
  update_file repo path message data (blob_sha old) s =
    (State
       (with_repos (world s)
          (<[repo_name repo := commit_to r message path data]> (sim_repos (world s))))
       (trace s ++ [Event (UpdateFile (repo_name repo) path message data (blob_sha old)) true])
       (pending s),
     Ok tt).
Proof.
  intros Hrepo Hfile. unfold update_file. rewrite perform_spec. simpl.
  rewrite hosted_quiet by done. unfold serve_update_file. rewrite Hrepo, Hfile.
  rewrite String.eqb_refl. reflexivity.
Qed.

Lemma create_file_quiet (repo : Repository) (path message data : string)
    (r : sim_repo) :
  sim_repos (world s) !! repo_name repo = Some r ->
  create_file repo path message data s =
    match sr_files r !! path with
    | None =>
        (State
           (with_repos (world s)
              (<[repo_name repo := commit_to r message path data]> (sim_repos (world s))))
           (trace s ++ [Event (CreateFile (repo_name repo) path message data) true])
           (pending s),
         Ok tt)
    | Some _ =>
        (State (world s)
           (trace s ++ [Event (CreateFile (repo_name repo) path message data) false])
           (pending s),
         Raised (GithubException 422))
    end.
Proof.
  intros Hrepo. unfold create_file. rewrite perform_spec. simpl.
  rewrite hosted_quiet by done. unfold serve_create_file. rewrite Hrepo.
  destruct (sr_files r !! path); reflexivity.
Qed.

Lemma get_commits_quiet (repo : Repository) (r : sim_repo) :
  sim_repos (world s) !! repo_name repo = Some r ->
  get_commits repo s =
    (State (world s) (trace s ++ [Event (GetCommits (repo_name repo)) true]) (pending s),
     Ok (c_sha <$> sr_commits r)).
Proof.
  intros Hrepo. unfold get_commits. rewrite perform_spec. simpl.
  rewrite hosted_quiet by done. unfold serve_get_commits. rewrite Hrepo. reflexivity.
Qed.
End QuietSim.

(** ** The synchronizer on the simulated account, without faults *)

Lemma upsert_attachment_quiet (repo : Repository) (attach : Attachment)
    (r : sim_repo) (s : state sim) :
  sim_faults (world s) = [] ->
  sim_repos (world s) !! repo_name repo = Some r ->
  decodable attach ->
  upsert_attachment repo attach s =
    (State
       (with_repos (world s)
          (<[repo_name repo := upserted r attach]> (sim_repos (world s))))
       (trace s ++ upsert_calls (repo_name repo) r attach) (pending s),
     Ok tt).
Proof.
  intros Hquiet Hrepo Hdec. unfold decodable in Hdec.
  unfold upsert_attachment, upserted, upsert_calls, decoded.
  destruct (b64decode (content attach)) as [data|e] eqn:Hdata; [|discriminate].
  unfold bind at 1, lift. unfold try_except, bind.
  rewrite (get_contents_quiet s Hquiet repo (filename attach) r Hrepo).
  destruct (sr_files r !! filename attach) as [old|] eqn:Hfile.
  - cbn [cf_path cf_sha].
    erewrite update_file_quiet; [|done|exact Hrepo|exact Hfile].
    simpl. rewrite <- app_assoc. reflexivity.
  - erewrite create_file_quiet; [|done|exact Hrepo].
    rewrite Hfile. simpl. rewrite <- app_assoc. reflexivity.
Qed.

Lemma evolves_refl (name : string) (r : sim_repo) (s : state sim) :
  sim_faults (world s) = [] ->
  sim_repos (world s) !! name = Some r ->
  evolves name r s s.
Proof. intros Hq Hr. unfold evolves. rewrite insert_id by done. done. Qed.

Lemma evolves_same_world (name : string) (r : sim_repo) (s s' : state sim) :
  world s' = world s ->
  pending s' = pending s ->
  sim_faults (world s) = [] ->
  sim_repos (world s) !! name = Some r ->
  evolves name r s s'.
Proof.
  intros Hw Hp Hq Hr. unfold evolves. rewrite Hw, insert_id by done. done.
Qed.

Lemma evolves_trans (name : string) (r1 r2 : sim_repo) (s s1 s2 : state sim) :
  evolves name r1 s s1 -> evolves name r2 s1 s2 -> evolves name r2 s s2.
Proof.
  intros (Hq1 & Hr1 & Hl1 & Hp1) (Hq2 & Hr2 & Hl2 & Hp2). unfold evolves.
  rewrite Hr2, Hr1, insert_insert_eq. repeat split; congruence.
Qed.

Lemma evolves_lookup (name : string) (r' : sim_repo) (s s' : state sim) :
  evolves name r' s s' -> sim_repos (world s') !! name = Some r'.
Proof. intros (_ & -> & _). apply lookup_insert_eq. Qed.

Lemma upsert_attachment_evolves (repo : Repository) (attach : Attachment)
    (r : sim_repo) (s : state sim) :
  sim_faults (world s) = [] ->
  sim_repos (world s) !! repo_name repo = Some r ->
  decodable attach ->
  exists s',
    upsert_attachment repo attach s = (s', Ok tt) /\
    evolves (repo_name repo) (upserted r attach) s s' /\
    sim_clock (world s') = sim_clock (world s) /\
    trace s' = trace s ++ upsert_calls (repo_name repo) r attach.
Proof.
  intros Hquiet Hrepo Hdec. eexists. split.
  - apply upsert_attachment_quiet; eassumption.
  - unfold evolves. simpl. done.
Qed.

(** The whole loop: one commit per attachment, in the order of the list. *)
Lemma upsert_attachments_evolves (repo : Repository) (attachments : list Attachment) :
  forall (r : sim_repo) (s : state sim),
  sim_faults (world s) = [] ->
  sim_repos (world s) !! repo_name repo = Some r ->
  Forall decodable attachments ->
  exists s',
    upsert_attachments repo attachments s = (s', Ok tt) /\
    evolves (repo_name repo) (foldl upserted r attachments) s s' /\
    sim_clock (world s') = sim_clock (world s).
Proof.
  induction attachments as [|attach rest IH]; intros r s Hquiet Hrepo Hdec.
  - exists s. simpl. split; [reflexivity|]. split; [by apply evolves_refl|done].
  - inversion Hdec as [|? ? Hhead Htail]; subst.
    destruct (upsert_attachment_evolves repo attach r s Hquiet Hrepo Hhead)
      as (s1 & Hrun1 & Hev1 & Hclock1 & _).
    destruct (IH (upserted r attach) s1) as (s2 & Hrun2 & Hev2 & Hclock2);
      [apply Hev1|by eapply evolves_lookup|done|].
    exists s2. simpl. unfold bind. rewrite Hrun1, Hrun2.
    split; [reflexivity|]. split; [by eapply evolves_trans|congruence].
Qed.

Lemma upserted_files (r : sim_repo) (attach : Attachment) :
  sr_files (upserted r attach) = <[filename attach := decoded attach]> (sr_files r).
Proof. reflexivity. Qed.

Lemma foldl_upserted_files (attachments : list Attachment) :
  forall r : sim_repo,
  sr_files (foldl upserted r attachments) =
    foldl (fun files attach => <[filename attach := decoded attach]> files)
      (sr_files r) attachments.
Proof.
  induction attachments as [|attach rest IH]; intros r; simpl; [reflexivity|].
  rewrite IH. reflexivity.
Qed.

Lemma foldl_upserted_private (attachments : list Attachment) :
  forall r : sim_repo,
  sr_private (foldl upserted r attachments) = sr_private r.
Proof.
  induction attachments as [|attach rest IH]; intros r; simpl; [reflexivity|].
  rewrite IH. reflexivity.
Qed.

(** A path no attachment names keeps its content. *)
Lemma foldl_insert_other (attachments : list Attachment) (path : string) :
  forall files : gmap string string,
  path ∉ (filename <$> attachments) ->
  foldl (fun files attach => <[filename attach := decoded attach]> files)
    files attachments !! path = files !! path.
Proof.
  induction attachments as [|attach rest IH]; intros files Hnotin; simpl; [reflexivity|].
  rewrite fmap_cons in Hnotin. apply not_elem_of_cons in Hnotin as [Hne Hrest].
  rewrite IH by exact Hrest. by rewrite lookup_insert_ne.
Qed.

(** A path some attachment names is in the repository afterwards. *)
Lemma foldl_insert_named (attachments : list Attachment) (path : string) :
  forall files : gmap string string,
  path ∈ (filename <$> attachments) ->
  is_Some (foldl (fun files attach => <[filename attach := decoded attach]> files)
             files attachments !! path).
Proof.
  induction attachments as [|attach rest IH]; intros files Hin; simpl.
  - by apply elem_of_nil in Hin.
  - destruct (decide (path ∈ (filename <$> rest))) as [Hlater|Hlast]; [by apply IH|].
    rewrite fmap_cons in Hin. apply elem_of_cons in Hin as [->|Hin]; [|done].
    rewrite foldl_insert_other by exact Hlast. rewrite lookup_insert_eq. eauto.
Qed.

(** The last attachment that names a path decides its content. *)
Lemma foldl_insert_last (attachments : list Attachment) :
  forall (files : gmap string string) (i : nat) (attach : Attachment),
  attachments !! i = Some attach ->
  filename attach ∉ (filename <$> drop (S i) attachments) ->
  foldl (fun files attach => <[filename attach := decoded attach]> files)
    files attachments !! filename attach = Some (decoded attach).
Proof.
  induction attachments as [|first rest IH]; intros files i attach Hi Hlast;
    [discriminate|].
  destruct i as [|i]; simpl in *.
  - injection Hi as ->. rewrite drop_0 in Hlast.
    rewrite foldl_insert_other by exact Hlast. apply lookup_insert_eq.
  - eapply IH; eassumption.
Qed.

(** The commits of the loop, oldest first, one per attachment: the message
    says Update when the path was in the repository before the loop or was
    written by an earlier attachment, and Add otherwise. *)
Lemma foldl_upserted_commits (attachments : list Attachment) :
  forall r : sim_repo,
  exists new : list commit,
    sr_commits (foldl upserted r attachments) = rev new ++ sr_commits r /\
    List.length new = List.length attachments /\
    forall (i : nat) (attach : Attachment),
      attachments !! i = Some attach ->
      exists c,
        new !! i = Some c /\
        c_path c = filename attach /\
        c_data c = decoded attach /\
        c_message c =
          (if bool_decide (is_Some (sr_files r !! filename attach) \/
                           filename attach ∈ (filename <$> take i attachments))
           then "Update " else "Add ") +:+ filename attach.
Proof.
  induction attachments as [|first rest IH]; intros r.
  - exists []. repeat split. intros i attach Hi. discriminate.
  - destruct (IH (upserted r first)) as (new & Hcommits & Hlen & Heach).
    exists (hd {| c_sha := ""; c_message := ""; c_path := ""; c_data := "" |}
              (sr_commits (upserted r first)) :: new).
    simpl. split; [|split].
    + rewrite Hcommits. simpl. rewrite <- app_assoc. reflexivity.
    + rewrite Hlen. reflexivity.
    + intros [|i] attach Hi; simpl in Hi.
      * injection Hi as ->. eexists. split; [reflexivity|]. simpl.
        repeat split. f_equal.
        destruct (sr_files r !! filename attach) as [old|] eqn:Hfile.
        -- rewrite bool_decide_eq_true_2; [reflexivity|]. left. eauto.
        -- rewrite bool_decide_eq_false_2; [reflexivity|].
           intros [[? ?]|Hin]; [discriminate|]. by apply elem_of_nil in Hin.
      * destruct (Heach i attach Hi) as (c & Hc & Hpath & Hdata & Hmsg).
        exists c. simpl. repeat split; try assumption.
        rewrite Hmsg. f_equal. erewrite bool_decide_ext; [reflexivity|].
        rewrite upserted_files, elem_of_cons.
        destruct (decide (filename first = filename attach)) as [Heq|Hne].
        -- rewrite Heq, lookup_insert_eq. split; intros _; [right; left|left]; eauto.
        -- rewrite lookup_insert_ne by done. split.
           ++ intros [?|?]; [left|right; right]; done.
           ++ intros [?|[?|?]]; [left|congruence|right]; done.
Qed.

(** C7. On the simulated account with no fault scheduled, the loop over
    attachments whose contents decode completes and adds one commit per
    attachment, in the order of the input.  The commit of the i-th
    attachment writes the base64-decoded content at the attachment's
    filename; its message is Update followed by the filename when the file
    existed at that point (it was in the repository before the loop, or an
    earlier attachment wrote it) and Add followed by the filename when it
    did not.  Afterwards every path holds the bytes of the last attachment
    that names it, and paths that no attachment names are as before. *)
Theorem attachments_upserted_in_order (repo : Repository)
    (attachments : list Attachment) (r : sim_repo) (s : state sim) :
  sim_faults (world s) = [] ->
  sim_repos (world s) !! repo_name repo = Some r ->
  Forall decodable attachments ->
  exists (s' : state sim) (r' : sim_repo) (new : list commit),
    upsert_attachments repo attachments s = (s', Ok tt) /\
    sim_repos (world s') !! repo_name repo = Some r' /\
    sr_commits r' = rev new ++ sr_commits r /\
    List.length new = List.length attachments /\
    (forall (i : nat) (attach : Attachment),
       attachments !! i = Some attach ->
       exists c,
         new !! i = Some c /\
         c_path c = filename attach /\
         b64decode (content attach) = Ok (c_data c) /\
         c_message c =
           (if bool_decide (is_Some (sr_files r !! filename attach) \/
                            filename attach ∈ (filename <$> take i attachments))
            then "Update " else "Add ") +:+ filename attach) /\
    (forall (i : nat) (attach : Attachment),
       attachments !! i = Some attach ->
       filename attach ∉ (filename <$> drop (S i) attachments) ->
       sr_files r' !! filename attach = Some (decoded attach)) /\
    (forall path : string,
       path ∉ (filename <$> attachments) -> sr_files r' !! path = sr_files r !! path).
Proof.
  intros Hquiet Hrepo Hdec.
  destruct (upsert_attachments_evolves repo attachments r s Hquiet Hrepo Hdec)
    as (s' & Hrun & Hev & _).
  destruct (foldl_upserted_commits attachments r) as (new & Hcommits & Hlen & Heach).
  exists s', (foldl upserted r attachments), new.
  split; [exact Hrun|]. split; [by eapply evolves_lookup|].
  split; [exact Hcommits|]. split; [exact Hlen|]. split; [|split].
  - intros i attach Hi. destruct (Heach i attach Hi) as (c & Hc & Hpath & Hdata & Hmsg).
    exists c. repeat split; try assumption.
    rewrite Hdata. unfold decoded.
    assert (Hok : decodable attach).
    { eapply Forall_forall; [exact Hdec|]. eapply list_elem_of_lookup_2. exact Hi. }
    unfold decodable in Hok. destruct (b64decode (content attach)); [reflexivity|discriminate].
  - intros i attach Hi Hlast. rewrite foldl_upserted_files.
    by eapply foldl_insert_last.
  - intros path Hnotin. rewrite foldl_upserted_files. by apply foldl_insert_other.
Qed.

(** C6. On the simulated account with no fault scheduled, upserting the
    same attachment (same filename, same content) twice in a row succeeds
    both times; the files of the repository after the second run are the
    files after the first, with the decoded bytes at the filename; and the
    second run looks the file up, finds it and updates it: it makes no
    create call. *)
Theorem upsert_twice_same_files (repo : Repository) (attach : Attachment)
    (r : sim_repo) (s : state sim) :
  sim_faults (world s) = [] ->
  sim_repos (world s) !! repo_name repo = Some r ->
  decodable attach ->
  exists (s1 s2 : state sim) (r1 r2 : sim_repo),
    upsert_attachment repo attach s = (s1, Ok tt) /\
    upsert_attachment repo attach s1 = (s2, Ok tt) /\
    sim_repos (world s1) !! repo_name repo = Some r1 /\
    sim_repos (world s2) !! repo_name repo = Some r2 /\
    sr_files r1 !! filename attach = Some (decoded attach) /\
    sr_files r2 = sr_files r1 /\
    trace s2 =
      trace s1 ++
        [Event (GetContents (repo_name repo) (filename attach)) true;
         Event (UpdateFile (repo_name repo) (filename attach)
                  ("Update " +:+ filename attach) (decoded attach)
                  (blob_sha (decoded attach))) true].
Proof.
  intros Hquiet Hrepo Hdec.
  destruct (upsert_attachment_evolves repo attach r s Hquiet Hrepo Hdec)
    as (s1 & Hrun1 & Hev1 & _ & _).
  pose proof (evolves_lookup _ _ _ _ Hev1) as Hrepo1.
  destruct (upsert_attachment_evolves repo attach (upserted r attach) s1
              (proj1 Hev1) Hrepo1 Hdec) as (s2 & Hrun2 & Hev2 & _ & Htrace2).
  exists s1, s2, (upserted r attach), (upserted (upserted r attach) attach).
  split; [exact Hrun1|]. split; [exact Hrun2|]. split; [exact Hrepo1|].
  split; [by eapply evolves_lookup|].
  split; [rewrite upserted_files; apply lookup_insert_eq|].
  split.
  - rewrite !upserted_files. apply insert_insert_eq.
  - rewrite Htrace2. unfold upsert_calls.
    rewrite upserted_files, lookup_insert_eq. reflexivity.
Qed.

Lemma sim_clock_tick (w : sim) :
  sim_faults (clock_utcnow w).1 = sim_faults w /\
  sim_repos (clock_utcnow w).1 = sim_repos w /\
  sim_login (clock_utcnow w).1 = sim_login w.
Proof. simpl. destruct (sim_clock w); done. Qed.

(** The README block of [src/api/server.py] on the simulated account, when
    README.md is text or absent. *)
Lemma api_update_readme_quiet (repo : Repository) (task_name : string)
    (round_index : Z) (brief : string) (r : sim_repo) (s : state sim) :
  sim_faults (world s) = [] ->
  sim_repos (world s) !! repo_name repo = Some r ->
  readme_is_text r ->
  exists s' message,
    ApiServer.update_readme repo task_name round_index brief s = (s', Ok tt) /\
    evolves (repo_name repo)
      (commit_to r message "README.md"
         (match sr_files r !! "README.md" with
          | Some existing_readme => existing_readme
          | None => "# " +:+ task_name +:+ nl +:+ nl
          end +:+ nl +:+ nl +:+ "## Round " +:+ str_of_int round_index +:+ " Updates"
            +:+ nl +:+ brief +:+ nl +:+ "Updated: " +:+ (clock_utcnow (world s)).2))
      s s'.
Proof.
  intros Hquiet Hrepo Htext.
  destruct (sim_clock_tick (world s)) as (Hfaults & Hrepos & Hlogin).
  unfold ApiServer.update_readme, try_then.
  rewrite (get_contents_quiet s Hquiet repo "README.md" r Hrepo).
  destruct (sr_files r !! "README.md") as [existing|] eqn:Hfile.
  - unfold lift, bytes_decode. cbn [decoded_content]. rewrite (Htext existing Hfile).
    unfold bind. rewrite utcnow_spec. cbn [world trace pending cf_path cf_sha].
    unfold try_except.
    erewrite update_file_quiet; cbn [world];
      [|congruence|rewrite Hrepos; exact Hrepo|exact Hfile].
    eexists _, _. split; [reflexivity|].
    unfold evolves, with_repos. cbn [world pending sim_faults sim_repos sim_login].
    rewrite Hrepos. repeat split; first [reflexivity|congruence].
  - unfold bind. rewrite utcnow_spec. cbn [world trace pending].
    erewrite create_file_quiet; cbn [world]; [|congruence|rewrite Hrepos; exact Hrepo].
    rewrite Hfile.
    eexists _, _. split; [reflexivity|].
    unfold evolves, with_repos. cbn [world pending sim_faults sim_repos sim_login].
    rewrite Hrepos. repeat split; first [reflexivity|congruence].
Qed.

(** The same block when README.md is there and is no text: the decoding
    raises inside the [try], nothing is updated, and the create call of the
    handler, with the title and one round section, is refused. *)
Lemma api_update_readme_torn (repo : Repository) (task_name : string)
    (round_index : Z) (brief : string) (r : sim_repo) (existing : string)
    (s : state sim) :
  sim_faults (world s) = [] ->
  sim_repos (world s) !! repo_name repo = Some r ->
  sr_files r !! "README.md" = Some existing ->
  utf8_valid existing = false ->
  exists s',
    ApiServer.update_readme repo task_name round_index brief s =
      (s', Raised (GithubException 422)) /\
    evolves (repo_name repo) r s s' /\
    trace s' = trace s ++
      [Event (GetContents (repo_name repo) "README.md") true;
       Event (CreateFile (repo_name repo) "README.md"
                ("Add README Round " +:+ str_of_int round_index)
                (("# " +:+ task_name +:+ nl +:+ nl) +:+ nl +:+ nl +:+ "## Round "
                   +:+ str_of_int round_index +:+ " Updates" +:+ nl +:+ brief +:+ nl
                   +:+ "Updated: " +:+ (clock_utcnow (world s)).2)) false].
Proof.
  intros Hquiet Hrepo Hfile Htorn.
  destruct (sim_clock_tick (world s)) as (Hfaults & Hrepos & Hlogin).
  unfold ApiServer.update_readme, try_then.
  rewrite (get_contents_quiet s Hquiet repo "README.md" r Hrepo), Hfile.
  unfold lift, bytes_decode. cbn [decoded_content]. rewrite Htorn.
  unfold bind. rewrite utcnow_spec. cbn [world trace pending].
  erewrite create_file_quiet; cbn [world]; [|congruence|rewrite Hrepos; exact Hrepo].
  rewrite Hfile. eexists. split; [reflexivity|].
  split; [|cbn [trace]; rewrite <- app_assoc; reflexivity].
  unfold evolves. cbn [world pending]. rewrite Hrepos, Hfaults, Hlogin.
  rewrite insert_id by exact Hrepo. done.
Qed.

(** The README block of [src/server.py] on the simulated account. *)
Lemma server_update_readme_quiet (repo : Repository) (task_name : string)
    (brief : string) (r : sim_repo) (s : state sim) :
  sim_faults (world s) = [] ->
  sim_repos (world s) !! repo_name repo = Some r ->
  exists s' message,
    Server.update_readme repo task_name brief s = (s', Ok tt) /\
    evolves (repo_name repo)
      (commit_to r message "README.md"
         ("# " +:+ task_name +:+ nl +:+ nl +:+ "Brief:" +:+ nl +:+ brief +:+ nl +:+ nl
            +:+ "Updated: " +:+ (clock_utcnow (world s)).2))
      s s'.
Proof.
  intros Hquiet Hrepo.
  destruct (sim_clock_tick (world s)) as (Hfaults & Hrepos & Hlogin).
  unfold Server.update_readme. unfold bind at 1. rewrite utcnow_spec.
  unfold try_except, bind.
  erewrite get_contents_quiet; cbn [world]; [|congruence|rewrite Hrepos; exact Hrepo].
  destruct (sr_files r !! "README.md") as [existing|] eqn:Hfile.
  - cbn [world trace pending cf_path cf_sha decoded_content].
    erewrite update_file_quiet; cbn [world];
      [|congruence|rewrite Hrepos; exact Hrepo|exact Hfile].
    eexists _, _. split; [reflexivity|].
    unfold evolves, with_repos. cbn [world pending sim_faults sim_repos sim_login].
    rewrite Hrepos. repeat split; first [reflexivity|congruence].
  - erewrite create_file_quiet; cbn [world]; [|congruence|rewrite Hrepos; exact Hrepo].
    rewrite Hfile.
    eexists _, _. split; [reflexivity|].
    unfold evolves, with_repos. cbn [world pending sim_faults sim_repos sim_login].
    rewrite Hrepos. repeat split; first [reflexivity|congruence].
Qed.


Lemma bind_ok {W A B} (m : M W A) (k : A -> M W B) (s s1 : state W) (a : A) :
  m s = (s1, Ok a) -> bind m k s = k a s1.
Proof. unfold bind. intros ->. reflexivity. Qed.

Lemma bind_raised {W A B} (m : M W A) (k : A -> M W B) (s s1 : state W) (e : exn) :
  m s = (s1, Raised e) -> bind m k s = (s1, Raised e).
Proof. unfold bind. intros ->. reflexivity. Qed.

(** The LICENSE block: in round 1 the file is created unless it is there
    already, and a refusal is swallowed. *)
Lemma add_license_quiet (repo : Repository) (round_index : Z) (r : sim_repo)
    (s : state sim) :
  sim_faults (world s) = [] ->
  sim_repos (world s) !! repo_name repo = Some r ->
  exists s' r',
    add_license repo round_index s = (s', Ok tt) /\
    evolves (repo_name repo) r' s s' /\
    sr_private r' = sr_private r /\
    (forall path, is_Some (sr_files r !! path) -> is_Some (sr_files r' !! path)) /\
    (sr_commits r <> [] -> sr_commits r' <> []) /\
    (round_index = 1 -> is_Some (sr_files r' !! "LICENSE")).
Proof.
  intros Hquiet Hrepo. unfold add_license.
  destruct (round_index =? 1) eqn:Hround.
  - unfold try_except.
    rewrite (create_file_quiet s Hquiet repo "LICENSE" _ _ r Hrepo).
    destruct (sr_files r !! "LICENSE") as [old|] eqn:Hfile.
    + exists (State (world s)
                (trace s ++ [Event (CreateFile (repo_name repo) "LICENSE"
                   "Add MIT License" ("MIT License" +:+ nl +:+ nl +:+ "Copyright (c) ...")) false])
                (pending s)), r.
      split; [reflexivity|]. split; [by apply evolves_same_world|].
      repeat split; eauto.
    + eexists _, _. split; [reflexivity|]. split; [unfold evolves; simpl; done|].
      cbn [commit_to sr_private sr_files sr_commits].
      split; [reflexivity|]. split; [|split; [done|]].
      * intros path [data Hdata]. destruct (decide ("LICENSE" = path)) as [<-|Hne].
        -- rewrite lookup_insert_eq. eauto.
        -- rewrite lookup_insert_ne by done. eauto.
      * intros _. rewrite lookup_insert_eq. eauto.
  - exists s, r. split; [reflexivity|]. split; [by apply evolves_refl|].
    repeat split; eauto. intros ->. discriminate.
Qed.

Lemma sync_result_quiet (repo : Repository) (task_name : string) (r : sim_repo)
    (c : commit) (older : list commit) (s : state sim) :
  sim_faults (world s) = [] ->
  sim_repos (world s) !! repo_name repo = Some r ->
  sr_commits r = c :: older ->
  sync_result repo task_name s =
    (State (world s) (trace s ++ [Event (GetCommits (repo_name repo)) true]) (pending s),
     Ok (html_url repo, c_sha c,
         "https://" +:+ sim_login (world s) +:+ ".github.io/" +:+ task_name +:+ "/")).
Proof.
  intros Hquiet Hrepo Hcommits. unfold sync_result.
  rewrite (bind_ok _ _ _ _ _ (get_commits_quiet s Hquiet repo r Hrepo)).
  rewrite Hcommits. reflexivity.
Qed.

(** The resolution of the repository on the simulated account. *)
Lemma resolve_repo_quiet (task_name : string) (round_index : Z) (s : state sim) :
  sim_faults (world s) = [] ->
  resolve_repo task_name round_index s =
    match sim_repos (world s) !! task_name with
    | Some _ =>
        (State (world s) (trace s ++ [Event (GetRepo task_name) true]) (pending s),
         Ok (sim_handle (world s) task_name))
    | None =>
        if round_index =? 1 then
          (State
             (with_repos (world s)
                (<[task_name := {| sr_private := false; sr_files := ∅; sr_commits := [] |}]>
                   (sim_repos (world s))))
             (trace s ++ [Event (GetRepo task_name) false;
                          Event (CreateRepo task_name false) true])
             (pending s),
           Ok (sim_handle (world s) task_name))
        else
          (State (world s) (trace s ++ [Event (GetRepo task_name) false]) (pending s),
           Raised (RuntimeError ("Repo " +:+ task_name +:+ " does not exist for round "
                                 +:+ str_of_int round_index)))
    end.
Proof.
  intros Hquiet. unfold resolve_repo, try_except.
  rewrite (get_repo_quiet s Hquiet).
  destruct (sim_repos (world s) !! task_name) eqn:Hrepo; [reflexivity|].
  destruct (round_index =? 1); [|reflexivity].
  erewrite create_repo_quiet; [|exact Hquiet|exact Hrepo].
  simpl. rewrite <- app_assoc. reflexivity.
Qed.

Lemma init_or_update_repo_unfold {W : Type} `{Env W} (p : program)
    (task_name : string) (round_index : Z) (brief : string)
    (attachments : list Attachment) :
  init_or_update_repo p task_name round_index brief attachments =
    (repo <- resolve_repo task_name round_index;;
     upsert_attachments repo attachments;;;
     update_readme p repo task_name round_index brief;;;
     add_license repo round_index;;;
     sync_result repo task_name).
Proof. destruct p; reflexivity. Qed.

Lemma update_readme_quiet (p : program) (repo : Repository) (task_name : string)
    (round_index : Z) (brief : string) (r : sim_repo) (s : state sim) :
  sim_faults (world s) = [] ->
  sim_repos (world s) !! repo_name repo = Some r ->
  readme_decodes p r ->
  exists s' message text,
    update_readme p repo task_name round_index brief s = (s', Ok tt) /\
    evolves (repo_name repo) (commit_to r message "README.md" text) s s'.
Proof.
  intros Hquiet Hrepo Htext. destruct p; simpl.
  - destruct (api_update_readme_quiet repo task_name round_index brief r s Hquiet Hrepo
                (Htext eq_refl)) as (s' & message & Hrun & Hev); eauto.
  - destruct (server_update_readme_quiet repo task_name brief r s Hquiet Hrepo)
      as (s' & message & Hrun & Hev); eauto.
Qed.

(** Once the repository is resolved, every attachment decodes and the
    README.md the loop leaves is text where the program decodes it, the
    synchronization runs to its end. *)
Lemma synchronize_after_resolution (p : program) (task_name : string)
    (round_index : Z) (brief : string) (attachments : list Attachment)
    (repo : Repository) (r : sim_repo) (s s1 : state sim) :
  resolve_repo task_name round_index s = (s1, Ok repo) ->
  sim_faults (world s1) = [] ->
  sim_repos (world s1) !! repo_name repo = Some r ->
  Forall decodable attachments ->
  readme_decodes p (foldl upserted r attachments) ->
  exists s' r' commit_sha,
    init_or_update_repo p task_name round_index brief attachments s =
      (s', Ok (html_url repo, commit_sha,
               "https://" +:+ sim_login (world s1) +:+ ".github.io/" +:+ task_name +:+ "/")) /\
    evolves (repo_name repo) r' s1 s' /\
    sr_private r' = sr_private r /\
    (forall path, is_Some (sr_files (foldl upserted r attachments) !! path) ->
                  is_Some (sr_files r' !! path)) /\
    is_Some (sr_files r' !! "README.md") /\
    (round_index = 1 -> is_Some (sr_files r' !! "LICENSE")).
Proof.
  intros Hresolve Hquiet Hrepo Hdec Htext.
  destruct (upsert_attachments_evolves repo attachments r s1 Hquiet Hrepo Hdec)
    as (s2 & Hrun2 & Hev2 & _).
  destruct (update_readme_quiet p repo task_name round_index brief _ s2
              (proj1 Hev2) (evolves_lookup _ _ _ _ Hev2) Htext)
    as (s3 & message & text & Hrun3 & Hev3).
  destruct (add_license_quiet repo round_index _ s3
              (proj1 Hev3) (evolves_lookup _ _ _ _ Hev3))
    as (s4 & r4 & Hrun4 & Hev4 & Hprivate & Hkeeps & Hcommits & Hlicense).
  destruct (sr_commits r4) as [|c older] eqn:Hlog; [exfalso; by apply Hcommits|].
  exists (State (world s4) (trace s4 ++ [Event (GetCommits (repo_name repo)) true])
            (pending s4)), r4, (c_sha c).
  split.
  - rewrite init_or_update_repo_unfold.
    rewrite (bind_ok _ _ _ _ _ Hresolve), (bind_ok _ _ _ _ _ Hrun2),
      (bind_ok _ _ _ _ _ Hrun3), (bind_ok _ _ _ _ _ Hrun4).
    rewrite (sync_result_quiet repo task_name r4 c older s4 (proj1 Hev4)
               (evolves_lookup _ _ _ _ Hev4) Hlog).
    destruct Hev2 as (_ & _ & Hl2 & _), Hev3 as (_ & _ & Hl3 & _),
      Hev4 as (_ & _ & Hl4 & _).
    rewrite Hl4, Hl3, Hl2. reflexivity.
  - split.
    { pose proof (evolves_trans _ _ _ _ _ _ (evolves_trans _ _ _ _ _ _ Hev2 Hev3) Hev4)
        as (Hq & Hr & Hl & Hp).
      unfold evolves. simpl. done. }
    split; [rewrite Hprivate; simpl; apply foldl_upserted_private|].
    split; [|split; [|exact Hlicense]].
    + intros path [data Hdata]. apply Hkeeps. simpl.
      destruct (decide ("README.md" = path)) as [<-|Hne].
      * rewrite lookup_insert_eq. eauto.
      * rewrite lookup_insert_ne by done. eauto.
    + apply Hkeeps. simpl. rewrite lookup_insert_eq. eauto.
Qed.

Lemma upsert_attachments_app {W : Type} `{Env W} (repo : Repository)
    (before after : list Attachment) (s : state W) :
  upsert_attachments repo (before ++ after) s =
    (upsert_attachments repo before;;; upsert_attachments repo after) s.
Proof.
  revert s. induction before as [|attach rest IH]; intros s; simpl.
  - reflexivity.
  - unfold bind in *.
    destruct (upsert_attachment repo attach s) as [s1 [[]|e]]; [|reflexivity].
    apply IH.
Qed.

(** The decoder raises nothing but [binascii.Error]. *)
Lemma a2b_base64_loop_error (data : string) :
  forall (quad_pos leftchar pads : Z) (bin_data : string) (e : exn),
  a2b_base64_loop data quad_pos leftchar pads bin_data = Raised e -> e = BinasciiError.
Proof.
  induction data as [|this_ch rest IH]; intros quad_pos leftchar pads bin_data e; simpl.
  - destruct (quad_pos =? 0); congruence.
  - repeat case_match; try discriminate; apply IH.
Qed.

(** An attachment that does not decode stops the loop where it stands: the
    attachments before it have been written, nothing after it is looked
    at. *)
Lemma upsert_attachments_undecodable (repo : Repository)
    (before after : list Attachment) (bad : Attachment) (r : sim_repo)
    (s : state sim) :
  sim_faults (world s) = [] ->
  sim_repos (world s) !! repo_name repo = Some r ->
  Forall decodable before ->
  ~ decodable bad ->
  exists s',
    upsert_attachments repo (before ++ bad :: after) s = (s', Raised BinasciiError) /\
    evolves (repo_name repo) (foldl upserted r before) s s'.
Proof.
  intros Hquiet Hrepo Hdec Hbad.
  destruct (upsert_attachments_evolves repo before r s Hquiet Hrepo Hdec)
    as (s1 & Hrun1 & Hev1 & _).
  exists s1. split; [|exact Hev1].
  rewrite upsert_attachments_app, (bind_ok _ _ _ _ _ Hrun1). simpl.
  unfold bind at 1. unfold upsert_attachment, bind at 1, lift.
  unfold decodable in Hbad.
  destruct (b64decode (content bad)) as [data|e] eqn:Hdata; [by destruct Hbad|].
  apply a2b_base64_loop_error in Hdata as ->. reflexivity.
Qed.

(** Where the content of a path comes from after the loop. *)
Lemma foldl_insert_cases (attachments : list Attachment) (path data : string) :
  forall files : gmap string string,
  foldl (fun files attach => <[filename attach := decoded attach]> files)
    files attachments !! path = Some data ->
  files !! path = Some data \/
  exists attach, attach ∈ attachments /\ filename attach = path /\ decoded attach = data.
Proof.
  induction attachments as [|first rest IH]; intros files Hlookup; simpl in Hlookup.
  - by left.
  - destruct (IH _ Hlookup) as [Hfirst|(attach & Hin & Hname & Hdata)].
    + destruct (decide (filename first = path)) as [Heq|Hne].
      * rewrite <- Heq, lookup_insert_eq in Hfirst. injection Hfirst as Hdata.
        right. exists first. split; [apply list_elem_of_here|done].
      * rewrite lookup_insert_ne in Hfirst by done. by left.
    + right. exists attach. split; [by apply list_elem_of_further|done].
Qed.

(** README.md is text after the loop when it was text before and every
    attachment that names it decodes to text. *)
Lemma readme_is_text_after_loop (attachments : list Attachment) (r : sim_repo) :
  readme_is_text r ->
  (forall attach, attach ∈ attachments -> filename attach = "README.md" ->
                  utf8_valid (decoded attach) = true) ->
  readme_is_text (foldl upserted r attachments).
Proof.
  intros Hbefore Hsent existing Hlookup. rewrite foldl_upserted_files in Hlookup.
  destruct (foldl_insert_cases _ _ _ _ Hlookup) as [Hold|(attach & Hin & Hname & <-)].
  - by apply Hbefore.
  - by apply Hsent.
Qed.

Lemma decodable_split (attachments : list Attachment) :
  Forall decodable attachments \/
  exists before bad after,
    attachments = before ++ bad :: after /\ Forall decodable before /\ ~ decodable bad.
Proof.
  induction attachments as [|attach rest IH]; [left; constructor|].
  destruct (is_ok (b64decode (content attach))) eqn:Hhead.
  - destruct IH as [Hall|(before & bad & after & -> & Hbefore & Hbad)].
    + left. by constructor.
    + right. exists (attach :: before), bad, after. repeat split; [by constructor|done].
  - right. exists [], attach, rest. repeat split; [constructor|].
    unfold decodable. rewrite Hhead. discriminate.
Qed.

(** Whatever the attachments and however the synchronization ends, the
    repository it resolved is still in the account afterwards, with the
    visibility it had. *)
Lemma synchronize_keeps_repository (p : program) (task_name : string)
    (round_index : Z) (brief : string) (attachments : list Attachment)
    (repo : Repository) (r : sim_repo) (s s1 : state sim) :
  resolve_repo task_name round_index s = (s1, Ok repo) ->
  sim_faults (world s1) = [] ->
  sim_repos (world s1) !! repo_name repo = Some r ->
  exists s' outcome r',
    init_or_update_repo p task_name round_index brief attachments s = (s', outcome) /\
    evolves (repo_name repo) r' s1 s' /\
    sr_private r' = sr_private r.
Proof.
  intros Hresolve Hquiet Hrepo.
  destruct (decodable_split attachments)
    as [Hdec|(before & bad & after & -> & Hbefore & Hbad)].
  - assert (Hcases : readme_decodes p (foldl upserted r attachments) \/
              (p = api_server_py /\ exists existing,
                 sr_files (foldl upserted r attachments) !! "README.md" = Some existing /\
                 utf8_valid existing = false)).
    { destruct p; [|left; intros Hp; discriminate Hp].
      destruct (sr_files (foldl upserted r attachments) !! "README.md")
        as [existing|] eqn:Hfile.
      - destruct (utf8_valid existing) eqn:Hvalid.
        + left. intros _ other Hother. congruence.
        + right. eauto.
      - left. intros _ other Hother. congruence. }
    destruct Hcases as [Htext|(-> & existing & Hfile & Htorn)].
    + destruct (synchronize_after_resolution p task_name round_index brief attachments
                  repo r s s1 Hresolve Hquiet Hrepo Hdec Htext)
        as (s' & r' & commit_sha & Hrun & Hev & Hprivate & _).
      eexists s', _, r'. split; [exact Hrun|]. split; [exact Hev|exact Hprivate].
    + destruct (upsert_attachments_evolves repo attachments r s1 Hquiet Hrepo Hdec)
        as (s2 & Hrun2 & Hev2 & _).
      destruct (api_update_readme_torn repo task_name round_index brief _ existing s2
                  (proj1 Hev2) (evolves_lookup _ _ _ _ Hev2) Hfile Htorn)
        as (s3 & Hrun3 & Hev3 & _).
      eexists s3, _, _. split.
      * rewrite init_or_update_repo_unfold, (bind_ok _ _ _ _ _ Hresolve),
          (bind_ok _ _ _ _ _ Hrun2).
        apply bind_raised. exact Hrun3.
      * split; [eapply evolves_trans; eassumption|apply foldl_upserted_private].
  - destruct (upsert_attachments_undecodable _ before after bad r s1
                Hquiet Hrepo Hbefore Hbad) as (s' & Hrun & Hev).
    eexists s', _, _. split.
    + rewrite init_or_update_repo_unfold, (bind_ok _ _ _ _ _ Hresolve).
      rewrite (bind_raised _ _ _ _ _ Hrun). reflexivity.
    + split; [exact Hev|apply foldl_upserted_private].
Qed.

(** C2. On the simulated account with no fault scheduled, when the account
    has no repository named after the task: in round 1 the synchronizer
    creates it, public, and goes on.  Whatever the outcome, the repository
    is in the account afterwards, public; and when every attachment decodes
    (and, for [src/api/server.py], which decodes the README.md it finds,
    every attachment named README.md carries text), the synchronization
    returns the repository URL, a commit id and the pages URL, with the
    attachments, README.md and LICENSE in the repository.  In a round
    greater than 1 it raises the [RuntimeError] that says the repository
    does not exist, having only looked the repository up: the account is as
    it was, nothing is created and no file is written. *)
Theorem missing_repository (p : program) (task_name : string) (round_index : Z)
    (brief : string) (attachments : list Attachment) (s : state sim) :
  sim_faults (world s) = [] ->
  sim_repos (world s) !! task_name = None ->
  (round_index = 1 ->
     (exists s' outcome r',
        init_or_update_repo p task_name round_index brief attachments s = (s', outcome) /\
        sim_repos (world s') !! task_name = Some r' /\
        sr_private r' = false) /\
     (Forall decodable attachments ->
      (p = api_server_py ->
       forall attach, attach ∈ attachments -> filename attach = "README.md" ->
                      utf8_valid (decoded attach) = true) ->
      exists s' r' commit_sha,
        init_or_update_repo p task_name round_index brief attachments s =
          (s', Ok ("https://github.com/" +:+ sim_login (world s) +:+ "/" +:+ task_name,
                   commit_sha,
                   "https://" +:+ sim_login (world s) +:+ ".github.io/" +:+ task_name
                     +:+ "/")) /\
        sim_repos (world s') = <[task_name := r']> (sim_repos (world s)) /\
        sr_private r' = false /\
        (forall attach, attach ∈ attachments -> is_Some (sr_files r' !! filename attach)) /\
        is_Some (sr_files r' !! "README.md") /\
        is_Some (sr_files r' !! "LICENSE"))) /\
  (1 < round_index ->
     init_or_update_repo p task_name round_index brief attachments s =
       (State (world s) (trace s ++ [Event (GetRepo task_name) false]) (pending s),
        Raised (RuntimeError ("Repo " +:+ task_name +:+ " does not exist for round "
                              +:+ str_of_int round_index)))).
Proof.
  intros Hquiet Habsent.
  pose proof (resolve_repo_quiet task_name round_index s Hquiet) as Hresolve.
  rewrite Habsent in Hresolve.
  split.
  - intros ->. simpl in Hresolve.
    set (fresh := {| sr_private := false; sr_files := ∅; sr_commits := [] |}) in *.
    set (s1 := State (with_repos (world s) (<[task_name := fresh]> (sim_repos (world s))))
                 (trace s ++ [Event (GetRepo task_name) false;
                              Event (CreateRepo task_name false) true])
                 (pending s)) in *.
    assert (Hquiet1 : sim_faults (world s1) = []) by exact Hquiet.
    assert (Hrepo1 : sim_repos (world s1) !! repo_name (sim_handle (world s) task_name)
                     = Some fresh) by apply lookup_insert_eq.
    split.
    + destruct (synchronize_keeps_repository p task_name 1 brief attachments _ fresh s s1
                  Hresolve Hquiet1 Hrepo1) as (s' & outcome & r' & Hrun & Hev & Hprivate).
      exists s', outcome, r'. split; [exact Hrun|].
      split; [eapply evolves_lookup; exact Hev|exact Hprivate].
    + intros Hdec Hsent.
      assert (Htext : readme_decodes p (foldl upserted fresh attachments)).
      { intros Hp. apply readme_is_text_after_loop; [|by apply Hsent].
        intros existing Hnone. subst fresh. simpl in Hnone.
        rewrite lookup_empty in Hnone. discriminate. }
      destruct (synchronize_after_resolution p task_name 1 brief attachments _ fresh s s1
                  Hresolve Hquiet1 Hrepo1 Hdec Htext)
        as (s' & r' & commit_sha & Hrun & Hev & Hprivate & Hfiles & Hreadme & Hlicense).
      exists s', r', commit_sha. split; [exact Hrun|].
      destruct Hev as (_ & Hrepos & _). simpl in Hrepos.
      split; [rewrite Hrepos; apply insert_insert_eq|].
      split; [exact Hprivate|]. split; [|split; [exact Hreadme|by apply Hlicense]].
      intros attach Hin. apply Hfiles. rewrite foldl_upserted_files.
      apply foldl_insert_named. apply list_elem_of_fmap. eauto.
  - intros Hround. assert (Hne : (round_index =? 1) = false) by lia.
    rewrite Hne in Hresolve.
    rewrite init_or_update_repo_unfold, (bind_raised _ _ _ _ _ Hresolve). reflexivity.
Qed.

Lemma foldl_upserted_length (attachments : list Attachment) (r : sim_repo) :
  List.length (sr_commits (foldl upserted r attachments)) =
    (List.length (sr_commits r) + List.length attachments)%nat.
Proof.
  destruct (foldl_upserted_commits attachments r) as (new & -> & Hlen & _).
  rewrite length_app, length_rev. lia.
Qed.

Lemma handle_request_raises {W : Type} `{Env W} (d : deployment)
    (payload : RequestPayload) (s s' : state W) (e : exn) :
  secret payload = configured_secret d ->
  init_or_update_repo (program_of d) (task payload) (round payload) (brief payload)
    (attachments payload) s = (s', Raised e) ->
  handle_request d payload s = (s', Raised e).
Proof.
  intros Hsecret Hsync. apply String.eqb_eq in Hsecret.
  destruct d as [cfg|cfg]; simpl in *.
  - unfold ApiServer.handle_request. rewrite Hsecret. simpl.
    apply bind_raised. exact Hsync.
  - unfold Server.handle_request. rewrite Hsecret. simpl.
    apply bind_raised. exact Hsync.
Qed.

(** C10. On the simulated account with no fault scheduled, take a
    submission with the right secret whose repository exists or whose round
    is 1, and whose attachments are [before], then one whose content is not
    valid base64, then [after].  The handler raises [binascii.Error] (the
    framework answers 500), and it does so late: the repository is in the
    account (found, or created by this request), each attachment of [before]
    has been committed to it, and nothing else has. *)
Theorem undecodable_attachment_partial_writes (d : deployment)
    (payload : RequestPayload) (before after : list Attachment) (bad : Attachment)
    (s : state sim) :
  secret payload = configured_secret d ->
  sim_faults (world s) = [] ->
  is_Some (sim_repos (world s) !! task payload) \/ round payload = 1 ->
  attachments payload = before ++ bad :: after ->
  Forall decodable before ->
  ~ decodable bad ->
  let r := default {| sr_private := false; sr_files := ∅; sr_commits := [] |}
             (sim_repos (world s) !! task payload) in
  exists s' r',
    handle_request d payload s = (s', Raised BinasciiError) /\
    route (handle_request d payload) s = (s', InternalServerError 500) /\
    sim_repos (world s') = <[task payload := r']> (sim_repos (world s)) /\
    sr_files r' =
      foldl (fun files attach => <[filename attach := decoded attach]> files)
        (sr_files r) before /\
    List.length (sr_commits r') = (List.length (sr_commits r) + List.length before)%nat.
Proof.
  intros Hsecret Hquiet Hresolvable Hsplit Hbefore Hbad r.
  pose proof (resolve_repo_quiet (task payload) (round payload) s Hquiet) as Hresolve.
  assert (Hsync : exists s' r',
    init_or_update_repo (program_of d) (task payload) (round payload) (brief payload)
      (attachments payload) s = (s', Raised BinasciiError) /\
    sim_repos (world s') = <[task payload := r']> (sim_repos (world s)) /\
    r' = foldl upserted r before).
  { rewrite Hsplit, init_or_update_repo_unfold. subst r.
    destruct (sim_repos (world s) !! task payload) as [r0|] eqn:Hrepo; simpl.
    - edestruct (upsert_attachments_undecodable (sim_handle (world s) (task payload))
                   before after bad r0) as (s' & Hrun & Hev);
        [| |exact Hbefore|exact Hbad|]; cycle 2.
      + exists s', (foldl upserted r0 before).
        rewrite (bind_ok _ _ _ _ _ Hresolve), (bind_raised _ _ _ _ _ Hrun).
        split; [reflexivity|]. split; [|reflexivity]. apply Hev.
      + exact Hquiet.
      + exact Hrepo.
    - destruct Hresolvable as [[? ?]|Hround]; [discriminate|].
      rewrite Hround in *. simpl in Hresolve.
      edestruct (upsert_attachments_undecodable (sim_handle (world s) (task payload))
                   before after bad) as (s' & Hrun & Hev);
        [| |exact Hbefore|exact Hbad|]; cycle 2.
      + eexists s', _.
        rewrite (bind_ok _ _ _ _ _ Hresolve), (bind_raised _ _ _ _ _ Hrun).
        split; [reflexivity|]. split; [|reflexivity].
        destruct Hev as (_ & -> & _). simpl. apply insert_insert_eq.
      + exact Hquiet.
      + simpl. apply lookup_insert_eq. }
  destruct Hsync as (s' & r' & Hrun & Hrepos & ->).
  pose proof (handle_request_raises d payload s s' _ Hsecret Hrun) as Hhandle.
  exists s', (foldl upserted r before).
  split; [exact Hhandle|]. split; [unfold route; rewrite Hhandle; reflexivity|].
  split; [exact Hrepos|]. split; [apply foldl_upserted_files|apply foldl_upserted_length].
Qed.

(** ** Failures inside the attachment loop, for any collaborators *)

Section UpsertFailures.
Context {W : Type} `{Env W}.

(** One pass of the loop body has one of five shapes. *)
Lemma upsert_attachment_pass (repo : Repository) (attach : Attachment)
    (data : string) (s s' : state W) (outcome : result unit) :
  b64decode (content attach) = Ok data ->
  upsert_attachment repo attach s = (s', outcome) ->
  exists new,
    trace s' = trace s ++ new /\
    upsert_pass (repo_name repo) attach data new outcome.
Proof.
  intros Hdata. unfold upsert_attachment. rewrite Hdata.
  unfold bind at 1, lift. unfold try_except, bind, get_contents, update_file, create_file.
  rewrite !perform_spec.
  destruct (github_get_contents repo (filename attach) (world s))
    as [w1 [repo_file|e1]]; cbn [fst snd world trace pending is_ok].
  - rewrite ?perform_spec. cbn [fst snd world trace pending is_ok].
    destruct (github_update_file repo (cf_path repo_file) _ data (cf_sha repo_file) w1)
      as [w2 [[]|e2]]; cbn [fst snd world trace pending is_ok].
    + intros [= <- <-]. eexists. cbn [trace]. rewrite <- app_assoc.
      split; [reflexivity|]. constructor.
    + rewrite ?perform_spec. cbn [fst snd world trace pending is_ok].
      destruct (github_create_file repo (filename attach) _ data w2)
        as [w3 [[]|e3]]; cbn [fst snd is_ok]; intros [= <- <-];
        eexists; cbn [trace]; rewrite <- !app_assoc;
        (split; [reflexivity|]); constructor.
  - rewrite perform_spec. cbn [fst snd world trace pending is_ok].
    destruct (github_create_file repo (filename attach) _ data w1)
      as [w3 [[]|e3]]; cbn [fst snd is_ok]; intros [= <- <-];
      eexists; cbn [trace]; rewrite <- !app_assoc;
      (split; [reflexivity|]); constructor.
Qed.

(** What a pass raises leaves [init_or_update_repo] as it is. *)
Lemma upsert_raise_aborts (p : program) (task_name : string) (round_index : Z)
    (brief : string) (before after : list Attachment) (attach : Attachment)
    (repo : Repository) (s s1 s2 s3 : state W) (e : exn) :
  resolve_repo task_name round_index s = (s1, Ok repo) ->
  upsert_attachments repo before s1 = (s2, Ok tt) ->
  upsert_attachment repo attach s2 = (s3, Raised e) ->
  init_or_update_repo p task_name round_index brief (before ++ attach :: after) s =
    (s3, Raised e).
Proof.
  intros Hresolve Hbefore Hpass.
  rewrite init_or_update_repo_unfold, (bind_ok _ _ _ _ _ Hresolve).
  apply bind_raised. rewrite upsert_attachments_app, (bind_ok _ _ _ _ _ Hbefore).
  simpl. apply bind_raised. exact Hpass.
Qed.
End UpsertFailures.

(** C4, as amended.  In one pass of the attachment loop, for any
    collaborators: a failure of the lookup or of the update is caught and
    answered with a create call for the same filename, and only a failure of
    that create call ends the pass with an exception; so the pass ends with a
    successful update, with a successful create, or by raising.  What the
    pass raises is raised by [init_or_update_repo] itself, in the state the
    pass left: no later attachment, README or LICENSE is processed. *)
Theorem upsert_failure_policy {W : Type} `{Env W} (p : program)
    (task_name : string) (round_index : Z) (brief : string)
    (before after : list Attachment) (attach : Attachment) (data : string)
    (repo : Repository) (s s1 s2 s3 : state W) (outcome : result unit) :
  resolve_repo task_name round_index s = (s1, Ok repo) ->
  upsert_attachments repo before s1 = (s2, Ok tt) ->
  b64decode (content attach) = Ok data ->
  upsert_attachment repo attach s2 = (s3, outcome) ->
  (exists new,
     trace s3 = trace s2 ++ new /\
     upsert_pass (repo_name repo) attach data new outcome) /\
  (forall e, outcome = Raised e ->
     init_or_update_repo p task_name round_index brief (before ++ attach :: after) s =
       (s3, Raised e)).
Proof.
  intros Hresolve Hbefore Hdata Hpass. split.
  - eapply upsert_attachment_pass; eassumption.
  - intros e ->. eapply upsert_raise_aborts; eassumption.
Qed.

(** C4 fails as stated: in round 2 of the demo task, with index.html deleted
    by another client between the lookup and the update, the update call
    fails, the failure is caught, the create call succeeds, and the
    synchronization returns normally in both programs. *)
Lemma caught_update_failure :
  (exists s' synced,
     init_or_update_repo api_server_py "demo" 2 "second" [index_html]
       (State octo_demo_race [] []) = (s', Ok synced) /\
     existsb update_failed (trace s') = true /\
     existsb create_failed (trace s') = false /\
     files_of (world s') "demo" ≫= lookup "index.html" = Some "<h1>hi</h1>") /\
  (exists s' synced,
     init_or_update_repo server_py "demo" 2 "second" [index_html]
       (State octo_demo_race [] []) = (s', Ok synced) /\
     existsb update_failed (trace s') = true /\
     existsb create_failed (trace s') = false /\
     files_of (world s') "demo" ≫= lookup "index.html" = Some "<h1>hi</h1>").
Proof.
  split; eexists _, _; (split; [vm_compute; reflexivity|]);
    vm_compute; repeat split.
Qed.

(** ** The properties at work on the scenarios *)

Lemma demo_repo_readme_is_text : readme_is_text demo_repo.
Proof. intros existing Hfile. vm_compute in Hfile. injection Hfile as <-. reflexivity. Qed.

Lemma invalid_secret_no_side_effects_witness :
  secret (submission "guess" 1 [index_html]) <> configured_secret (VercelApi api_config) /\
  secret (submission "guess" 1 [index_html]) <> configured_secret (LocalServer server_config) /\
  route (handle_request (VercelApi api_config) (submission "guess" 1 [index_html]))
    (State octo_empty [] []) =
    (State octo_empty [] [], JSONResponse 200 [("error", "Invalid secret")]) /\
  route (handle_request (LocalServer server_config) (submission "guess" 1 [index_html]))
    (State octo_empty [] []) =
    (State octo_empty [] [], JSONResponse 200 [("error", "Invalid secret")]).
Proof.
  split; [vm_compute; discriminate|]. split; [vm_compute; discriminate|].
  split; apply invalid_secret_no_side_effects; vm_compute; discriminate.
Defined.

Lemma missing_repository_witness :
  (exists s' r' commit_sha,
     init_or_update_repo api_server_py "demo" 1 "initial" [index_html; style_css]
       (State octo_empty [] []) =
       (s', Ok ("https://github.com/octo/demo", commit_sha, "https://octo.github.io/demo/")) /\
     sim_repos (world s') !! "demo" = Some r' /\
     sr_private r' = false /\
     is_Some (sr_files r' !! "index.html") /\
     is_Some (sr_files r' !! "style.css") /\
     is_Some (sr_files r' !! "README.md") /\
     is_Some (sr_files r' !! "LICENSE")) /\
  init_or_update_repo server_py "demo" 2 "second" [index_html] (State octo_empty [] []) =
    (State octo_empty [Event (GetRepo "demo") false] [],
     Raised (RuntimeError "Repo demo does not exist for round 2")).
Proof.
  split.
  - destruct (missing_repository api_server_py "demo" 1 "initial" [index_html; style_css]
                (State octo_empty [] []) eq_refl eq_refl) as [Hfirst _].
    destruct (Hfirst eq_refl) as [_ Hcomplete].
    destruct Hcomplete as (s' & r' & commit_sha & Hrun & Hrepos & Hprivate & Hfiles
                           & Hreadme & Hlicense); [repeat constructor| |].
    { intros _ attach Hin Hname.
      repeat (apply elem_of_cons in Hin as [->|Hin]; [discriminate Hname|]).
      by apply elem_of_nil in Hin. }
    exists s', r', commit_sha. split; [exact Hrun|].
    split; [rewrite Hrepos; apply lookup_insert_eq|]. split; [exact Hprivate|].
    split; [apply (Hfiles index_html); repeat constructor|].
    split; [apply (Hfiles style_css); repeat constructor|]. done.
  - apply (missing_repository server_py "demo" 2 "second" [index_html]
             (State octo_empty [] []) eq_refl eq_refl). reflexivity.
Defined.

Lemma post_evaluation_five_failures_witness :
  Forall (fun outcome => delivered outcome = false) (take 5 (sim_endpoint octo_empty)) /\
  exists s' new,
    ApiServer.post_evaluation "https://eval.example.com/notify" notification 5
      (State octo_empty [] []) = (s', Ok false) /\
    trace s' = [] ++ new /\
    ev_call <$> new =
      [Post (blocking_request "https://eval.example.com/notify" notification); Sleep 1;
       Post (blocking_request "https://eval.example.com/notify" notification); Sleep 2;
       Post (blocking_request "https://eval.example.com/notify" notification); Sleep 4;
       Post (blocking_request "https://eval.example.com/notify" notification); Sleep 8;
       Post (blocking_request "https://eval.example.com/notify" notification); Sleep 16] /\
    sleeps new = [1; 2; 4; 8; 16] /\
    List.length (posts new) = 5%nat /\
    sim_slept (world s') = 0 + 31.
Proof.
  split; [repeat constructor|].
  apply (post_evaluation_five_failures "https://eval.example.com/notify" notification
           (State octo_empty [] [])).
  repeat constructor.
Defined.

Lemma upsert_failure_policy_witness :
  let s := State octo_demo_flaky [] [] in
  let s1 := (resolve_repo "demo" 2 s).1 in
  let s3 := (upsert_attachment demo_handle index_html s1).1 in
  (exists new,
     trace s3 = trace s1 ++ new /\
     upsert_pass "demo" index_html "<h1>hi</h1>" new (Raised (GithubException 422))) /\
  init_or_update_repo api_server_py "demo" 2 "second" [index_html; style_css] s =
    (s3, Raised (GithubException 422)).
Proof.
  intros s s1 s3.
  destruct (upsert_failure_policy api_server_py "demo" 2 "second" [] [style_css]
              index_html "<h1>hi</h1>" demo_handle s s1 s1 s3
              (Raised (GithubException 422)))
    as [Hpass Habort]; [vm_compute; reflexivity ..|].
  split; [exact Hpass|exact (Habort _ eq_refl)].
Defined.


Lemma upsert_twice_same_files_witness :
  exists (s1 s2 : state sim) (r1 r2 : sim_repo),
    upsert_attachment demo_handle style_css (State octo_demo [] []) = (s1, Ok tt) /\
    upsert_attachment demo_handle style_css s1 = (s2, Ok tt) /\
    sim_repos (world s1) !! "demo" = Some r1 /\
    sim_repos (world s2) !! "demo" = Some r2 /\
    sr_files r1 !! "style.css" = Some "body{}" /\
    sr_files r2 = sr_files r1 /\
    trace s2 =
      trace s1 ++
        [Event (GetContents "demo" "style.css") true;
         Event (UpdateFile "demo" "style.css" "Update style.css" "body{}" "body{}") true].
Proof.
  exact (upsert_twice_same_files demo_handle style_css demo_repo (State octo_demo [] [])
           eq_refl eq_refl eq_refl).
Defined.

Lemma attachments_upserted_in_order_witness :
  exists (s' : state sim) (r' : sim_repo) (c0 c1 c2 : commit),
    upsert_attachments demo_handle [index_html; style_css; style_css]
      (State octo_demo [] []) = (s', Ok tt) /\
    sim_repos (world s') !! "demo" = Some r' /\
    sr_commits r' = rev [c0; c1; c2] ++ sr_commits demo_repo /\
    (c_path c0 = "index.html" /\ c_message c0 = "Update index.html") /\
    (c_path c1 = "style.css" /\ c_message c1 = "Add style.css") /\
    (c_path c2 = "style.css" /\ c_message c2 = "Update style.css") /\
    sr_files r' !! "index.html" = Some "<h1>hi</h1>" /\
    sr_files r' !! "README.md" = Some "# demo".
Proof.
  destruct (attachments_upserted_in_order demo_handle [index_html; style_css; style_css]
              demo_repo (State octo_demo [] []) eq_refl eq_refl)
    as (s' & r' & new & Hrun & Hrepo & Hcommits & Hlen & Heach & Hlast & Hother);
    [repeat constructor|].
  destruct new as [|c0 [|c1 [|c2 [|]]]]; try discriminate.
  exists s', r', c0, c1, c2.
  split; [exact Hrun|]. split; [exact Hrepo|]. split; [exact Hcommits|].
  destruct (Heach 0%nat index_html eq_refl) as (c & [= <-] & Hp0 & _ & Hm0).
  destruct (Heach 1%nat style_css eq_refl) as (c & [= <-] & Hp1 & _ & Hm1).
  destruct (Heach 2%nat style_css eq_refl) as (c & [= <-] & Hp2 & _ & Hm2).
  split; [split; [exact Hp0|exact Hm0]|].
  split; [split; [exact Hp1|exact Hm1]|].
  split; [split; [exact Hp2|exact Hm2]|].
  split.
  - apply (Hlast 0%nat index_html eq_refl). vm_compute. intros Hin.
    inversion Hin as [|? ? ? Hin']; subst. inversion Hin' as [|? ? ? Hin'']; subst.
    inversion Hin''.
  - rewrite Hother; [reflexivity|]. vm_compute. intros Hin.
    inversion Hin as [|? ? ? Hin']; subst. inversion Hin' as [|? ? ? Hin'']; subst.
    inversion Hin'' as [|? ? ? Hin3]; subst. inversion Hin3.
Defined.

Lemma dispatcher_requests_witness :
  0 < 5 /\
  (exists s' b new rq rest,
     ApiServer.post_evaluation "https://eval.example.com/notify" notification 5
       (State octo_demo [] []) = (s', Ok b) /\
     trace s' = [] ++ new /\
     posts new = rq :: rest /\
     Forall (fun rq => content_type rq = "application/json" /\ req_timeout rq = None)
       (rq :: rest)) /\
  (exists s' rq ok,
     Server.post_evaluation_async "https://eval.example.com/notify" notification
       (State octo_demo [] []) = (s', Ok tt) /\
     trace s' = [] ++ [Event (Post rq) ok] /\
     content_type rq = "application/json" /\ req_timeout rq = Some 10).
Proof.
  split; [lia|].
  apply (dispatcher_requests "https://eval.example.com/notify" notification 5
           (State octo_demo [] [])).
  lia.
Defined.

Lemma startup_configuration_witness :
  (exists msg, start server_py {["SECRET_FORM" := "form-secret"]} = Raised (RuntimeError msg)) /\
  (exists d,
     start api_server_py
       (<["GITHUB_TOKEN" := "ghp_token"]> {["SECRET_FORM" := "form-secret"]}) = Ok d /\
     configured_secret d = "form-secret") /\
  (exists d,
     start api_server_py {["GITHUB_TOKEN" := "ghp_token"]} = Ok d /\
     configured_secret d = "Ojal2") /\
  (exists d,
     start server_py
       (<["GITHUB_TOKEN" := "ghp_token"]> {["SECRET_FORM" := "form-secret"]}) = Ok d /\
     configured_secret d = "Ojal2").
Proof.
  split; [apply (proj1 (startup_configuration server_py {["SECRET_FORM" := "form-secret"]}));
          reflexivity|].
  split; [|split].
  - assert (Hstart :
      start api_server_py
        (<["GITHUB_TOKEN" := "ghp_token"]> {["SECRET_FORM" := "form-secret"]}) =
      Ok (VercelApi api_config)) by reflexivity.
    exists (VercelApi api_config). split; [exact Hstart|].
    exact (proj2 (proj2 (startup_configuration _ _) _ Hstart)).
  - assert (Hstart :
      start api_server_py {["GITHUB_TOKEN" := "ghp_token"]} =
      Ok (VercelApi {| ApiServer.GITHUB_TOKEN := "ghp_token";
                       ApiServer.SECRET_FORM := "Ojal2" |})) by reflexivity.
    eexists. split; [exact Hstart|].
    exact (proj2 (proj2 (startup_configuration _ _) _ Hstart)).
  - assert (Hstart :
      start server_py
        (<["GITHUB_TOKEN" := "ghp_token"]> {["SECRET_FORM" := "form-secret"]}) =
      Ok (LocalServer server_config)) by reflexivity.
    exists (LocalServer server_config). split; [exact Hstart|].
    exact (proj2 (proj2 (startup_configuration _ _) _ Hstart)).
Defined.

Lemma undecodable_attachment_partial_writes_witness :
  exists s' r',
    handle_request (LocalServer server_config)
      (submission "Ojal2" 1 [index_html; broken_bin; style_css]) (State octo_empty [] []) =
      (s', Raised BinasciiError) /\
    route (handle_request (LocalServer server_config)
             (submission "Ojal2" 1 [index_html; broken_bin; style_css]))
      (State octo_empty [] []) = (s', InternalServerError 500) /\
    sim_repos (world s') = <["demo" := r']> ∅ /\
    sr_files r' = <["index.html" := "<h1>hi</h1>"]> ∅ /\
    List.length (sr_commits r') = 1%nat.
Proof.
  apply (undecodable_attachment_partial_writes (LocalServer server_config)
           (submission "Ojal2" 1 [index_html; broken_bin; style_css])
           [index_html] [style_css] broken_bin (State octo_empty [] [])).
  - reflexivity.
  - reflexivity.
  - right. reflexivity.
  - reflexivity.
  - repeat constructor.
  - vm_compute. discriminate.
Defined.

(** ** The decoder on examples *)

Example b64decode_example : b64decode "PGgxPmhpPC9oMT4=" = Ok "<h1>hi</h1>".
Proof. reflexivity. Qed.

Example b64decode_skips_foreign : b64decode "aG!k=" = Ok "hi".
Proof. reflexivity. Qed.

Example b64decode_padding : b64decode "aGk" = Raised BinasciiError.
Proof. reflexivity. Qed.

Example b64decode_excess_padding : b64decode "aGk=====" = Ok "hi".
Proof. reflexivity. Qed.

Example b64decode_one_character : b64decode "a" = Raised BinasciiError.
Proof. reflexivity. Qed.

(** * Further properties of the code *)

(** ** The synchronizer talks to the hosting service only *)

Section HostingOnly.
Context {W : Type} `{Env W}.

Lemma hosting_only_ret {A} (a : A) : hosting_only (ret (W:=W) a).
Proof.
  intros s s' r [= <- <-]. split; [reflexivity|]. exists []. by rewrite app_nil_r.
Qed.

Lemma hosting_only_lift {A} (r0 : result A) : hosting_only (lift (W:=W) r0).
Proof.
  intros s s' r [= <- <-]. split; [reflexivity|]. exists []. by rewrite app_nil_r.
Qed.

Lemma hosting_only_raise {A} (e : exn) : hosting_only (raise (W:=W) (A:=A) e).
Proof.
  intros s s' r [= <- <-]. split; [reflexivity|]. exists []. by rewrite app_nil_r.
Qed.

Lemma hosting_only_perform {A} (c : call) (op : W -> W * result A) :
  is_hosting c = true -> hosting_only (perform c op).
Proof.
  intros Hc s s' r Hrun. apply perform_trace in Hrun as [Htrace Hpending].
  split; [exact Hpending|]. eexists. split; [exact Htrace|]. by repeat constructor.
Qed.

Lemma hosting_only_utcnow : hosting_only (utcnow_isoformat (W:=W)).
Proof.
  intros s s' r. rewrite utcnow_spec. intros [= <- <-].
  split; [reflexivity|]. exists []. by rewrite app_nil_r.
Qed.

Lemma hosting_only_login : hosting_only (login (W:=W)).
Proof.
  intros s s' r [= <- <-]. split; [reflexivity|]. exists []. by rewrite app_nil_r.
Qed.

Lemma hosting_only_bind {A B} (m : M W A) (k : A -> M W B) :
  hosting_only m -> (forall a, hosting_only (k a)) -> hosting_only (bind m k).
Proof.
  intros Hm Hk s s' r. unfold bind.
  destruct (m s) as [s1 [a|e]] eqn:Hrun1.
  - intros Hrun2.
    destruct (Hm _ _ _ Hrun1) as (Hp1 & new1 & Ht1 & Hall1).
    destruct (Hk a _ _ _ Hrun2) as (Hp2 & new2 & Ht2 & Hall2).
    split; [congruence|]. exists (new1 ++ new2).
    rewrite Ht2, Ht1, app_assoc. split; [reflexivity|]. by apply Forall_app.
  - intros [= <- <-]. exact (Hm _ _ _ Hrun1).
Qed.

Lemma hosting_only_try_then {A B} (m : M W A) (handler : M W B) (k : A -> M W B) :
  hosting_only m -> hosting_only handler -> (forall a, hosting_only (k a)) ->
  hosting_only (try_then m handler k).
Proof.
  intros Hm Hh Hk s s' r. unfold try_then.
  destruct (m s) as [s1 [a|e]] eqn:Hrun1; intros Hrun2;
    destruct (Hm _ _ _ Hrun1) as (Hp1 & new1 & Ht1 & Hall1).
  - destruct (Hk a _ _ _ Hrun2) as (Hp2 & new2 & Ht2 & Hall2).
    split; [congruence|]. exists (new1 ++ new2).
    rewrite Ht2, Ht1, app_assoc. split; [reflexivity|]. by apply Forall_app.
  - destruct (Hh _ _ _ Hrun2) as (Hp2 & new2 & Ht2 & Hall2).
    split; [congruence|]. exists (new1 ++ new2).
    rewrite Ht2, Ht1, app_assoc. split; [reflexivity|]. by apply Forall_app.
Qed.

Lemma hosting_only_try_except {A} (body handler : M W A) :
  hosting_only body -> hosting_only handler -> hosting_only (try_except body handler).
Proof.
  intros Hb Hh s s' r. unfold try_except.
  destruct (body s) as [s1 [a|e]] eqn:Hrun1.
  - intros [= <- <-]. exact (Hb _ _ _ Hrun1).
  - intros Hrun2.
    destruct (Hb _ _ _ Hrun1) as (Hp1 & new1 & Ht1 & Hall1).
    destruct (Hh _ _ _ Hrun2) as (Hp2 & new2 & Ht2 & Hall2).
    split; [congruence|]. exists (new1 ++ new2).
    rewrite Ht2, Ht1, app_assoc. split; [reflexivity|]. by apply Forall_app.
Qed.

Lemma hosting_only_upsert_attachments (repo : Repository)
    (attachments : list Attachment) :
  hosting_only (upsert_attachments repo attachments).
Proof.
  induction attachments as [|attach rest IH]; simpl.
  - apply hosting_only_ret.
  - apply hosting_only_bind; [|intros _; exact IH].
    unfold upsert_attachment.
    apply hosting_only_bind; [apply hosting_only_lift|intros data].
    apply hosting_only_try_except.
    + apply hosting_only_bind; [by apply hosting_only_perform|intros repo_file].
      by apply hosting_only_perform.
    + by apply hosting_only_perform.
Qed.

Lemma hosting_only_init_or_update_repo (p : program) (task_name : string)
    (round_index : Z) (brief : string) (attachments : list Attachment) :
  hosting_only (init_or_update_repo p task_name round_index brief attachments).
Proof.
  rewrite init_or_update_repo_unfold.
  apply hosting_only_bind.
  { unfold resolve_repo. apply hosting_only_try_except; [by apply hosting_only_perform|].
    destruct (round_index =? 1); [by apply hosting_only_perform|apply hosting_only_raise]. }
  intros repo. apply hosting_only_bind; [apply hosting_only_upsert_attachments|intros _].
  apply hosting_only_bind.
  { destruct p; simpl.
    - unfold ApiServer.update_readme.
      assert (Hhandler : forall text : string,
        hosting_only
          (now <- utcnow_isoformat;;
           create_file repo "README.md"
             ("Add README Round " +:+ str_of_int round_index)
             (text +:+ nl +:+ nl +:+ "## Round " +:+ str_of_int round_index
                +:+ " Updates" +:+ nl +:+ brief +:+ nl +:+ "Updated: " +:+ now))).
      { intros text. apply hosting_only_bind; [apply hosting_only_utcnow|intros now].
        by apply hosting_only_perform. }
      apply hosting_only_try_then; [by apply hosting_only_perform|apply Hhandler|].
      intros readme_file.
      apply hosting_only_try_then; [apply hosting_only_lift|apply Hhandler|].
      intros existing_readme.
      apply hosting_only_bind; [apply hosting_only_utcnow|intros now].
      apply hosting_only_try_except; [by apply hosting_only_perform|apply Hhandler].
    - unfold Server.update_readme.
      apply hosting_only_bind; [apply hosting_only_utcnow|intros now].
      apply hosting_only_try_except; [|by apply hosting_only_perform].
      apply hosting_only_bind; [by apply hosting_only_perform|intros readme_file].
      by apply hosting_only_perform. }
  intros _. apply hosting_only_bind.
  { unfold add_license. destruct (round_index =? 1); [|apply hosting_only_ret].
    apply hosting_only_try_except; [by apply hosting_only_perform|apply hosting_only_ret]. }
  intros _. unfold sync_result.
  apply hosting_only_bind; [by apply hosting_only_perform|intros commits].
  apply hosting_only_bind.
  { destruct commits; [apply hosting_only_raise|apply hosting_only_ret]. }
  intros commit_sha. apply hosting_only_bind; [apply hosting_only_login|intros user_login].
  apply hosting_only_ret.
Qed.
End HostingOnly.

(** X1. Whatever the collaborators do and however it ends,
    [init_or_update_repo] of either program sends nothing to the evaluation
    endpoint, never sleeps and queues no coroutine: the calls it adds are
    calls to the hosting service. *)
Theorem synchronizer_never_dispatches {W : Type} `{Env W} (p : program)
    (task_name : string) (round_index : Z) (brief : string)
    (attachments : list Attachment) (s s' : state W)
    (outcome : result (string * string * string)) :
  init_or_update_repo p task_name round_index brief attachments s = (s', outcome) ->
  pending s' = pending s /\
  exists new,
    trace s' = trace s ++ new /\
    posts new = [] /\ sleeps new = [] /\
    Forall (fun ev => is_hosting (ev_call ev) = true) new.
Proof.
  intros Hrun.
  destruct (hosting_only_init_or_update_repo p task_name round_index brief attachments
              _ _ _ Hrun) as (Hpending & new & Htrace & Hall).
  split; [exact Hpending|]. exists new. split; [exact Htrace|].
  split; [|split; [|exact Hall]].
  - clear Htrace. induction Hall as [|[c ok] rest Hc _ IH]; [reflexivity|].
    unfold posts in *. destruct c; cbn in *; first [discriminate|exact IH].
  - clear Htrace. induction Hall as [|[c ok] rest Hc _ IH]; [reflexivity|].
    unfold sleeps in *. destruct c; cbn in *; first [discriminate|exact IH].
Qed.

Lemma hosting_events_no_posts (new : list event) :
  Forall (fun ev => is_hosting (ev_call ev) = true) new -> posts new = [].
Proof.
  intros Hall. induction Hall as [|[c ok] rest Hc _ IH]; [reflexivity|].
  unfold posts in *. destruct c; cbn in *; first [discriminate|exact IH].
Qed.

(** ** The request handler beyond the secret check *)

(** X2. In [src/api/server.py], for any collaborators: when the secret
    matches and the synchronization returns, the handler runs the blocking
    dispatcher once, on the state the synchronization left, with the
    payload made of the submission's email, task, round and nonce and the
    three results; whatever the dispatcher returns, the answer is status 200
    with ["status": "ok"] and the three results. *)
Theorem api_handler_success {W : Type} `{Env W} (cfg : ApiServer.config)
    (payload : RequestPayload) (s s1 : state W) (synced : string * string * string) :
  secret payload = ApiServer.SECRET_FORM cfg ->
  ApiServer.init_or_update_repo (task payload) (round payload) (brief payload)
    (attachments payload) s = (s1, Ok synced) ->
  exists s' accepted,
    ApiServer.post_evaluation (evaluation_url payload) (eval_payload_of payload synced) 5 s1
      = (s', Ok accepted) /\
    route (ApiServer.handle_request cfg payload) s =
      (s', JSONResponse 200
             [("status", "ok"); ("repo_url", synced.1.1);
              ("commit_sha", synced.1.2); ("pages_url", synced.2)]).
Proof.
  intros Hsecret Hsync. apply String.eqb_eq in Hsecret.
  destruct (post_evaluation_loop_requests (Z.to_nat 5) (evaluation_url payload)
              (eval_payload_of payload synced) 1 s1) as (s' & b & new & Hpost & _).
  exists s', b. split; [exact Hpost|].
  unfold route, ApiServer.handle_request. rewrite Hsecret. cbn [negb].
  rewrite (bind_ok _ _ _ _ _ Hsync). destruct synced as [[repo_url commit_sha] pages_url].
  unfold bind. unfold ApiServer.post_evaluation, eval_payload_of in *. cbn [fst snd] in *.
  rewrite Hpost. reflexivity.
Qed.

(** X3. In [src/server.py], for any collaborators: when the secret matches
    and the synchronization returns, the handler answers status 200 with
    ["status": "ok"], the three results and the message, and it answers
    before anything has been sent: up to then no POST has been made, and
    exactly one coroutine has been queued, behind those queued before, for
    the evaluation URL and the payload made of the submission's email,
    task, round and nonce and the three results. *)
Theorem server_handler_success {W : Type} `{Env W} (payload : RequestPayload)
    (s s1 : state W) (synced : string * string * string) :
  secret payload = Server.VALID_SECRET ->
  Server.init_or_update_repo (task payload) (round payload) (brief payload)
    (attachments payload) s = (s1, Ok synced) ->
  exists s' new,
    route (Server.handle_request payload) s =
      (s', JSONResponse 200
             [("status", "ok"); ("repo_url", synced.1.1);
              ("commit_sha", synced.1.2); ("pages_url", synced.2);
              ("message", "Repo updated! Evaluation POST sent in background.")]) /\
    world s' = world s1 /\
    trace s' = trace s ++ new /\ posts new = [] /\
    pending s' =
      pending s ++
        [PostEvaluationAsync (evaluation_url payload) (eval_payload_of payload synced)].
Proof.
  intros Hsecret Hsync. apply String.eqb_eq in Hsecret.
  destruct (hosting_only_init_or_update_repo server_py _ _ _ _ _ _ _ Hsync)
    as (Hpending & new & Htrace & Hall).
  exists (State (world s1) (trace s1)
            (pending s1 ++
               [PostEvaluationAsync (evaluation_url payload)
                  (eval_payload_of payload synced)])), new.
  split.
  - unfold route, Server.handle_request. rewrite Hsecret. cbn [negb].
    rewrite (bind_ok _ _ _ _ _ Hsync).
    destruct synced as [[repo_url commit_sha] pages_url]. reflexivity.
  - cbn [world trace pending]. rewrite Hpending.
    split; [reflexivity|]. split; [exact Htrace|].
    split; [by apply hosting_events_no_posts|reflexivity].
Qed.

(** X4. For any collaborators and either deployment: when the secret
    matches and the synchronization raises, the handler raises the same
    exception (the framework answers 500) in the state the synchronization
    left; nothing has been sent to the evaluation endpoint and no coroutine
    has been queued. *)
Theorem handler_failure_no_dispatch {W : Type} `{Env W} (d : deployment)
    (payload : RequestPayload) (s s' : state W) (e : exn) :
  secret payload = configured_secret d ->
  init_or_update_repo (program_of d) (task payload) (round payload) (brief payload)
    (attachments payload) s = (s', Raised e) ->
  handle_request d payload s = (s', Raised e) /\
  route (handle_request d payload) s = (s', InternalServerError 500) /\
  pending s' = pending s /\
  exists new, trace s' = trace s ++ new /\ posts new = [].
Proof.
  intros Hsecret Hsync.
  pose proof (handle_request_raises d payload s s' e Hsecret Hsync) as Hhandle.
  split; [exact Hhandle|]. split; [unfold route; rewrite Hhandle; reflexivity|].
  destruct (hosting_only_init_or_update_repo _ _ _ _ _ _ _ _ Hsync)
    as (Hpending & new & Htrace & Hall).
  split; [exact Hpending|]. exists new. split; [exact Htrace|].
  by apply hosting_events_no_posts.
Qed.

(** The request [post_evaluation_async] sends (lines 107-108). *)
Lemma run_coroutines_requests {W : Type} `{Env W} (cs : list coroutine) :
  forall s : state W,
  exists s' new,
    Server.run_coroutines cs s = (s', Ok tt) /\
    pending s' = pending s /\
    trace s' = trace s ++ new /\
    ev_call <$> new =
      (fun c => match c with
                | PostEvaluationAsync url payload =>
                    Post {| req_url := url; req_json := payload;
                            req_headers := []; req_timeout := Some 10 |}
                end) <$> cs.
Proof.
  induction cs as [|[url payload] rest IH]; intros s.
  - exists s, []. simpl. by rewrite app_nil_r.
  - simpl. unfold bind at 1.
    unfold Server.post_evaluation_async, try_except, bind at 1, post, ret.
    rewrite perform_spec.
    destruct (net_post _ (world s)) as [w1 [status|e]]; cbn [fst snd is_ok];
      (edestruct IH as (s' & new & Hrun & Hpending & Htrace & Hcalls);
       eexists s', (_ :: new); rewrite Hrun, Htrace, Hpending; cbn [trace pending];
       rewrite <- app_assoc, fmap_cons, Hcalls; done).
Qed.

(** X5. In [src/server.py], for any collaborators: running the queued
    coroutines never raises and empties the queue; each coroutine makes
    exactly one POST, in queue order, to its URL with its payload and a
    timeout of ten seconds, whether the earlier ones were accepted, refused
    or lost; nothing is retried and nothing else is called. *)
Theorem run_pending_one_attempt_each {W : Type} `{Env W} (s : state W) :
  exists s' new,
    Server.run_pending s = (s', Ok tt) /\
    pending s' = [] /\
    trace s' = trace s ++ new /\
    ev_call <$> new =
      (fun c => match c with
                | PostEvaluationAsync url payload =>
                    Post {| req_url := url; req_json := payload;
                            req_headers := []; req_timeout := Some 10 |}
                end) <$> pending s.
Proof.
  unfold Server.run_pending.
  destruct (run_coroutines_requests (pending s) (State (world s) (trace s) []))
    as (s' & new & Hrun & Hpending & Htrace & Hcalls).
  exists s', new. done.
Qed.

(** ** The blocking dispatcher in general *)

Lemma post_evaluation_loop_calls {W : Type} `{Env W} (n : nat) :
  forall (url : string) (payload : EvalPayload) (delay : Z) (s : state W),
  exists s' (accepted : bool) new (k : nat),
    ApiServer.post_evaluation_loop n url payload delay s = (s', Ok accepted) /\
    trace s' = trace s ++ new /\
    pending s' = pending s /\
    (if accepted then (k < n)%nat else k = n) /\
    ev_call <$> new =
      failed_attempts k (blocking_request url payload) delay
        ++ (if accepted then [Post (blocking_request url payload)] else []).
Proof.
  induction n as [|n IH]; intros url payload delay s.
  - exists s, false, [], O. simpl. by rewrite app_nil_r.
  - rewrite post_evaluation_iteration.
    destruct (delivered _).
    + eexists _, true, [_], O. cbn [trace pending]. repeat split. lia.
    + edestruct (IH url payload (delay * 2)) as (s' & b & new & k & Hrun & Htrace & Hp & Hk & Hcalls).
      eexists s', b, (_ :: _ :: new), (S k). rewrite Hrun. split; [reflexivity|].
      rewrite Htrace, Hp. cbn [trace pending]. rewrite <- !app_assoc.
      split; [reflexivity|]. split; [reflexivity|].
      split; [destruct b; lia|].
      rewrite !fmap_cons, Hcalls. reflexivity.
Qed.

(** X6. For any collaborators and any [max_retries], [post_evaluation]
    returns a boolean and its calls are: some number k of failed attempts,
    each a POST of the same request followed by a sleep, the sleeps doubling
    from one second, and then, exactly when it returns [True], one more
    POST.  It makes at most [max_retries] POSTs, it stops at the first
    accepted one, and it returns [False] only after [max_retries] failed
    attempts (none at all when [max_retries] is zero or negative). *)
Theorem post_evaluation_calls {W : Type} `{Env W} (url : string)
    (payload : EvalPayload) (max_retries : Z) (s : state W) :
  exists s' (accepted : bool) new (k : nat),
    ApiServer.post_evaluation url payload max_retries s = (s', Ok accepted) /\
    trace s' = trace s ++ new /\
    pending s' = pending s /\
    ev_call <$> new =
      failed_attempts k (blocking_request url payload) 1
        ++ (if accepted then [Post (blocking_request url payload)] else []) /\
    (if accepted then Z.of_nat k < max_retries else Z.of_nat k = Z.max 0 max_retries) /\
    Z.of_nat (List.length (posts new)) <= Z.max 0 max_retries.
Proof.
  unfold ApiServer.post_evaluation.
  destruct (post_evaluation_loop_calls (Z.to_nat max_retries) url payload 1 s)
    as (s' & b & new & k & Hrun & Htrace & Hp & Hk & Hcalls).
  exists s', b, new, k. split; [exact Hrun|]. split; [exact Htrace|].
  split; [exact Hp|]. split; [exact Hcalls|]. split; [destruct b; lia|].
  rewrite posts_of_calls, Hcalls.
  assert (Hcount : forall (m : nat) (rq : request) (d : Z) (tail : list call),
            List.length (omap (fun c => match c with Post rq => Some rq | _ => None end)
                           (failed_attempts m rq d ++ tail)) =
            (m + List.length (omap (fun c => match c with Post rq => Some rq | _ => None end)
                                tail))%nat).
  { induction m as [|m IHm]; intros rq d tail; [reflexivity|].
    simpl. rewrite IHm. reflexivity. }
  rewrite Hcount. destruct b; simpl; lia.
Qed.

Lemma sum_doubling (k : nat) (delay : Z) :
  sum_Z (doubling k delay) = delay * (2 ^ Z.of_nat k - 1).
Proof.
  revert delay. induction k as [|k IH]; intros delay.
  - simpl. lia.
  - cbn [doubling sum_Z foldr]. fold (sum_Z (doubling k (delay * 2))).
    rewrite IH, Nat2Z.inj_succ, Z.pow_succ_r by lia. lia.
Qed.

Lemma post_evaluation_loop_first_success (fails : list (result Z)) :
  forall (n : nat) (url : string) (payload : EvalPayload) (delay : Z) (s : state sim)
         (accepted : result Z) (later : list (result Z)),
  sim_endpoint (world s) = fails ++ accepted :: later ->
  Forall (fun outcome => delivered outcome = false) fails ->
  delivered accepted = true ->
  (List.length fails < n)%nat ->
  exists s' new,
    ApiServer.post_evaluation_loop n url payload delay s = (s', Ok true) /\
    trace s' = trace s ++ new /\
    ev_call <$> new =
      failed_attempts (List.length fails) (blocking_request url payload) delay
        ++ [Post (blocking_request url payload)] /\
    sim_slept (world s') = sim_slept (world s) + sum_Z (doubling (List.length fails) delay) /\
    sim_endpoint (world s') = later.
Proof.
  induction fails as [|failed fails IH];
    intros n url payload delay s accepted later Hscript Hfails Haccepted Hlt;
    (destruct n as [|n]; [simpl in Hlt; lia|]);
    rewrite post_evaluation_iteration;
    set (rq := blocking_request url payload) in *;
    destruct (sim_post_outcome rq (world s)) as (Hout & Hrest & Hslept);
    destruct (net_post rq (world s)) as [w1 outcome]; cbn [fst snd] in *;
    rewrite Hscript in Hout, Hrest; simpl in Hout, Hrest; subst outcome.
  - rewrite Haccepted. eexists _, [_]. cbn [world trace].
    split; [reflexivity|]. split; [reflexivity|]. split; [reflexivity|].
    cbn. split; [lia|exact Hrest].
  - inversion Hfails as [|? ? Hhead Htail]; subst. rewrite Hhead.
    edestruct (IH n url payload (delay * 2)) as (s' & new & Hrun & Htrace & Hcalls & Htotal & Hleft);
      [..|eexists s', (_ :: _ :: new); split; [exact Hrun|]].
    + cbn [world]. simpl. exact Hrest.
    + exact Htail.
    + exact Haccepted.
    + simpl in Hlt. lia.
    + cbn [world trace] in *.
      split; [rewrite Htrace, <- !app_assoc; reflexivity|].
      split; [rewrite !fmap_cons, Hcalls; reflexivity|].
      split; [|exact Hleft].
      rewrite Htotal. simpl. rewrite Hslept. lia.
Qed.

(** X7. On the simulated endpoint: when the first k answers are failures
    and the next one is status 200, with k below [max_retries],
    [post_evaluation] returns [True] after k + 1 POSTs and k sleeps; it has
    slept 2^k - 1 seconds in all, nothing after the accepted POST, and the
    later answers of the endpoint are not consumed. *)
Theorem post_evaluation_first_success (url : string) (payload : EvalPayload)
    (max_retries : Z) (s : state sim) (fails later : list (result Z))
    (accepted : result Z) :
  sim_endpoint (world s) = fails ++ accepted :: later ->
  Forall (fun outcome => delivered outcome = false) fails ->
  delivered accepted = true ->
  Z.of_nat (List.length fails) < max_retries ->
  exists s' new,
    ApiServer.post_evaluation url payload max_retries s = (s', Ok true) /\
    trace s' = trace s ++ new /\
    ev_call <$> new =
      failed_attempts (List.length fails) (blocking_request url payload) 1
        ++ [Post (blocking_request url payload)] /\
    sim_slept (world s') = sim_slept (world s) + (2 ^ Z.of_nat (List.length fails) - 1) /\
    sim_endpoint (world s') = later.
Proof.
  intros Hscript Hfails Haccepted Hlt. unfold ApiServer.post_evaluation.
  destruct (post_evaluation_loop_first_success fails (Z.to_nat max_retries) url payload 1 s
              accepted later Hscript Hfails Haccepted ltac:(lia))
    as (s' & new & Hrun & Htrace & Hcalls & Htotal & Hleft).
  exists s', new. rewrite sum_doubling in Htotal.
  split; [exact Hrun|]. split; [exact Htrace|]. split; [exact Hcalls|].
  split; [lia|exact Hleft].
Qed.

(** ** The LICENSE block *)

(** X8. For any collaborators, the LICENSE block never raises.  In round 1
    it makes exactly one call, a create of LICENSE with the fixed text,
    whether or not that call succeeds; in any other round it makes no call
    and leaves the state as it is. *)
Theorem add_license_never_raises {W : Type} `{Env W} (repo : Repository)
    (round_index : Z) (s : state W) :
  exists s',
    add_license repo round_index s = (s', Ok tt) /\
    pending s' = pending s /\
    (round_index <> 1 -> s' = s) /\
    (round_index = 1 ->
     exists ok,
       trace s' = trace s ++
         [Event (CreateFile (repo_name repo) "LICENSE" "Add MIT License" license_text) ok]).
Proof.
  unfold add_license. destruct (round_index =? 1) eqn:Hround.
  - unfold try_except, create_file, ret. rewrite perform_spec.
    destruct (github_create_file repo "LICENSE" _ _ (world s)) as [w1 [[]|e]];
      cbn [fst snd is_ok]; eexists; (split; [reflexivity|]); cbn [trace pending];
      (split; [reflexivity|]); (split; [lia|]); intros _; eexists; reflexivity.
  - exists s. split; [reflexivity|]. split; [reflexivity|]. split; [done|lia].
Qed.

Lemma add_license_licensed (repo : Repository) (round_index : Z) (r : sim_repo)
    (s : state sim) :
  sim_faults (world s) = [] ->
  sim_repos (world s) !! repo_name repo = Some r ->
  exists s',
    add_license repo round_index s = (s', Ok tt) /\
    evolves (repo_name repo) (licensed round_index r) s s' /\
    sim_clock (world s') = sim_clock (world s).
Proof.
  intros Hquiet Hrepo. unfold add_license, licensed.
  destruct (round_index =? 1).
  - unfold try_except.
    rewrite (create_file_quiet s Hquiet repo "LICENSE" _ _ r Hrepo).
    destruct (sr_files r !! "LICENSE") as [old|].
    + eexists. split; [reflexivity|]. split; [by apply evolves_same_world|reflexivity].
    + eexists. split; [reflexivity|]. split; [unfold evolves; simpl; done|reflexivity].
  - exists s. split; [reflexivity|]. split; [by apply evolves_refl|reflexivity].
Qed.

(** X9. On the simulated account with no fault scheduled, the LICENSE block
    of round 1 creates the file once: afterwards LICENSE holds what it held
    before, or the fixed text when it was absent; no other file changes; a
    repository that had a LICENSE is left exactly as it was (no commit); and
    running the block again changes nothing. *)
Theorem license_created_once (repo : Repository) (r : sim_repo) (s : state sim) :
  sim_faults (world s) = [] ->
  sim_repos (world s) !! repo_name repo = Some r ->
  exists s1 s2 r',
    add_license repo 1 s = (s1, Ok tt) /\
    sim_repos (world s1) !! repo_name repo = Some r' /\
    sr_files r' !! "LICENSE" = Some (default license_text (sr_files r !! "LICENSE")) /\
    (forall path, path <> "LICENSE" -> sr_files r' !! path = sr_files r !! path) /\
    (is_Some (sr_files r !! "LICENSE") -> r' = r) /\
    add_license repo 1 s1 = (s2, Ok tt) /\
    sim_repos (world s2) !! repo_name repo = Some r'.
Proof.
  intros Hquiet Hrepo.
  destruct (add_license_licensed repo 1 r s Hquiet Hrepo) as (s1 & Hrun1 & Hev1 & _).
  pose proof (evolves_lookup _ _ _ _ Hev1) as Hrepo1.
  destruct (add_license_licensed repo 1 _ s1 (proj1 Hev1) Hrepo1) as (s2 & Hrun2 & Hev2 & _).
  exists s1, s2, (licensed 1 r). split; [exact Hrun1|]. split; [exact Hrepo1|].
  assert (Hagain : licensed 1 (licensed 1 r) = licensed 1 r).
  { unfold licensed. simpl. destruct (sr_files r !! "LICENSE") eqn:Hfile.
    - rewrite Hfile. reflexivity.
    - simpl. rewrite lookup_insert_eq. reflexivity. }
  split; [|split; [|split; [|split; [exact Hrun2|]]]].
  - unfold licensed. simpl. destruct (sr_files r !! "LICENSE") eqn:Hfile; simpl.
    + exact Hfile.
    + apply lookup_insert_eq.
  - intros path Hne. unfold licensed. simpl.
    destruct (sr_files r !! "LICENSE"); [reflexivity|]. simpl. by rewrite lookup_insert_ne.
  - intros [old Hold]. unfold licensed. simpl. rewrite Hold. reflexivity.
  - rewrite <- Hagain. eapply evolves_lookup. exact Hev2.
Qed.

(** ** Lookups that fail in transit *)

Lemma hosted_transient {A} (serve : sim -> sim * result A) (w : sim)
    (later : list fault) :
  sim_faults w = Transient :: later ->
  hosted serve w = (with_faults w later, Raised (GithubException 502)).
Proof. unfold hosted. intros ->. reflexivity. Qed.

(** X10. On the simulated account, when the repository of the task exists
    but the lookup is the one call that fails in transit, the bare [except]
    takes the repository for missing.  In round 1 the synchronizer asks to
    create it, the hosting service refuses and that refusal (status 422) is
    what [init_or_update_repo] raises; in any other round it raises the
    [RuntimeError] saying the repository does not exist.  In both cases the
    repositories of the account are as they were. *)
Theorem lost_lookup_taken_for_missing (p : program) (task_name : string)
    (round_index : Z) (brief : string) (attachments : list Attachment)
    (r : sim_repo) (s : state sim) :
  sim_faults (world s) = [Transient] ->
  sim_repos (world s) !! task_name = Some r ->
  exists s',
    init_or_update_repo p task_name round_index brief attachments s =
      (s', Raised (if round_index =? 1 then GithubException 422
                   else RuntimeError ("Repo " +:+ task_name +:+ " does not exist for round "
                                      +:+ str_of_int round_index))) /\
    sim_repos (world s') = sim_repos (world s) /\
    ev_call <$> trace s' =
      (ev_call <$> trace s) ++
        GetRepo task_name ::
        (if round_index =? 1 then [CreateRepo task_name false] else []).
Proof.
  intros Hfaults Hrepo. rewrite init_or_update_repo_unfold.
  assert (Hresolve : exists s',
    resolve_repo task_name round_index s =
      (s', Raised (if round_index =? 1 then GithubException 422
                   else RuntimeError ("Repo " +:+ task_name +:+ " does not exist for round "
                                      +:+ str_of_int round_index))) /\
    sim_repos (world s') = sim_repos (world s) /\
    ev_call <$> trace s' =
      (ev_call <$> trace s) ++
        GetRepo task_name ::
        (if round_index =? 1 then [CreateRepo task_name false] else [])).
  { rewrite resolve_repo_calls. cbn [github_get_repo sim_env].
    rewrite (hosted_transient _ _ [] Hfaults).
    destruct (round_index =? 1).
    - unfold create_repo. rewrite perform_spec. cbn [world trace pending].
      cbn [github_create_repo sim_env]. rewrite hosted_quiet by reflexivity.
      unfold serve_create_repo. cbn [with_faults sim_repos]. rewrite Hrepo.
      cbn [fst snd is_ok]. eexists. split; [reflexivity|]. cbn [world trace].
      split; [reflexivity|]. rewrite !fmap_app, <- app_assoc. reflexivity.
    - eexists. split; [reflexivity|]. cbn [world trace].
      split; [reflexivity|]. rewrite fmap_app. reflexivity. }
  destruct Hresolve as (s' & Hrun & Hrepos & Htrace).
  exists s'. rewrite (bind_raised _ _ _ _ _ Hrun). done.
Qed.

(** X11. On the simulated account, when the lookup of an attachment's file
    is the one call that fails in transit while the file exists, the pass
    goes to the create call, the hosting service refuses it (status 422),
    and the pass raises that refusal; the file keeps its old content and
    nothing is committed. *)
Theorem lost_file_lookup_raises (repo : Repository) (attach : Attachment)
    (r : sim_repo) (old : string) (s : state sim) :
  sim_faults (world s) = [Transient] ->
  sim_repos (world s) !! repo_name repo = Some r ->
  sr_files r !! filename attach = Some old ->
  decodable attach ->
  exists s',
    upsert_attachment repo attach s = (s', Raised (GithubException 422)) /\
    sim_repos (world s') = sim_repos (world s) /\
    trace s' = trace s ++
      [Event (GetContents (repo_name repo) (filename attach)) false;
       Event (CreateFile (repo_name repo) (filename attach)
                ("Add " +:+ filename attach) (decoded attach)) false].
Proof.
  intros Hfaults Hrepo Hfile Hdec. unfold decodable in Hdec.
  unfold upsert_attachment, decoded.
  destruct (b64decode (content attach)) as [data|e]; [|discriminate].
  unfold bind at 1, lift. unfold try_except, bind, get_contents.
  rewrite perform_spec. cbn [github_get_contents sim_env].
  rewrite (hosted_transient _ _ [] Hfaults). cbn [fst snd is_ok].
  erewrite create_file_quiet; [|reflexivity|cbn [world with_faults sim_repos]; exact Hrepo].
  rewrite Hfile. eexists. split; [reflexivity|]. cbn [world trace with_faults sim_repos].
  split; [reflexivity|]. rewrite <- app_assoc. reflexivity.
Qed.

(** ** The README block beyond one clean run *)

(** X12. In [src/api/server.py], for any collaborators: when README.md is
    found and is text (its bytes decode) but its update fails, the handler
    of the bare [except] works on the text the [try] had already extended.
    The create call that follows carries the existing text followed by the
    round section twice (once with the first reading of the clock, once
    with the second), and its outcome is the outcome of the README block. *)
Theorem api_readme_fallback_repeats_section {W : Type} `{Env W}
    (repo : Repository) (task_name : string) (round_index : Z) (brief : string)
    (s : state W) (w1 w2 w3 w4 : W) (readme_file : ContentFile)
    (now1 now2 : string) (e : exn) :
  let round_section now :=
    nl +:+ nl +:+ "## Round " +:+ str_of_int round_index +:+ " Updates" +:+ nl
      +:+ brief +:+ nl +:+ "Updated: " +:+ now in
  let update_message := "Update README for Round " +:+ str_of_int round_index in
  let create_message := "Add README Round " +:+ str_of_int round_index in
  github_get_contents repo "README.md" (world s) = (w1, Ok readme_file) ->
  utf8_valid (decoded_content readme_file) = true ->
  clock_utcnow w1 = (w2, now1) ->
  github_update_file repo (cf_path readme_file) update_message
    (decoded_content readme_file +:+ round_section now1) (cf_sha readme_file) w2 =
    (w3, Raised e) ->
  clock_utcnow w3 = (w4, now2) ->
  let text := (decoded_content readme_file +:+ round_section now1) +:+ round_section now2 in
  ApiServer.update_readme repo task_name round_index brief s =
    (State (github_create_file repo "README.md" create_message text w4).1
       (trace s ++
          [Event (GetContents (repo_name repo) "README.md") true;
           Event (UpdateFile (repo_name repo) (cf_path readme_file) update_message
                    (decoded_content readme_file +:+ round_section now1)
                    (cf_sha readme_file)) false;
           Event (CreateFile (repo_name repo) "README.md" create_message text)
             (is_ok (github_create_file repo "README.md" create_message text w4).2)])
       (pending s),
     (github_create_file repo "README.md" create_message text w4).2).
Proof.
  intros round_section update_message create_message Hlookup Hvalid Hnow1 Hupdate Hnow2 text.
  unfold ApiServer.update_readme, try_then, get_contents. rewrite perform_spec, Hlookup.
  cbn [fst snd is_ok]. unfold lift, bytes_decode. rewrite Hvalid.
  unfold bind at 1. rewrite utcnow_spec. cbn [world trace pending].
  rewrite Hnow1. cbn [fst snd]. unfold try_except, update_file. rewrite perform_spec.
  cbn [world trace pending]. fold update_message. fold (round_section now1).
  rewrite Hupdate. cbn [fst snd is_ok]. unfold bind. rewrite utcnow_spec.
  cbn [world trace pending]. rewrite Hnow2. cbn [fst snd].
  unfold create_file. rewrite perform_spec. cbn [world trace pending].
  rewrite <- !app_assoc. reflexivity.
Qed.

(** X19. In [src/api/server.py], for any collaborators: when README.md is
    found but its bytes are not well-formed UTF-8, the decoding raises
    inside the [try]; no update is attempted, and the create call of the
    handler carries the title and one round section, not the existing
    content.  Its outcome is the outcome of the README block. *)
Theorem api_readme_not_text_goes_to_create {W : Type} `{Env W}
    (repo : Repository) (task_name : string) (round_index : Z) (brief : string)
    (s : state W) (w1 w2 : W) (readme_file : ContentFile) (now : string) :
  let create_message := "Add README Round " +:+ str_of_int round_index in
  let text :=
    ("# " +:+ task_name +:+ nl +:+ nl) +:+ nl +:+ nl +:+ "## Round "
      +:+ str_of_int round_index +:+ " Updates" +:+ nl +:+ brief +:+ nl
      +:+ "Updated: " +:+ now in
  github_get_contents repo "README.md" (world s) = (w1, Ok readme_file) ->
  utf8_valid (decoded_content readme_file) = false ->
  clock_utcnow w1 = (w2, now) ->
  ApiServer.update_readme repo task_name round_index brief s =
    (State (github_create_file repo "README.md" create_message text w2).1
       (trace s ++
          [Event (GetContents (repo_name repo) "README.md") true;
           Event (CreateFile (repo_name repo) "README.md" create_message text)
             (is_ok (github_create_file repo "README.md" create_message text w2).2)])
       (pending s),
     (github_create_file repo "README.md" create_message text w2).2).
Proof.
  intros create_message text Hlookup Htorn Hnow.
  unfold ApiServer.update_readme, try_then, get_contents. rewrite perform_spec, Hlookup.
  cbn [fst snd is_ok]. unfold lift, bytes_decode. rewrite Htorn.
  unfold bind. rewrite utcnow_spec. cbn [world trace pending].
  rewrite Hnow. cbn [fst snd].
  unfold create_file. rewrite perform_spec. cbn [world trace pending].
  rewrite <- !app_assoc. reflexivity.
Qed.

Lemma sim_clock_pop (w : sim) :
  (clock_utcnow w).2 = default "1970-01-01T00:00:00" (head (sim_clock w)) /\
  sim_clock (clock_utcnow w).1 = tail (sim_clock w).
Proof. simpl. destruct (sim_clock w) eqn:E; simpl; rewrite ?E; done. Qed.

Lemma update_readme_takes_one_reading (p : program) (repo : Repository)
    (task_name : string) (round_index : Z) (brief : string) (r : sim_repo)
    (s : state sim) :
  sim_faults (world s) = [] ->
  sim_repos (world s) !! repo_name repo = Some r ->
  sim_clock (update_readme p repo task_name round_index brief s).1.(world) =
    tail (sim_clock (world s)).
Proof.
  intros Hquiet Hrepo.
  destruct (sim_clock_tick (world s)) as (Hfaults & Hrepos & Hlogin).
  destruct (sim_clock_pop (world s)) as [_ Hpop].
  destruct p; simpl.
  - unfold ApiServer.update_readme, try_then.
    rewrite (get_contents_quiet s Hquiet repo "README.md" r Hrepo).
    destruct (sr_files r !! "README.md") as [existing|] eqn:Hfile.
    + unfold lift, bytes_decode. cbn [decoded_content].
      destruct (utf8_valid existing).
      * unfold bind. rewrite utcnow_spec.
        cbn [world trace pending cf_path cf_sha]. unfold try_except.
        erewrite update_file_quiet; cbn [world];
          [|congruence|rewrite Hrepos; exact Hrepo|exact Hfile].
        cbn [fst world with_repos sim_clock]. exact Hpop.
      * unfold bind. rewrite utcnow_spec. cbn [world trace pending].
        erewrite create_file_quiet; cbn [world]; [|congruence|rewrite Hrepos; exact Hrepo].
        rewrite Hfile. cbn [fst world]. exact Hpop.
    + unfold bind. rewrite utcnow_spec. cbn [world trace pending].
      erewrite create_file_quiet; cbn [world]; [|congruence|rewrite Hrepos; exact Hrepo].
      rewrite Hfile. cbn [fst world with_repos sim_clock]. exact Hpop.
  - unfold Server.update_readme. unfold bind at 1. rewrite utcnow_spec.
    unfold try_except, bind.
    erewrite get_contents_quiet; cbn [world]; [|congruence|rewrite Hrepos; exact Hrepo].
    destruct (sr_files r !! "README.md") as [existing|] eqn:Hfile.
    + cbn [world trace pending cf_path cf_sha decoded_content].
      erewrite update_file_quiet; cbn [world];
        [|congruence|rewrite Hrepos; exact Hrepo|exact Hfile].
      cbn [fst world with_repos sim_clock]. exact Hpop.
    + erewrite create_file_quiet; cbn [world]; [|congruence|rewrite Hrepos; exact Hrepo].
      rewrite Hfile. cbn [fst world with_repos sim_clock]. exact Hpop.
Qed.

(** X13. On the simulated account with no fault scheduled, two runs of the
    README block in a row, with clock readings [now1] and [now2].  In
    [src/api/server.py], when README.md is text to begin with and the text
    the first run writes is text again (as it is when the brief and the
    time stamp are), README.md then holds what it held before the first run
    (or the title when it was absent), the section of the first run and the
    section of the second, in that order, also when both runs are for the
    same round.  In [src/server.py] it holds the text of the second run
    alone, whatever it held before.  *)
Theorem readme_over_two_runs (repo : Repository) (task_name : string)
    (round1 round2 : Z) (brief1 brief2 : string) (r : sim_repo) (s : state sim)
    (now1 now2 : string) (later : list string) :
  sim_faults (world s) = [] ->
  sim_repos (world s) !! repo_name repo = Some r ->
  sim_clock (world s) = now1 :: now2 :: later ->
  let round_section round_index brief now :=
    nl +:+ nl +:+ "## Round " +:+ str_of_int round_index +:+ " Updates" +:+ nl
      +:+ brief +:+ nl +:+ "Updated: " +:+ now in
  let start :=
    match sr_files r !! "README.md" with
    | Some existing => existing
    | None => "# " +:+ task_name +:+ nl +:+ nl
    end in
  (readme_is_text r ->
   utf8_valid (start +:+ round_section round1 brief1 now1) = true ->
   exists s1 s2 r2,
     ApiServer.update_readme repo task_name round1 brief1 s = (s1, Ok tt) /\
     ApiServer.update_readme repo task_name round2 brief2 s1 = (s2, Ok tt) /\
     sim_repos (world s2) !! repo_name repo = Some r2 /\
     sr_files r2 !! "README.md" =
       Some ((start +:+ round_section round1 brief1 now1)
               +:+ round_section round2 brief2 now2)) /\
  (exists s1 s2 r2,
     Server.update_readme repo task_name brief1 s = (s1, Ok tt) /\
     Server.update_readme repo task_name brief2 s1 = (s2, Ok tt) /\
     sim_repos (world s2) !! repo_name repo = Some r2 /\
     sr_files r2 !! "README.md" =
       Some ("# " +:+ task_name +:+ nl +:+ nl +:+ "Brief:" +:+ nl +:+ brief2 +:+ nl +:+ nl
               +:+ "Updated: " +:+ now2)).
Proof.
  intros Hquiet Hrepo Hclock round_section start.
  destruct (sim_clock_pop (world s)) as [Hnow1 _]. rewrite Hclock in Hnow1.
  cbn [head default] in Hnow1.
  split.
  - intros Htext Hwritten.
    pose proof (update_readme_takes_one_reading api_server_py repo task_name round1 brief1
                  r s Hquiet Hrepo) as Hpop.
    destruct (api_update_readme_quiet repo task_name round1 brief1 r s Hquiet Hrepo Htext)
      as (s1 & m1 & Hrun1 & Hev1).
    simpl in Hpop. rewrite Hrun1, Hclock in Hpop. cbn [fst tail] in Hpop.
    pose proof (evolves_lookup _ _ _ _ Hev1) as Hrepo1.
    rewrite Hnow1 in Hev1, Hrepo1.
    assert (Htext1 : readme_is_text
              (commit_to r m1 "README.md" (start +:+ round_section round1 brief1 now1))).
    { intros existing Hfile. cbn [commit_to sr_files] in Hfile.
      rewrite lookup_insert_eq in Hfile. injection Hfile as <-. exact Hwritten. }
    destruct (api_update_readme_quiet repo task_name round2 brief2 _ s1 (proj1 Hev1) Hrepo1
                Htext1) as (s2 & m2 & Hrun2 & Hev2).
    destruct (sim_clock_pop (world s1)) as [Hnow2 _]. rewrite Hpop in Hnow2.
    cbn [head default] in Hnow2.
    exists s1, s2. eexists. split; [exact Hrun1|]. split; [exact Hrun2|].
    split; [eapply evolves_lookup; exact Hev2|].
    cbn [commit_to sr_files]. rewrite !lookup_insert_eq, Hnow2. reflexivity.
  - pose proof (update_readme_takes_one_reading server_py repo task_name round1 brief1
                  r s Hquiet Hrepo) as Hpop.
    destruct (server_update_readme_quiet repo task_name brief1 r s Hquiet Hrepo)
      as (s1 & m1 & Hrun1 & Hev1).
    simpl in Hpop. rewrite Hrun1, Hclock in Hpop. cbn [fst tail] in Hpop.
    pose proof (evolves_lookup _ _ _ _ Hev1) as Hrepo1.
    destruct (server_update_readme_quiet repo task_name brief2 _ s1 (proj1 Hev1) Hrepo1)
      as (s2 & m2 & Hrun2 & Hev2).
    destruct (sim_clock_pop (world s1)) as [Hnow2 _]. rewrite Hpop in Hnow2.
    exists s1, s2. eexists. split; [exact Hrun1|]. split; [exact Hrun2|].
    split; [eapply evolves_lookup; exact Hev2|].
    cbn [commit_to sr_files]. rewrite lookup_insert_eq, Hnow2. reflexivity.
Qed.

(** ** A whole synchronization against an existing repository *)

Lemma synchronize_exact (p : program) (task_name : string) (round_index : Z)
    (brief : string) (attachments : list Attachment) (repo : Repository)
    (r : sim_repo) (s s1 : state sim) :
  resolve_repo task_name round_index s = (s1, Ok repo) ->
  sim_faults (world s1) = [] ->
  sim_repos (world s1) !! repo_name repo = Some r ->
  Forall decodable attachments ->
  readme_decodes p (foldl upserted r attachments) ->
  exists s' message text c older,
    init_or_update_repo p task_name round_index brief attachments s =
      (s', Ok (html_url repo, c_sha c,
               "https://" +:+ sim_login (world s1) +:+ ".github.io/" +:+ task_name +:+ "/")) /\
    evolves (repo_name repo)
      (licensed round_index
         (commit_to (foldl upserted r attachments) message "README.md" text)) s1 s' /\
    sr_commits (licensed round_index
                  (commit_to (foldl upserted r attachments) message "README.md" text))
      = c :: older.
Proof.
  intros Hresolve Hquiet Hrepo Hdec Htext.
  destruct (upsert_attachments_evolves repo attachments r s1 Hquiet Hrepo Hdec)
    as (s2 & Hrun2 & Hev2 & _).
  destruct (update_readme_quiet p repo task_name round_index brief _ s2
              (proj1 Hev2) (evolves_lookup _ _ _ _ Hev2) Htext)
    as (s3 & message & text & Hrun3 & Hev3).
  destruct (add_license_licensed repo round_index _ s3
              (proj1 Hev3) (evolves_lookup _ _ _ _ Hev3))
    as (s4 & Hrun4 & Hev4 & _).
  set (r4 := licensed round_index
               (commit_to (foldl upserted r attachments) message "README.md" text)) in *.
  assert (Hlog : exists c older, sr_commits r4 = c :: older).
  { subst r4. unfold licensed.
    destruct (round_index =? 1); [|simpl; eauto].
    destruct (sr_files _ !! "LICENSE"); simpl; eauto. }
  destruct Hlog as (c & older & Hlog).
  eexists _, message, text, c, older. split; [|split; [|exact Hlog]].
  - rewrite init_or_update_repo_unfold.
    rewrite (bind_ok _ _ _ _ _ Hresolve), (bind_ok _ _ _ _ _ Hrun2),
      (bind_ok _ _ _ _ _ Hrun3), (bind_ok _ _ _ _ _ Hrun4).
    rewrite (sync_result_quiet repo task_name r4 c older s4 (proj1 Hev4)
               (evolves_lookup _ _ _ _ Hev4) Hlog).
    destruct Hev2 as (_ & _ & Hl2 & _), Hev3 as (_ & _ & Hl3 & _),
      Hev4 as (_ & _ & Hl4 & _).
    rewrite Hl4, Hl3, Hl2. reflexivity.
  - pose proof (evolves_trans _ _ _ _ _ _ (evolves_trans _ _ _ _ _ _ Hev2 Hev3) Hev4)
      as (Hq & Hr & Hl & Hp).
    unfold evolves. simpl. done.
Qed.

(** X14. On the simulated account with no fault scheduled, a
    synchronization against a repository that exists, in any round and with
    attachments that decode (and, for [src/api/server.py], which decodes
    the README.md it finds, with a README.md that is text, in the
    repository and in every attachment that names it), returns the
    repository URL, a commit id and the
    pages URL built from the login and the task.  The repository is reused:
    only its entry of the account changes and its visibility stays.  The
    commit id returned is the id of the newest commit, after all writes.
    Files that no attachment names, other than README.md and LICENSE, keep
    their content; a file an attachment names (README.md apart) holds the
    bytes of the last attachment that names it.  In a round other than 1
    the history grows by one commit per attachment and one for README.md,
    and a LICENSE no attachment names is left alone. *)
Theorem synchronize_existing_repository (p : program) (task_name : string)
    (round_index : Z) (brief : string) (attachments : list Attachment)
    (r : sim_repo) (s : state sim) :
  sim_faults (world s) = [] ->
  sim_repos (world s) !! task_name = Some r ->
  Forall decodable attachments ->
  (p = api_server_py ->
   readme_is_text r /\
   forall attach, attach ∈ attachments -> filename attach = "README.md" ->
                  utf8_valid (decoded attach) = true) ->
  exists s' r' commit_sha,
    init_or_update_repo p task_name round_index brief attachments s =
      (s', Ok ("https://github.com/" +:+ sim_login (world s) +:+ "/" +:+ task_name,
               commit_sha,
               "https://" +:+ sim_login (world s) +:+ ".github.io/" +:+ task_name +:+ "/")) /\
    sim_repos (world s') = <[task_name := r']> (sim_repos (world s)) /\
    sr_private r' = sr_private r /\
    head (c_sha <$> sr_commits r') = Some commit_sha /\
    (forall path, path ∉ (filename <$> attachments) ->
       path <> "README.md" -> path <> "LICENSE" ->
       sr_files r' !! path = sr_files r !! path) /\
    (forall (i : nat) (attach : Attachment),
       attachments !! i = Some attach ->
       filename attach ∉ (filename <$> drop (S i) attachments) ->
       filename attach <> "README.md" ->
       sr_files r' !! filename attach = Some (decoded attach)) /\
    (round_index <> 1 ->
       List.length (sr_commits r') =
         (List.length (sr_commits r) + List.length attachments + 1)%nat /\
       ("LICENSE" ∉ (filename <$> attachments) ->
        sr_files r' !! "LICENSE" = sr_files r !! "LICENSE")).
Proof.
  intros Hquiet Hrepo Hdec Hastext.
  pose proof (resolve_repo_quiet task_name round_index s Hquiet) as Hresolve.
  rewrite Hrepo in Hresolve.
  assert (Htext : readme_decodes p (foldl upserted r attachments)).
  { intros Hp. destruct (Hastext Hp) as [Hbefore Hsent].
    by apply readme_is_text_after_loop. }
  destruct (synchronize_exact p task_name round_index brief attachments _ r s _
              Hresolve Hquiet Hrepo Hdec Htext)
    as (s' & message & text & c & older & Hrun & Hev & Hlog).
  set (r3 := commit_to (foldl upserted r attachments) message "README.md" text) in *.
  assert (Hfiles : forall path, path <> "README.md" -> path <> "LICENSE" ->
            sr_files (licensed round_index r3) !! path =
            foldl (fun files attach => <[filename attach := decoded attach]> files)
              (sr_files r) attachments !! path).
  { intros path Hreadme Hlicense. unfold licensed.
    assert (Hr3 : sr_files r3 !! path =
              foldl (fun files attach => <[filename attach := decoded attach]> files)
                (sr_files r) attachments !! path).
    { subst r3. cbn [commit_to sr_files]. rewrite lookup_insert_ne by done.
      by rewrite foldl_upserted_files. }
    destruct (round_index =? 1); [|exact Hr3].
    destruct (sr_files r3 !! "LICENSE"); [exact Hr3|].
    cbn [commit_to sr_files]. rewrite lookup_insert_ne by done. exact Hr3. }
  exists s', (licensed round_index r3), (c_sha c).
  split; [exact Hrun|]. split; [apply Hev|].
  split.
  { unfold licensed. destruct (round_index =? 1); [destruct (sr_files r3 !! "LICENSE")|];
      subst r3; simpl; apply foldl_upserted_private. }
  split; [rewrite Hlog; reflexivity|].
  split; [|split].
  - intros path Hnotin Hreadme Hlicense. rewrite Hfiles by done.
    by apply foldl_insert_other.
  - intros i attach Hi Hlast Hreadme.
    destruct (decide (filename attach = "LICENSE")) as [Hlic|Hlic].
    + assert (Hwritten : sr_files r3 !! "LICENSE" = Some (decoded attach)).
      { subst r3. cbn [commit_to sr_files]. rewrite lookup_insert_ne by done.
        rewrite foldl_upserted_files, <- Hlic. by eapply foldl_insert_last. }
      rewrite Hlic. unfold licensed.
      destruct (round_index =? 1); [|exact Hwritten].
      rewrite Hwritten. exact Hwritten.
    + rewrite Hfiles by done. by eapply foldl_insert_last.
  - intros Hround. assert (Hne : (round_index =? 1) = false) by lia.
    unfold licensed. rewrite Hne. split.
    + subst r3. cbn [commit_to sr_commits List.length].
      rewrite foldl_upserted_length. lia.
    + intros Hnotin. subst r3. cbn [commit_to sr_files].
      rewrite lookup_insert_ne by done. rewrite foldl_upserted_files.
      by apply foldl_insert_other.
Qed.

(** ** The attachment loop run twice *)

Lemma last_occurrence (attachments : list Attachment) (path : string) :
  path ∈ (filename <$> attachments) ->
  exists (i : nat) (attach : Attachment),
    attachments !! i = Some attach /\ filename attach = path /\
    path ∉ (filename <$> drop (S i) attachments).
Proof.
  induction attachments as [|first rest IH]; intros Hin.
  - by apply elem_of_nil in Hin.
  - destruct (decide (path ∈ (filename <$> rest))) as [Hlater|Hlast].
    + destruct (IH Hlater) as (i & attach & Hi & Hname & Hnot).
      exists (S i), attach. done.
    + rewrite fmap_cons in Hin. apply elem_of_cons in Hin as [->|Hin]; [|done].
      exists O, first. simpl. rewrite drop_0. done.
Qed.

Lemma foldl_insert_twice (attachments : list Attachment) (files : gmap string string) :
  foldl (fun files attach => <[filename attach := decoded attach]> files)
    (foldl (fun files attach => <[filename attach := decoded attach]> files)
       files attachments) attachments =
  foldl (fun files attach => <[filename attach := decoded attach]> files)
    files attachments.
Proof.
  apply map_eq. intros path.
  destruct (decide (path ∈ (filename <$> attachments))) as [Hin|Hnotin].
  - destruct (last_occurrence attachments path Hin) as (i & attach & Hi & <- & Hlast).
    rewrite !(foldl_insert_last attachments _ i attach Hi Hlast). reflexivity.
  - rewrite !foldl_insert_other by exact Hnotin. reflexivity.
Qed.

Lemma upsert_attachments_all_present (repo : Repository)
    (attachments : list Attachment) :
  forall (r : sim_repo) (s : state sim),
  sim_faults (world s) = [] ->
  sim_repos (world s) !! repo_name repo = Some r ->
  Forall decodable attachments ->
  Forall (fun attach => is_Some (sr_files r !! filename attach)) attachments ->
  exists s' new,
    upsert_attachments repo attachments s = (s', Ok tt) /\
    evolves (repo_name repo) (foldl upserted r attachments) s s' /\
    trace s' = trace s ++ new /\
    Forall (fun ev => ev_ok ev = true /\
                      match ev_call ev with
                      | GetContents _ _ | UpdateFile _ _ _ _ _ => True
                      | _ => False
                      end) new.
Proof.
  induction attachments as [|attach rest IH]; intros r s Hquiet Hrepo Hdec Hpresent.
  - exists s, []. simpl. rewrite app_nil_r.
    split; [reflexivity|]. split; [by apply evolves_refl|]. split; [reflexivity|constructor].
  - inversion Hdec as [|? ? Hhead Htail]; subst.
    inversion Hpresent as [|? ? [old Hold] Hrest]; subst.
    destruct (upsert_attachment_evolves repo attach r s Hquiet Hrepo Hhead)
      as (s1 & Hrun1 & Hev1 & _ & Htrace1).
    destruct (IH (upserted r attach) s1) as (s2 & new & Hrun2 & Hev2 & Htrace2 & Hall);
      [apply Hev1|by eapply evolves_lookup|done| |].
    { eapply Forall_impl; [exact Hrest|]. intros other [data Hdata].
      rewrite upserted_files.
      destruct (decide (filename attach = filename other)) as [->|Hne].
      - rewrite lookup_insert_eq. eauto.
      - rewrite lookup_insert_ne by done. eauto. }
    exists s2, (upsert_calls (repo_name repo) r attach ++ new).
    simpl. unfold bind. rewrite Hrun1, Hrun2.
    split; [reflexivity|]. split; [by eapply evolves_trans|].
    split; [rewrite Htrace2, Htrace1, app_assoc; reflexivity|].
    apply Forall_app. split; [|exact Hall].
    unfold upsert_calls. rewrite Hold. repeat constructor.
Qed.

(** X15. On the simulated account with no fault scheduled, running the
    attachment loop a second time over the same list, whatever filenames
    repeat in it, leaves the files of the repository as the first run left
    them, and the second run consists of successful lookups and updates
    only: it creates nothing.  The history is not idempotent: the second run
    adds one commit per attachment again. *)
Theorem upsert_loop_twice (repo : Repository) (attachments : list Attachment)
    (r : sim_repo) (s : state sim) :
  sim_faults (world s) = [] ->
  sim_repos (world s) !! repo_name repo = Some r ->
  Forall decodable attachments ->
  exists s1 s2 r1 r2 new,
    upsert_attachments repo attachments s = (s1, Ok tt) /\
    upsert_attachments repo attachments s1 = (s2, Ok tt) /\
    sim_repos (world s1) !! repo_name repo = Some r1 /\
    sim_repos (world s2) !! repo_name repo = Some r2 /\
    sr_files r2 = sr_files r1 /\
    trace s2 = trace s1 ++ new /\
    Forall (fun ev => ev_ok ev = true /\
                      match ev_call ev with
                      | GetContents _ _ | UpdateFile _ _ _ _ _ => True
                      | _ => False
                      end) new /\
    List.length (sr_commits r2) =
      (List.length (sr_commits r1) + List.length attachments)%nat.
Proof.
  intros Hquiet Hrepo Hdec.
  destruct (upsert_attachments_evolves repo attachments r s Hquiet Hrepo Hdec)
    as (s1 & Hrun1 & Hev1 & _).
  pose proof (evolves_lookup _ _ _ _ Hev1) as Hrepo1.
  destruct (upsert_attachments_all_present repo attachments (foldl upserted r attachments)
              s1 (proj1 Hev1) Hrepo1 Hdec)
    as (s2 & new & Hrun2 & Hev2 & Htrace & Hall).
  { apply Forall_forall. intros attach Hin. rewrite foldl_upserted_files.
    apply foldl_insert_named. apply list_elem_of_fmap. eauto. }
  exists s1, s2, (foldl upserted r attachments),
    (foldl upserted (foldl upserted r attachments) attachments), new.
  split; [exact Hrun1|]. split; [exact Hrun2|]. split; [exact Hrepo1|].
  split; [by eapply evolves_lookup|].
  split; [rewrite !foldl_upserted_files; apply foldl_insert_twice|].
  split; [exact Htrace|]. split; [exact Hall|]. apply foldl_upserted_length.
Qed.

(** ** The decoder on content that is not clean base64 *)

Lemma a2b_base64_loop_skips (before : string) :
  forall (c : ascii) (after : string) (quad_pos leftchar pads : Z) (bin_data : string),
  b64_foreign c = true ->
  a2b_base64_loop (before +:+ String c after) quad_pos leftchar pads bin_data =
  a2b_base64_loop (before +:+ after) quad_pos leftchar pads bin_data.
Proof.
  induction before as [|this_ch rest IH];
    intros c after quad_pos leftchar pads bin_data Hforeign.
  - unfold b64_foreign in Hforeign. apply andb_true_iff in Hforeign as [Hpad Htable].
    apply negb_true_iff in Hpad. simpl. rewrite Hpad.
    destruct (table_a2b_base64 c); [discriminate|reflexivity].
  - simpl. repeat case_match; try reflexivity; by apply IH.
Qed.

(** X16. [b64decode] does not validate: a character that is neither in the
    base64 alphabet nor the pad character (a newline, a space, punctuation,
    any byte above 127) can stand anywhere in the content without changing
    the result, be it the decoded bytes or the error. *)
Theorem b64decode_ignores_foreign (before after : string) (c : ascii) :
  b64_foreign c = true ->
  b64decode (before +:+ String c after) = b64decode (before +:+ after).
Proof. intros Hforeign. unfold b64decode. by apply a2b_base64_loop_skips. Qed.

Lemma b64decode_all_foreign (s : string) :
  all_foreign s = true -> b64decode s = Ok "".
Proof.
  unfold b64decode. induction s as [|c rest IH]; intros Hall; [reflexivity|].
  simpl in Hall. apply andb_true_iff in Hall as [Hc Hrest].
  pose proof (a2b_base64_loop_skips "" c rest 0 0 0 "" Hc) as Hskip.
  change ("" +:+ String c rest) with (String c rest) in Hskip.
  change ("" +:+ rest) with rest in Hskip. rewrite Hskip. by apply IH.
Qed.

(** X17. On the simulated account with no fault scheduled, an attachment
    whose content has no base64 character at all is not rejected: it decodes
    to no bytes, and the pass writes an empty file at its filename. *)
Theorem garbage_content_writes_empty_file (repo : Repository) (attach : Attachment)
    (r : sim_repo) (s : state sim) :
  sim_faults (world s) = [] ->
  sim_repos (world s) !! repo_name repo = Some r ->
  all_foreign (content attach) = true ->
  exists s' r',
    upsert_attachment repo attach s = (s', Ok tt) /\
    sim_repos (world s') !! repo_name repo = Some r' /\
    sr_files r' !! filename attach = Some "".
Proof.
  intros Hquiet Hrepo Hall.
  pose proof (b64decode_all_foreign _ Hall) as Hdata.
  assert (Hdec : decodable attach) by (unfold decodable; rewrite Hdata; reflexivity).
  destruct (upsert_attachment_evolves repo attach r s Hquiet Hrepo Hdec)
    as (s' & Hrun & Hev & _).
  exists s', (upserted r attach). split; [exact Hrun|].
  split; [by eapply evolves_lookup|].
  rewrite upserted_files, lookup_insert_eq. unfold decoded. rewrite Hdata. reflexivity.
Qed.

(** ** Start-up, completed *)


(** ** The further properties at work on the scenarios *)

Lemma synchronizer_never_dispatches_witness :
  let run :=
    init_or_update_repo api_server_py "demo" 1 "initial" [index_html; style_css]
      (State octo_empty [] []) in
  is_ok run.2 = true /\
  pending run.1 = [] /\
  exists new,
    trace run.1 = [] ++ new /\
    posts new = [] /\ sleeps new = [] /\
    Forall (fun ev => is_hosting (ev_call ev) = true) new.
Proof.
  intros run. split; [vm_compute; reflexivity|].
  apply (synchronizer_never_dispatches api_server_py "demo" 1 "initial"
           [index_html; style_css] (State octo_empty [] []) run.1 run.2).
  apply surjective_pairing.
Defined.

Lemma api_handler_success_witness :
  let payload := submission "form-secret" 1 [index_html] in
  let synced := ("https://github.com/octo/demo", "c2", "https://octo.github.io/demo/") in
  exists s' accepted,
    ApiServer.post_evaluation (evaluation_url payload) (eval_payload_of payload synced) 5
      (ApiServer.init_or_update_repo "demo" 1 "initial" [index_html]
         (State octo_empty [] [])).1 = (s', Ok accepted) /\
    route (ApiServer.handle_request api_config payload) (State octo_empty [] []) =
      (s', JSONResponse 200
             [("status", "ok"); ("repo_url", "https://github.com/octo/demo");
              ("commit_sha", "c2"); ("pages_url", "https://octo.github.io/demo/")]).
Proof.
  intros payload synced.
  apply (api_handler_success api_config payload (State octo_empty [] [])
           (ApiServer.init_or_update_repo "demo" 1 "initial" [index_html]
              (State octo_empty [] [])).1 synced).
  - reflexivity.
  - vm_compute. reflexivity.
Defined.

Lemma server_handler_success_witness :
  let payload := submission "Ojal2" 1 [index_html] in
  let synced := ("https://github.com/octo/demo", "c2", "https://octo.github.io/demo/") in
  exists s' new,
    route (Server.handle_request payload) (State octo_empty [] []) =
      (s', JSONResponse 200
             [("status", "ok"); ("repo_url", "https://github.com/octo/demo");
              ("commit_sha", "c2"); ("pages_url", "https://octo.github.io/demo/");
              ("message", "Repo updated! Evaluation POST sent in background.")]) /\
    world s' =
      world (Server.init_or_update_repo "demo" 1 "initial" [index_html]
               (State octo_empty [] [])).1 /\
    trace s' = [] ++ new /\ posts new = [] /\
    pending s' =
      [] ++ [PostEvaluationAsync "https://eval.example.com/notify"
               (eval_payload_of payload synced)].
Proof.
  intros payload synced.
  apply (server_handler_success payload (State octo_empty [] [])
           (Server.init_or_update_repo "demo" 1 "initial" [index_html]
              (State octo_empty [] [])).1 synced).
  - reflexivity.
  - vm_compute. reflexivity.
Defined.

Lemma handler_failure_no_dispatch_witness :
  let payload := submission "form-secret" 2 [index_html] in
  let s' := State octo_empty [Event (GetRepo "demo") false] [] in
  let e := RuntimeError "Repo demo does not exist for round 2" in
  handle_request (VercelApi api_config) payload (State octo_empty [] []) = (s', Raised e) /\
  route (handle_request (VercelApi api_config) payload) (State octo_empty [] []) =
    (s', InternalServerError 500) /\
  pending s' = [] /\
  exists new, trace s' = [] ++ new /\ posts new = [].
Proof.
  intros payload s' e.
  apply (handler_failure_no_dispatch (VercelApi api_config) payload
           (State octo_empty [] []) s' e).
  - reflexivity.
  - vm_compute. reflexivity.
Defined.

Lemma post_evaluation_first_success_witness :
  exists s' new,
    ApiServer.post_evaluation "https://eval.example.com/notify" notification 5
      (State octo_demo_two_rounds [] []) = (s', Ok true) /\
    trace s' = [] ++ new /\
    ev_call <$> new =
      failed_attempts 2 (blocking_request "https://eval.example.com/notify" notification) 1
        ++ [Post (blocking_request "https://eval.example.com/notify" notification)] /\
    sim_slept (world s') = 0 + (2 ^ Z.of_nat 2 - 1) /\
    sim_endpoint (world s') = [Ok 200].
Proof.
  apply (post_evaluation_first_success "https://eval.example.com/notify" notification 5
           (State octo_demo_two_rounds [] [])
           [Ok 503; Raised RequestException] [Ok 200] (Ok 200)).
  - reflexivity.
  - repeat constructor.
  - reflexivity.
  - simpl. lia.
Defined.

Lemma license_created_once_witness :
  exists s1 s2 r',
    add_license demo_handle 1 (State octo_demo [] []) = (s1, Ok tt) /\
    sim_repos (world s1) !! "demo" = Some r' /\
    sr_files r' !! "LICENSE" = Some license_text /\
    (forall path, path <> "LICENSE" -> sr_files r' !! path = sr_files demo_repo !! path) /\
    add_license demo_handle 1 s1 = (s2, Ok tt) /\
    sim_repos (world s2) !! "demo" = Some r'.
Proof.
  destruct (license_created_once demo_handle demo_repo (State octo_demo [] [])
              eq_refl eq_refl)
    as (s1 & s2 & r' & Hrun1 & Hrepo1 & Hlicense & Hother & _ & Hrun2 & Hrepo2).
  exists s1, s2, r'. done.
Defined.

Lemma lost_lookup_taken_for_missing_witness :
  (exists s',
     init_or_update_repo api_server_py "demo" 2 "second" [style_css]
       (State octo_demo_lost_lookup [] []) =
       (s', Raised (RuntimeError "Repo demo does not exist for round 2")) /\
     sim_repos (world s') = sim_repos octo_demo_lost_lookup) /\
  (exists s',
     init_or_update_repo server_py "demo" 1 "initial" [style_css]
       (State octo_demo_lost_lookup [] []) = (s', Raised (GithubException 422)) /\
     sim_repos (world s') = sim_repos octo_demo_lost_lookup).
Proof.
  split.
  - destruct (lost_lookup_taken_for_missing api_server_py "demo" 2 "second" [style_css]
                demo_repo (State octo_demo_lost_lookup [] []) eq_refl eq_refl)
      as (s' & Hrun & Hrepos & _).
    exists s'. split; [exact Hrun|exact Hrepos].
  - destruct (lost_lookup_taken_for_missing server_py "demo" 1 "initial" [style_css]
                demo_repo (State octo_demo_lost_lookup [] []) eq_refl eq_refl)
      as (s' & Hrun & Hrepos & _).
    exists s'. split; [exact Hrun|exact Hrepos].
Defined.

Lemma lost_file_lookup_raises_witness :
  exists s',
    upsert_attachment demo_handle index_html (State octo_demo_lost_lookup [] []) =
      (s', Raised (GithubException 422)) /\
    sim_repos (world s') = sim_repos octo_demo_lost_lookup /\
    trace s' = [] ++
      [Event (GetContents "demo" "index.html") false;
       Event (CreateFile "demo" "index.html" "Add index.html" "<h1>hi</h1>") false].
Proof.
  apply (lost_file_lookup_raises demo_handle index_html demo_repo "<h1>old</h1>"
           (State octo_demo_lost_lookup [] [])); reflexivity.
Defined.

Lemma api_readme_fallback_repeats_section_witness :
  let s := State octo_demo_lost_update [] [] in
  let round_section now :=
    nl +:+ nl +:+ "## Round 2 Updates" +:+ nl +:+ "second" +:+ nl +:+ "Updated: " +:+ now in
  let text :=
    ("# demo" +:+ round_section "2025-01-03T00:00:00")
      +:+ round_section "2025-01-04T00:00:00" in
  exists s',
    ApiServer.update_readme demo_handle "demo" 2 "second" s =
      (s', Raised (GithubException 422)) /\
    ev_call <$> trace s' =
      [GetContents "demo" "README.md";
       UpdateFile "demo" "README.md" "Update README for Round 2"
         ("# demo" +:+ round_section "2025-01-03T00:00:00") "# demo";
       CreateFile "demo" "README.md" "Add README Round 2" text].
Proof.
  intros s round_section text.
  set (w1 := with_faults octo_demo_lost_update [Transient]).
  set (w2 := (clock_utcnow w1).1).
  set (w3 := with_faults w2 []).
  set (w4 := (clock_utcnow w3).1).
  pose proof (@api_readme_fallback_repeats_section sim sim_env
                demo_handle "demo" 2 "second" s w1 w2 w3 w4
                {| cf_path := "README.md"; cf_sha := "# demo"; decoded_content := "# demo" |}
                "2025-01-03T00:00:00" "2025-01-04T00:00:00" (GithubException 502)
                ltac:(vm_compute; reflexivity) ltac:(vm_compute; reflexivity)
                ltac:(vm_compute; reflexivity) ltac:(vm_compute; reflexivity)
                ltac:(vm_compute; reflexivity)) as Hrun.
  eexists. split; [rewrite Hrun; vm_compute; reflexivity|]. vm_compute. reflexivity.
Defined.

Lemma readme_over_two_runs_witness :
  (exists s1 s2 r2,
     ApiServer.update_readme demo_handle "demo" 2 "second" (State octo_demo_two_rounds [] [])
       = (s1, Ok tt) /\
     ApiServer.update_readme demo_handle "demo" 2 "second" s1 = (s2, Ok tt) /\
     sim_repos (world s2) !! "demo" = Some r2 /\
     sr_files r2 !! "README.md" =
       Some ("# demo"
               +:+ nl +:+ nl +:+ "## Round 2 Updates" +:+ nl +:+ "second" +:+ nl
               +:+ "Updated: 2025-01-03T00:00:00"
               +:+ nl +:+ nl +:+ "## Round 2 Updates" +:+ nl +:+ "second" +:+ nl
               +:+ "Updated: 2025-01-04T00:00:00")) /\
  (exists s1 s2 r2,
     Server.update_readme demo_handle "demo" "second" (State octo_demo_two_rounds [] [])
       = (s1, Ok tt) /\
     Server.update_readme demo_handle "demo" "third" s1 = (s2, Ok tt) /\
     sim_repos (world s2) !! "demo" = Some r2 /\
     sr_files r2 !! "README.md" =
       Some ("# demo" +:+ nl +:+ nl +:+ "Brief:" +:+ nl +:+ "third" +:+ nl +:+ nl
               +:+ "Updated: 2025-01-04T00:00:00")).
Proof.
  split.
  - destruct (readme_over_two_runs demo_handle "demo" 2 2 "second" "second" demo_repo
                (State octo_demo_two_rounds [] [])
                "2025-01-03T00:00:00" "2025-01-04T00:00:00" [] eq_refl eq_refl eq_refl)
      as [Hcumulative _].
    destruct (Hcumulative demo_repo_readme_is_text ltac:(vm_compute; reflexivity))
      as (s1 & s2 & r2 & Hrun1 & Hrun2 & Hrepo & Hreadme).
    exists s1, s2, r2. split; [exact Hrun1|]. split; [exact Hrun2|].
    split; [exact Hrepo|]. rewrite Hreadme. vm_compute. reflexivity.
  - destruct (readme_over_two_runs demo_handle "demo" 2 3 "second" "third" demo_repo
                (State octo_demo_two_rounds [] [])
                "2025-01-03T00:00:00" "2025-01-04T00:00:00" [] eq_refl eq_refl eq_refl)
      as [_ (s1 & s2 & r2 & Hrun1 & Hrun2 & Hrepo & Hreadme)].
    exists s1, s2, r2. split; [exact Hrun1|]. split; [exact Hrun2|].
    split; [exact Hrepo|exact Hreadme].
Defined.

Lemma synchronize_existing_repository_witness :
  (exists s' r' commit_sha,
     init_or_update_repo api_server_py "demo" 2 "second" [style_css] (State octo_demo [] []) =
       (s', Ok ("https://github.com/octo/demo", commit_sha, "https://octo.github.io/demo/")) /\
     sim_repos (world s') = <["demo" := r']> (sim_repos octo_demo) /\
     head (c_sha <$> sr_commits r') = Some commit_sha /\
     sr_files r' !! "style.css" = Some "body{}") /\
  exists s' r' commit_sha,
    init_or_update_repo server_py "demo" 2 "second" [style_css] (State octo_demo [] []) =
      (s', Ok ("https://github.com/octo/demo", commit_sha, "https://octo.github.io/demo/")) /\
    sim_repos (world s') = <["demo" := r']> (sim_repos octo_demo) /\
    sr_private r' = false /\
    head (c_sha <$> sr_commits r') = Some commit_sha /\
    sr_files r' !! "index.html" = Some "<h1>old</h1>" /\
    sr_files r' !! "style.css" = Some "body{}" /\
    sr_files r' !! "LICENSE" = None /\
    List.length (sr_commits r') = 4%nat.
Proof.
  split.
  { destruct (synchronize_existing_repository api_server_py "demo" 2 "second" [style_css]
                demo_repo (State octo_demo [] []) eq_refl eq_refl)
      as (s' & r' & commit_sha & Hrun & Hrepos & _ & Hhead & _ & Hwritten & _);
      [repeat constructor| |].
    { intros _. split; [exact demo_repo_readme_is_text|].
      intros attach Hin Hname.
      apply elem_of_cons in Hin as [->|Hin]; [discriminate Hname|].
      by apply elem_of_nil in Hin. }
    exists s', r', commit_sha. split; [exact Hrun|]. split; [exact Hrepos|].
    split; [exact Hhead|].
    apply (Hwritten 0%nat style_css eq_refl); [|done].
    intros Hin. by apply elem_of_nil in Hin. }
  destruct (synchronize_existing_repository server_py "demo" 2 "second" [style_css]
              demo_repo (State octo_demo [] []) eq_refl eq_refl)
    as (s' & r' & commit_sha & Hrun & Hrepos & Hprivate & Hhead & Hother & Hwritten & Hround);
    [repeat constructor|intros Hp; discriminate Hp|].
  exists s', r', commit_sha. split; [exact Hrun|]. split; [exact Hrepos|].
  split; [exact Hprivate|]. split; [exact Hhead|].
  assert (Hnames : forall path : string, path <> "style.css" ->
            path ∉ (filename <$> [style_css])).
  { intros path Hne Hin. apply elem_of_cons in Hin as [->|Hin]; [done|].
    by apply elem_of_nil in Hin. }
  split; [rewrite Hother; [reflexivity|by apply Hnames|done|done]|].
  split.
  { apply (Hwritten 0%nat style_css eq_refl); [|done].
    intros Hin. by apply elem_of_nil in Hin. }
  destruct Hround as [Hlength Hlicense]; [done|].
  split; [rewrite Hlicense; [reflexivity|by apply Hnames]|exact Hlength].
Defined.

Lemma upsert_loop_twice_witness :
  exists s1 s2 r1 r2 new,
    upsert_attachments demo_handle [index_html; style_css; index_html]
      (State octo_demo [] []) = (s1, Ok tt) /\
    upsert_attachments demo_handle [index_html; style_css; index_html] s1 = (s2, Ok tt) /\
    sim_repos (world s1) !! "demo" = Some r1 /\
    sim_repos (world s2) !! "demo" = Some r2 /\
    sr_files r2 = sr_files r1 /\
    trace s2 = trace s1 ++ new /\
    Forall (fun ev => ev_ok ev = true /\
                      match ev_call ev with
                      | GetContents _ _ | UpdateFile _ _ _ _ _ => True
                      | _ => False
                      end) new /\
    List.length (sr_commits r2) = (List.length (sr_commits r1) + 3)%nat.
Proof.
  apply (upsert_loop_twice demo_handle [index_html; style_css; index_html] demo_repo
           (State octo_demo [] [])); [reflexivity|reflexivity|repeat constructor].
Defined.

Lemma b64decode_ignores_foreign_witness :
  b64_foreign "010"%char = true /\
  b64decode ("PGgx" +:+ String "010"%char "PmhpPC9oMT4=") = Ok "<h1>hi</h1>" /\
  b64decode ("aG" +:+ String " "%char "k") = Raised BinasciiError.
Proof.
  split; [reflexivity|]. split.
  - rewrite (b64decode_ignores_foreign "PGgx" "PmhpPC9oMT4=" "010"%char); reflexivity.
  - rewrite (b64decode_ignores_foreign "aG" "k" " "%char); reflexivity.
Defined.

Lemma garbage_content_writes_empty_file_witness :
  all_foreign (content garbage_txt) = true /\
  exists s' r',
    upsert_attachment demo_handle garbage_txt (State octo_demo [] []) = (s', Ok tt) /\
    sim_repos (world s') !! "demo" = Some r' /\
    sr_files r' !! "notes.txt" = Some "".
Proof.
  split; [reflexivity|].
  apply (garbage_content_writes_empty_file demo_handle garbage_txt demo_repo
           (State octo_demo [] [])); reflexivity.
Defined.

Lemma api_readme_not_text_goes_to_create_witness :
  utf8_valid torn_readme = false /\
  (exists s',
     ApiServer.update_readme demo_handle "demo" 2 "second" (State octo_torn [] []) =
       (s', Raised (GithubException 422)) /\
     ev_call <$> trace s' =
       [GetContents "demo" "README.md";
        CreateFile "demo" "README.md" "Add README Round 2"
          (("# demo" +:+ nl +:+ nl) +:+ nl +:+ nl +:+ "## Round 2 Updates" +:+ nl
             +:+ "second" +:+ nl +:+ "Updated: 2025-01-03T00:00:00")] /\
     sim_repos (world s') = sim_repos octo_torn) /\
  (exists s',
     init_or_update_repo api_server_py "demo" 1 "initial" [torn_readme_md]
       (State octo_empty [] []) = (s', Raised (GithubException 422))).
Proof.
  split; [reflexivity|]. split.
  - pose proof (@api_readme_not_text_goes_to_create sim sim_env
                  demo_handle "demo" 2 "second" (State octo_torn [] [])
                  octo_torn (clock_utcnow octo_torn).1
                  {| cf_path := "README.md"; cf_sha := torn_readme;
                     decoded_content := torn_readme |}
                  "2025-01-03T00:00:00"
                  ltac:(vm_compute; reflexivity) ltac:(vm_compute; reflexivity)
                  ltac:(vm_compute; reflexivity)) as Hrun.
    eexists. split; [rewrite Hrun; vm_compute; reflexivity|].
    split; vm_compute; reflexivity.
  - eexists. vm_compute. reflexivity.
Defined.

(** ** The text decoder on examples *)

Example utf8_valid_two_bytes : utf8_valid (String (ascii_of_N 195) (String (ascii_of_N 169) "")) = true.
Proof. reflexivity. Qed.

Example utf8_valid_truncated : bytes_decode torn_readme = Raised UnicodeDecodeError.
Proof. reflexivity. Qed.

Example utf8_valid_stray_byte : decoded torn_readme_md = String (ascii_of_N 255) ""
  /\ bytes_decode (decoded torn_readme_md) = Raised UnicodeDecodeError.
Proof. split; reflexivity. Qed.

Example utf8_valid_surrogate :
  utf8_valid (String (ascii_of_N 237) (String (ascii_of_N 160) (String (ascii_of_N 128) "")))
  = false.
Proof. reflexivity. Qed.

Example utf8_valid_overlong :
  utf8_valid (String (ascii_of_N 192) (String (ascii_of_N 128) "")) = false.
Proof. reflexivity. Qed.

Example utf8_valid_beyond_range :
  utf8_valid (String (ascii_of_N 244) (String (ascii_of_N 144)
                (String (ascii_of_N 128) (String (ascii_of_N 128) "")))) = false.
Proof. reflexivity. Qed.

Example utf8_valid_four_bytes :
  utf8_valid (String (ascii_of_N 240) (String (ascii_of_N 159)
                (String (ascii_of_N 152) (String (ascii_of_N 128) "")))) = true.
Proof. reflexivity. Qed.
